(** * HealthMap: a shallow embedding of the record utilities, the payload
    extraction of the enrichment step, the single-entity pipeline and the
    batch driver, with their properties.

    Python values are modelled as JSON values ([json]); the dynamic
    operations the code uses ([x in c], [c[k]], [c[k] = v], [for x in c],
    truthiness, [==]) are written out as in CPython, raising the exception
    CPython raises.  Numbers are integers (JSON floats are not modelled) and
    text is ASCII. *)

From Stdlib Require Import String Ascii List ZArith Bool Lia Permutation.
Import ListNotations.
Local Open Scope string_scope.
Local Open Scope list_scope.

Set Warnings "-register-all".

Infix "+s+" := String.append (at level 60, right associativity).

(* ------------------------------------------------------------------ *)
(** ** Python values *)

Inductive json : Type :=
| JNull
| JBool (b : bool)
| JNum (n : Z)
| JStr (s : string)
| JArr (xs : list json)
| JObj (kvs : list (string * json)).

(** Exceptions raised by the modelled code. *)
Inductive exn : Type :=
| KeyError (k : json)
| TypeError (msg : string)
| AttributeError (msg : string)
| IndexError (msg : string)
| JSONDecodeError (msg : string)
| APIError (msg : string).

(** A computation that returns a value or raises. *)
Inductive res (A : Type) : Type :=
| Ok (a : A)
| Exc (e : exn).
Arguments Ok {A} a.
Arguments Exc {A} e.

Notation "x <- m ;; k" :=
  (match m with Ok x => k | Exc e => Exc e end)
  (at level 61, m at next level, right associativity).

(** Dictionaries are association lists in insertion order; a key is read
    at its first occurrence. *)
Fixpoint dget (k : string) (kvs : list (string * json)) : option json :=
  match kvs with
  | [] => None
  | (k', v) :: r => if String.eqb k k' then Some v else dget k r
  end.

(** [d[k] = v]: overwrite in place, or append a new key at the end. *)
Fixpoint dset (k : string) (v : json) (kvs : list (string * json))
  : list (string * json) :=
  match kvs with
  | [] => [(k, v)]
  | (k', v') :: r => if String.eqb k k' then (k', v) :: r else (k', v') :: dset k v r
  end.

(** The keys of a dictionary, in order, each once. *)
Fixpoint dkeys_aux (seen : list string) (kvs : list (string * json)) : list string :=
  match kvs with
  | [] => []
  | (k, _) :: r =>
      if existsb (String.eqb k) seen then dkeys_aux seen r
      else k :: dkeys_aux (k :: seen) r
  end.
Definition dkeys (kvs : list (string * json)) : list string := dkeys_aux [] kvs.

(** Truthiness ([bool(v)]). *)
Definition truthy (v : json) : bool :=
  match v with
  | JNull => false
  | JBool b => b
  | JNum n => negb (Z.eqb n 0)
  | JStr s => negb (String.eqb s "")
  | JArr xs => match xs with [] => false | _ => true end
  | JObj kvs => match kvs with [] => false | _ => true end
  end.

(** [a == b]; [True == 1] and [False == 0] as in Python, dictionaries
    compared as mappings. *)
Fixpoint py_eq (a b : json) {struct a} : bool :=
  match a, b with
  | JNull, JNull => true
  | JBool x, JBool y => Bool.eqb x y
  | JBool x, JNum n => Z.eqb n (Z.b2z x)
  | JNum n, JBool y => Z.eqb n (Z.b2z y)
  | JNum x, JNum y => Z.eqb x y
  | JStr x, JStr y => String.eqb x y
  | JArr xs, JArr ys =>
      (fix go (xs ys : list json) : bool :=
         match xs, ys with
         | [], [] => true
         | x :: xs', y :: ys' => py_eq x y && go xs' ys'
         | _, _ => false
         end) xs ys
  | JObj xs, JObj ys =>
      (fix go (seen : list string) (xs : list (string * json)) : bool :=
         match xs with
         | [] => true
         | (k, v) :: xs' =>
             (if existsb (String.eqb k) seen then true
              else match dget k ys with Some w => py_eq v w | None => false end)
             && go (k :: seen) xs'
         end) [] xs
      && forallb (fun k => match dget k xs with Some _ => true | None => false end)
                 (map fst ys)
  | _, _ => false
  end.

Definition hashable (v : json) : bool :=
  match v with JArr _ | JObj _ => false | _ => true end.

Definition type_name (v : json) : string :=
  match v with
  | JNull => "NoneType" | JBool _ => "bool" | JNum _ => "int" | JStr _ => "str"
  | JArr _ => "list" | JObj _ => "dict"
  end.

(* ------------------------------------------------------------------ *)
(** ** Text *)

Definition text := list ascii.

Fixpoint prefixb (p s : text) : bool :=
  match p, s with
  | [], _ => true
  | c :: p', d :: s' => Ascii.eqb c d && prefixb p' s'
  | _ :: _, [] => false
  end.

(** [p in s] for strings. *)
Fixpoint contains (p s : text) : bool :=
  prefixb p s || match s with [] => false | _ :: s' => contains p s' end.

Definition T (s : string) : text := list_ascii_of_string s.

Definition str_in (p s : string) : bool := contains (T p) (T s).

(* ------------------------------------------------------------------ *)
(** ** Python operations on values *)

(** [x in c] *)
Definition py_contains (c x : json) : res bool :=
  match c with
  | JObj kvs =>
      if hashable x then
        match x with
        | JStr k => Ok (match dget k kvs with Some _ => true | None => false end)
        | _ => Ok false
        end
      else Exc (TypeError ("unhashable type: '" +s+ type_name x +s+ "'"))
  | JArr xs => Ok (existsb (py_eq x) xs)
  | JStr s =>
      match x with
      | JStr p => Ok (str_in p s)
      | _ => Exc (TypeError ("'in <string>' requires string as left operand, not "
                             +s+ type_name x))
      end
  | _ => Exc (TypeError ("argument of type '" +s+ type_name c +s+ "' is not iterable"))
  end.

Definition index_of (n : Z) (len : nat) : option nat :=
  if Z.ltb n 0 then
    (if Z.ltb (Z.of_nat len + n) 0 then None else Some (Z.to_nat (Z.of_nat len + n)))
  else if Z.ltb n (Z.of_nat len) then Some (Z.to_nat n) else None.

(** [c[k]] *)
Definition py_getitem (c k : json) : res json :=
  match c with
  | JObj kvs =>
      if hashable k then
        match k with
        | JStr s => match dget s kvs with Some v => Ok v | None => Exc (KeyError k) end
        | _ => Exc (KeyError k)
        end
      else Exc (TypeError ("unhashable type: '" +s+ type_name k +s+ "'"))
  | JArr xs =>
      let idx := match k with JNum n => Some n | JBool b => Some (Z.b2z b) | _ => None end in
      match idx with
      | Some n =>
          match index_of n (length xs) with
          | Some i => match nth_error xs i with Some v => Ok v
                      | None => Exc (IndexError "list index out of range") end
          | None => Exc (IndexError "list index out of range")
          end
      | None => Exc (TypeError ("list indices must be integers or slices, not "
                                +s+ type_name k))
      end
  | JStr s =>
      match k with
      | JNum n =>
          match index_of n (String.length s) with
          | Some i => match String.get i s with
                      | Some ch => Ok (JStr (String ch EmptyString))
                      | None => Exc (IndexError "string index out of range") end
          | None => Exc (IndexError "string index out of range")
          end
      | _ => Exc (TypeError ("string indices must be integers, not '"
                             +s+ type_name k +s+ "'"))
      end
  | _ => Exc (TypeError ("'" +s+ type_name c +s+ "' object is not subscriptable"))
  end.

(** [c[k] = v] with a string key. *)
Definition py_setitem (c : json) (k : string) (v : json) : res json :=
  match c with
  | JObj kvs => Ok (JObj (dset k v kvs))
  | JArr _ => Exc (TypeError "list indices must be integers or slices, not str")
  | JStr _ => Exc (TypeError "'str' object does not support item assignment")
  | _ => Exc (TypeError ("'" +s+ type_name c +s+ "' object does not support item assignment"))
  end.

(** [for x in c]: the items the loop visits. *)
Definition py_iter (c : json) : res (list json) :=
  match c with
  | JArr xs => Ok xs
  | JStr s => Ok (map (fun ch => JStr (String ch EmptyString)) (list_ascii_of_string s))
  | JObj kvs => Ok (map JStr (dkeys kvs))
  | _ => Exc (TypeError ("'" +s+ type_name c +s+ "' object is not iterable"))
  end.

(** [l.append(x)], the list being returned. *)
Definition py_append (c x : json) : res json :=
  match c with
  | JArr xs => Ok (JArr (xs ++ [x]))
  | _ => Exc (AttributeError ("'" +s+ type_name c +s+ "' object has no attribute 'append'"))
  end.

(** [d.copy()] (shallow: the model has value semantics, see [merge_entity_data]). *)
Definition py_copy (c : json) : res json :=
  match c with
  | JObj _ | JArr _ => Ok c
  | _ => Exc (AttributeError ("'" +s+ type_name c +s+ "' object has no attribute 'copy'"))
  end.

(** [len(c)] *)
Definition py_len (c : json) : res nat :=
  match c with
  | JArr xs => Ok (length xs)
  | JObj kvs => Ok (length (dkeys kvs))
  | JStr s => Ok (String.length s)
  | _ => Exc (TypeError ("object of type '" +s+ type_name c +s+ "' has no len()"))
  end.

(* ------------------------------------------------------------------ *)
(** ** [utils/json_utils.py]: [merge_entity_data] *)

Module JsonUtils.

Definition scalar_fields : list string := ["name"; "type"; "parent"; "revenue"].

(** [for field in [...]: if field in new_data and new_data[field]:
        merged_data[field] = new_data[field]] *)
Fixpoint update_fields (fields : list string) (new_data merged : json) : res json :=
  match fields with
  | [] => Ok merged
  | f :: fs =>
      b <- py_contains new_data (JStr f) ;;
      m' <- (if b then
               v <- py_getitem new_data (JStr f) ;;
               if truthy v then py_setitem merged f v else Ok merged
             else Ok merged) ;;
      update_fields fs new_data m'
  end.

(** [for subsidiary in ...: if subsidiary not in merged_data["subsidiaries"]:
        merged_data["subsidiaries"].append(subsidiary)] *)
Fixpoint add_subsidiaries (subs : list json) (merged : json) : res json :=
  match subs with
  | [] => Ok merged
  | s :: rest =>
      cur <- py_getitem merged (JStr "subsidiaries") ;;
      present <- py_contains cur s ;;
      m' <- (if present then Ok merged
             else l <- py_append cur s ;; py_setitem merged "subsidiaries" l) ;;
      add_subsidiaries rest m'
  end.

Definition merge_subsidiaries (new_data merged : json) : res json :=
  b <- py_contains new_data (JStr "subsidiaries") ;;
  if b then
    v <- py_getitem new_data (JStr "subsidiaries") ;;
    if truthy v then
      has <- py_contains merged (JStr "subsidiaries") ;;
      m1 <- (if has then Ok merged else py_setitem merged "subsidiaries" (JArr [])) ;;
      subs <- py_iter v ;;
      add_subsidiaries subs m1
    else Ok merged
  else Ok merged.

(** [(rel["target"], rel["type"])] *)
Definition rel_key (rel : json) : res (json * json) :=
  t <- py_getitem rel (JStr "target") ;;
  ty <- py_getitem rel (JStr "type") ;;
  Ok (t, ty).

(** Hashing the pair, as a set insertion or lookup does. *)
Definition hash_key (k : json * json) : res (json * json) :=
  if hashable (fst k) && hashable (snd k) then Ok k
  else Exc (TypeError ("unhashable type: '"
                       +s+ type_name (if hashable (fst k) then snd k else fst k) +s+ "'")).

Definition key_eq (k k' : json * json) : bool := py_eq (fst k) (fst k') && py_eq (snd k) (snd k').

Definition key_mem (k : json * json) (ks : list (json * json)) : bool := existsb (key_eq k) ks.

(** [{(rel["target"], rel["type"]) for rel in merged_data["relationships"]}] *)
Fixpoint build_keys (rels : list json) (acc : list (json * json)) : res (list (json * json)) :=
  match rels with
  | [] => Ok acc
  | r :: rs =>
      k <- rel_key r ;;
      k <- hash_key k ;;
      build_keys rs (if key_mem k acc then acc else acc ++ [k])
  end.

(** The guard [("target" in rel and "type" in rel and
    (rel["target"], rel["type"]) not in existing_relationships)]: the key
    when it holds. *)
Definition new_rel_key (rel : json) (keys : list (json * json)) : res (option (json * json)) :=
  ht <- py_contains rel (JStr "target") ;;
  if ht then
    hy <- py_contains rel (JStr "type") ;;
    if hy then
      k <- rel_key rel ;;
      k <- hash_key k ;;
      Ok (if key_mem k keys then None else Some k)
    else Ok None
  else Ok None.

Fixpoint add_relationships (rels : list json) (keys : list (json * json)) (merged : json)
  : res json :=
  match rels with
  | [] => Ok merged
  | r :: rs =>
      o <- new_rel_key r keys ;;
      match o with
      | Some k =>
          cur <- py_getitem merged (JStr "relationships") ;;
          l <- py_append cur r ;;
          m' <- py_setitem merged "relationships" l ;;
          add_relationships rs (keys ++ [k]) m'
      | None => add_relationships rs keys merged
      end
  end.

Definition merge_relationships (new_data merged : json) : res json :=
  b <- py_contains new_data (JStr "relationships") ;;
  if b then
    v <- py_getitem new_data (JStr "relationships") ;;
    if truthy v then
      has <- py_contains merged (JStr "relationships") ;;
      m1 <- (if has then Ok merged else py_setitem merged "relationships" (JArr [])) ;;
      cur <- py_getitem m1 (JStr "relationships") ;;
      existing <- py_iter cur ;;
      keys <- build_keys existing [] ;;
      incoming <- py_iter v ;;
      add_relationships incoming keys m1
    else Ok merged
  else Ok merged.

(** [merge_entity_data(existing_data, new_data)].  The model has value
    semantics: CPython's shallow [copy()] shares the two lists with
    [existing_data] and appends to them in place, which changes
    [existing_data] but not the returned record.  A loop over a list that is
    also the list being appended to appends nothing in either semantics,
    since every element of a list is [in] it. *)
Definition merge_entity_data (existing_data new_data : json) : res json :=
  if negb (truthy existing_data) then Ok new_data
  else
    merged <- py_copy existing_data ;;
    merged <- update_fields scalar_fields new_data merged ;;
    merged <- merge_subsidiaries new_data merged ;;
    merge_relationships new_data merged.

End JsonUtils.

(** Reference functions for the properties of [merge_entity_data]. *)
Module MergeSpec.

(** The value [update_fields] leaves at key [k]. *)
Definition upd (fs : list string) (n m : list (string * json)) (k : string) : option json :=
  if existsb (String.eqb k) fs then
    match dget k n with
    | Some v => if truthy v then Some v else dget k m
    | None => dget k m
    end
  else dget k m.

(** The list [add_subsidiaries] builds: each item appended unless [in]
    the list so far. *)
Fixpoint add_new (l subs : list json) : list json :=
  match subs with
  | [] => l
  | s :: rest => add_new (if existsb (py_eq s) l then l else l ++ [s]) rest
  end.

(** The entries of [ns] that are not in [es] and do not occur earlier in
    [ns] ([before] holds the entries already passed), in order. *)
Fixpoint new_entries (es before ns : list string) : list string :=
  match ns with
  | [] => []
  | x :: rest =>
      (if existsb (String.eqb x) es || existsb (String.eqb x) before then [] else [x])
      ++ new_entries es (before ++ [x]) rest
  end.

(** The subsidiaries list of a record, [[]] when absent. *)
Definition subs_of (m : list (string * json)) : list json :=
  match dget "subsidiaries" m with Some (JArr l) => l | _ => [] end.

(** A relationship the merge can key: a dictionary with a hashable
    ["target"] and a hashable ["type"]. *)
Definition wf_rel (r : json) : bool :=
  match r with
  | JObj kv =>
      match dget "target" kv, dget "type" kv with
      | Some t, Some ty => hashable t && hashable ty
      | _, _ => false
      end
  | _ => false
  end.

(** A key whose two components are hashable. *)
Definition hkey (k : json * json) : Prop := hashable (fst k) = true /\ hashable (snd k) = true.

(** A relationships value that is absent or a list of relationships the
    merge can key. *)
Definition wf_rels (o : option json) : bool :=
  match o with None => true | Some (JArr rs) => forallb wf_rel rs | Some _ => false end.

(** Every incoming relationship with a key has an equal key among the
    relationships [mrels]. *)
Definition covered (nrels mrels : list json) : Prop :=
  forall r k, In r nrels -> JsonUtils.rel_key r = Ok k ->
    exists y k', In y mrels /\ JsonUtils.rel_key y = Ok k' /\ JsonUtils.key_eq k k' = true.

(** A value that is absent or a list. *)
Definition list_or_absent (o : option json) : bool :=
  match o with None | Some (JArr _) => true | Some _ => false end.

(** A value that is absent, falsy, or iterable by [for x in v] (a list, a
    string or a dictionary). *)
Definition iterable_or_falsy (o : option json) : bool :=
  match o with
  | None => true
  | Some v => negb (truthy v) || match v with JArr _ | JStr _ | JObj _ => true | _ => false end
  end.

(** A relationship whose [(rel["target"], rel["type"])] exists and can be
    hashed. *)
Definition keyed_hashable (r : json) : bool :=
  match JsonUtils.rel_key r with
  | Ok (t, ty) => hashable t && hashable ty
  | Exc _ => false
  end.

End MergeSpec.

(* ------------------------------------------------------------------ *)
(** ** [str(v)], as the f-strings of the code render values *)

Definition digit_char (d : Z) : ascii := ascii_of_nat (48 + Z.to_nat d).

Fixpoint digits_aux (fuel : nat) (n : Z) (acc : string) : string :=
  match fuel with
  | O => acc
  | S f =>
      let acc' := String (digit_char (Z.modulo n 10)) acc in
      if Z.eqb (Z.div n 10) 0 then acc' else digits_aux f (Z.div n 10) acc'
  end.

Definition string_of_Z (n : Z) : string :=
  if Z.ltb n 0 then "-" +s+ digits_aux (Pos.size_nat (Z.to_pos (- n))) (- n) ""
  else digits_aux (Pos.size_nat (Z.to_pos n)) n "".

Definition string_of_nat (n : nat) : string := string_of_Z (Z.of_nat n).

Definition sq : string := String (ascii_of_nat 39) EmptyString.

Fixpoint join (sep : string) (xs : list string) : string :=
  match xs with
  | [] => ""
  | [x] => x
  | x :: r => x +s+ sep +s+ join sep r
  end.

(** [repr(v)] (strings quoted with single quotes, without escaping). *)
Fixpoint py_repr (v : json) : string :=
  match v with
  | JNull => "None"
  | JBool true => "True"
  | JBool false => "False"
  | JNum n => string_of_Z n
  | JStr s => sq +s+ s +s+ sq
  | JArr xs => "[" +s+ join ", " (map py_repr xs) +s+ "]"
  | JObj kvs =>
      "{" +s+ join ", " (map (fun kv => sq +s+ fst kv +s+ sq +s+ ": " +s+ py_repr (snd kv)) kvs)
      +s+ "}"
  end.

(** [str(v)] *)
Definition py_str (v : json) : string :=
  match v with JStr s => s | _ => py_repr v end.

(* ------------------------------------------------------------------ *)
(** ** [utils/json_utils.py]: [validate_entity_json] *)

Module Validate.

Definition required_fields : list string := ["name"; "type"].

Definition valid_types : list string :=
  ["owned_by"; "owns"; "partner"; "competitor"; "customer"; "vendor"].

Definition is_list (v : json) : bool := match v with JArr _ => true | _ => false end.
Definition is_dict (v : json) : bool := match v with JObj _ => true | _ => false end.

Fixpoint check_required (fields : list string) (entity : json) (errors : list string)
  : res (list string) :=
  match fields with
  | [] => Ok errors
  | f :: fs =>
      b <- py_contains entity (JStr f) ;;
      check_required fs entity
        (if b then errors else errors ++ ["Missing required field: " +s+ f])
  end.

(** The loop [for i, rel in enumerate(entity_data["relationships"])]. *)
Fixpoint check_rels (i : nat) (rels : list json) (errors : list string) : res (list string) :=
  match rels with
  | [] => Ok errors
  | rel :: rs =>
      if negb (is_dict rel) then
        check_rels (S i) rs
          (errors ++ ["Relationship at index " +s+ string_of_nat i +s+ " must be an object"])
      else
        ht <- py_contains rel (JStr "target") ;;
        let e1 := if ht then errors
                  else errors ++ ["Relationship at index " +s+ string_of_nat i
                                  +s+ " missing required field: target"] in
        hy <- py_contains rel (JStr "type") ;;
        let e2 := if hy then e1
                  else e1 ++ ["Relationship at index " +s+ string_of_nat i
                              +s+ " missing required field: type"] in
        hy' <- py_contains rel (JStr "type") ;;
        e3 <- (if hy' then
                 t <- py_getitem rel (JStr "type") ;;
                 if existsb (py_eq t) (map JStr valid_types) then Ok e2
                 else
                   t' <- py_getitem rel (JStr "type") ;;
                   Ok (e2 ++ ["Relationship at index " +s+ string_of_nat i
                              +s+ " has invalid type: " +s+ py_str t'])
               else Ok e2) ;;
        check_rels (S i) rs e3
  end.

(** [validate_entity_json(entity_data)]: [(is_valid, errors)]. *)
Definition validate_entity_json (entity_data : json) : res (bool * list string) :=
  errors <- check_required required_fields entity_data [] ;;
  hr <- py_contains entity_data (JStr "relationships") ;;
  errors <- (if hr then
               v <- py_getitem entity_data (JStr "relationships") ;;
               Ok (if is_list v then errors
                   else errors ++ ["Field 'relationships' must be a list"])
             else Ok errors) ;;
  hs <- py_contains entity_data (JStr "subsidiaries") ;;
  errors <- (if hs then
               v <- py_getitem entity_data (JStr "subsidiaries") ;;
               Ok (if is_list v then errors
                   else errors ++ ["Field 'subsidiaries' must be a list"])
             else Ok errors) ;;
  hr' <- py_contains entity_data (JStr "relationships") ;;
  errors <- (if hr' then
               v <- py_getitem entity_data (JStr "relationships") ;;
               match v with
               | JArr rels => check_rels 0 rels errors
               | _ => Ok errors
               end
             else Ok errors) ;;
  Ok (match errors with [] => true | _ => false end, errors).

End Validate.

(* ------------------------------------------------------------------ *)
(** ** [json.loads], on the integer and ASCII fragment of JSON

    As CPython's decoder: whitespace is [ \t\n\r]; strings may not hold raw
    control characters; a duplicate key keeps its first position and its
    last value; text after the value other than whitespace is
    "Extra data".  Not modelled: floats, [NaN]/[Infinity], [\u] escapes
    above 127.  The parser runs on fuel [2 * length s + 2]: every two
    calls consume at least one character, so the fuel never runs out on an
    input the grammar accepts. *)

Module Json.

Definition dq : ascii := ascii_of_nat 34.
Definition bs : ascii := ascii_of_nat 92.

Definition is_json_ws (c : ascii) : bool :=
  let n := nat_of_ascii c in (Nat.eqb n 32) || (Nat.eqb n 9) || (Nat.eqb n 10) || (Nat.eqb n 13).

Fixpoint skip_ws (s : text) : text :=
  match s with
  | c :: s' => if is_json_ws c then skip_ws s' else s
  | [] => []
  end.

Definition is_digit (c : ascii) : bool :=
  (Nat.leb 48 (nat_of_ascii c)) && (Nat.leb (nat_of_ascii c) 57).

Fixpoint take_digits (s : text) : text * text :=
  match s with
  | c :: s' => if is_digit c then let (ds, r) := take_digits s' in (c :: ds, r) else ([], s)
  | [] => ([], [])
  end.

Definition digits_value (ds : text) : Z :=
  fold_left (fun acc d => acc * 10 + Z.of_nat (nat_of_ascii d - 48))%Z ds 0%Z.

(** An optional minus sign, then [0] or a non-zero digit and more digits;
    a fraction or an exponent (a float) is refused. *)
Definition parse_number (s : text) : option (json * text) :=
  let '(neg, s1) := match s with
                    | c :: r => if Ascii.eqb c "-" then (true, r) else (false, s)
                    | [] => (false, s)
                    end in
  let sign (z : Z) := if neg then Z.opp z else z in
  let num := match s1 with
             | c :: r =>
                 if Ascii.eqb c "0" then Some (0%Z, r)
                 else if is_digit c then
                   let '(ds, r') := take_digits r in Some (digits_value (c :: ds), r')
                 else None
             | [] => None
             end in
  match num with
  | Some (z, r) =>
      match r with
      | c :: _ => if Ascii.eqb c "." || Ascii.eqb c "e" || Ascii.eqb c "E" then None
                  else Some (JNum (sign z), r)
      | [] => Some (JNum (sign z), r)
      end
  | None => None
  end.

Definition hex_value (c : ascii) : option nat :=
  let n := nat_of_ascii c in
  if (Nat.leb 48 n) && (Nat.leb n 57) then Some (n - 48)
  else if (Nat.leb 97 n) && (Nat.leb n 102) then Some (n - 87)
  else if (Nat.leb 65 n) && (Nat.leb n 70) then Some (n - 55)
  else None.

Definition simple_escape (e : ascii) : option ascii :=
  let n := nat_of_ascii e in
  if Nat.eqb n 34 then Some dq
  else if Nat.eqb n 92 then Some bs
  else if Nat.eqb n 47 then Some "/"%char
  else if Nat.eqb n 98 then Some (ascii_of_nat 8)
  else if Nat.eqb n 102 then Some (ascii_of_nat 12)
  else if Nat.eqb n 110 then Some (ascii_of_nat 10)
  else if Nat.eqb n 114 then Some (ascii_of_nat 13)
  else if Nat.eqb n 116 then Some (ascii_of_nat 9)
  else None.

(** The body of a string literal after its opening quote. *)
Fixpoint parse_string (s : text) : option (text * text) :=
  match s with
  | [] => None
  | c :: r =>
      if Ascii.eqb c dq then Some ([], r)
      else if Ascii.eqb c bs then
        match r with
        | e :: r' =>
            if Ascii.eqb e "u" then
              match r' with
              | h1 :: h2 :: h3 :: h4 :: r'' =>
                  match hex_value h1, hex_value h2, hex_value h3, hex_value h4 with
                  | Some a, Some b, Some c', Some d =>
                      let n := 4096 * a + 256 * b + 16 * c' + d in
                      if Nat.ltb n 128 then
                        match parse_string r'' with
                        | Some (cs, rest) => Some (ascii_of_nat n :: cs, rest)
                        | None => None
                        end
                      else None
                  | _, _, _, _ => None
                  end
              | _ => None
              end
            else
              match simple_escape e with
              | Some ch =>
                  match parse_string r' with
                  | Some (cs, rest) => Some (ch :: cs, rest)
                  | None => None
                  end
              | None => None
              end
        | [] => None
        end
      else if Nat.ltb (nat_of_ascii c) 32 then None
      else
        match parse_string r with
        | Some (cs, rest) => Some (c :: cs, rest)
        | None => None
        end
  end.

Fixpoint parse_value (fuel : nat) (s : text) {struct fuel} : option (json * text) :=
  match fuel with
  | O => None
  | S f =>
      match skip_ws s with
      | [] => None
      | c :: r =>
          if Ascii.eqb c dq then
            match parse_string r with
            | Some (cs, r') => Some (JStr (string_of_list_ascii cs), r')
            | None => None
            end
          else if Ascii.eqb c "[" then
            match skip_ws r with
            | c' :: r' => if Ascii.eqb c' "]" then Some (JArr [], r')
                          else parse_elems f (skip_ws r) []
            | [] => None
            end
          else if Ascii.eqb c "{" then
            match skip_ws r with
            | c' :: r' => if Ascii.eqb c' "}" then Some (JObj [], r')
                          else parse_members f (skip_ws r) []
            | [] => None
            end
          else if prefixb (T "null") (c :: r) then Some (JNull, skipn 4 (c :: r))
          else if prefixb (T "true") (c :: r) then Some (JBool true, skipn 4 (c :: r))
          else if prefixb (T "false") (c :: r) then Some (JBool false, skipn 5 (c :: r))
          else parse_number (c :: r)
      end
  end
with parse_elems (fuel : nat) (s : text) (acc : list json) {struct fuel}
  : option (json * text) :=
  match fuel with
  | O => None
  | S f =>
      match parse_value f s with
      | Some (v, r) =>
          match skip_ws r with
          | c :: r' =>
              if Ascii.eqb c "," then parse_elems f r' (acc ++ [v])
              else if Ascii.eqb c "]" then Some (JArr (acc ++ [v]), r')
              else None
          | [] => None
          end
      | None => None
      end
  end
with parse_members (fuel : nat) (s : text) (acc : list (string * json)) {struct fuel}
  : option (json * text) :=
  match fuel with
  | O => None
  | S f =>
      match skip_ws s with
      | c :: r =>
          if Ascii.eqb c dq then
            match parse_string r with
            | Some (k, r1) =>
                match skip_ws r1 with
                | c1 :: r2 =>
                    if Ascii.eqb c1 ":" then
                      match parse_value f r2 with
                      | Some (v, r3) =>
                          let acc' := dset (string_of_list_ascii k) v acc in
                          match skip_ws r3 with
                          | c3 :: r4 =>
                              if Ascii.eqb c3 "," then parse_members f r4 acc'
                              else if Ascii.eqb c3 "}" then Some (JObj acc', r4)
                              else None
                          | [] => None
                          end
                      | None => None
                      end
                    else None
                | [] => None
                end
            | None => None
            end
          else None
      | [] => None
      end
  end.

Definition json_loads (s : text) : res json :=
  match parse_value (2 * length s + 2) s with
  | Some (v, r) =>
      match skip_ws r with
      | [] => Ok v
      | _ => Exc (JSONDecodeError "Extra data")
      end
  | None => Exc (JSONDecodeError "Expecting value")
  end.

End Json.

(** Text written with ['] standing for the double quote. *)
Definition qtext (s : string) : text :=
  map (fun c => if Ascii.eqb c "'"%char then Json.dq else c) (T s).

(* ------------------------------------------------------------------ *)
(** ** [enrichment/claude.py]: payload extraction and [enrich_entity_data] *)

Module Claude.

(** [s.split(sep)] for a non-empty [sep]: pieces between the occurrences
    found from left to right, without overlap. *)
Fixpoint split_go (sep : text) (s : text) (skip : nat) (cur : text) : list text :=
  match s with
  | [] => [cur]
  | c :: s' =>
      match skip with
      | S k => split_go sep s' k cur
      | O => if prefixb sep s then cur :: split_go sep s' (pred (length sep)) []
             else split_go sep s' 0 (cur ++ [c])
      end
  end.

Definition py_split (s sep : text) : list text := split_go sep s 0 [].

(** [str.isspace()] on ASCII. *)
Definition is_space (c : ascii) : bool :=
  let n := nat_of_ascii c in
  ((Nat.leb 9 n) && (Nat.leb n 13)) || ((Nat.leb 28 n) && (Nat.leb n 32)).

Fixpoint lstrip (s : text) : text :=
  match s with
  | c :: s' => if is_space c then lstrip s' else s
  | [] => []
  end.

(** [s.strip()] *)
Definition py_strip (s : text) : text := rev (lstrip (rev (lstrip s))).

(** [s.find(p)] when [p in s]. *)
Fixpoint find (p s : text) : nat :=
  match s with
  | [] => 0
  | _ :: s' => if prefixb p s then 0 else S (find p s')
  end.

(** The brace counting loop from [start_idx]: [end_idx], or [-1] as [None]. *)
Fixpoint match_brace (s : text) (brace_count : Z) (i : nat) : option nat :=
  match s with
  | [] => None
  | c :: s' =>
      if Ascii.eqb c "{" then match_brace s' (brace_count + 1)%Z (S i)
      else if Ascii.eqb c "}" then
        if Z.eqb (brace_count - 1) 0 then Some (S i)
        else match_brace s' (brace_count - 1)%Z (S i)
      else match_brace s' brace_count (S i)
  end.

Definition nth_piece (pieces : list text) (i : nat) : res text :=
  match nth_error pieces i with
  | Some p => Ok p
  | None => Exc (IndexError "list index out of range")
  end.

Definition fence_json : text := T "```json".
Definition fence : text := T "```".

(** The candidate text ([json_text]) chosen from the model's response. *)
Definition json_text_of (response_text : text) : res text :=
  if contains fence_json response_text then
    p1 <- nth_piece (py_split response_text fence_json) 1 ;;
    p2 <- nth_piece (py_split p1 fence) 0 ;;
    Ok (py_strip p2)
  else if contains fence response_text then
    p1 <- nth_piece (py_split response_text fence) 1 ;;
    Ok (py_strip p1)
  else if contains (T "{") response_text then
    let start_idx := find (T "{") response_text in
    match match_brace (skipn start_idx response_text) 0 start_idx with
    | Some end_idx =>
        if Nat.ltb start_idx end_idx
        then Ok (py_strip (firstn (end_idx - start_idx) (skipn start_idx response_text)))
        else Ok (py_strip response_text)
    | None => Ok (py_strip response_text)
    end
  else Ok (py_strip response_text).

(** Lines 114-144: the candidate text, then [json.loads(json_text)]. *)
Definition extract_payload (response_text : text) : res json :=
  json_text <- json_text_of response_text ;;
  Json.json_loads json_text.

(** [dict.get(k, default)] *)
Definition py_dict_get (d : json) (k : string) (default : json) : res json :=
  match d with
  | JObj kvs => Ok (match dget k kvs with Some v => v | None => default end)
  | _ => Exc (AttributeError ("'" +s+ type_name d +s+ "' object has no attribute 'get'"))
  end.

Definition py_items (d : json) : res (list (string * json)) :=
  match d with
  | JObj kvs => Ok kvs
  | _ => Exc (AttributeError ("'" +s+ type_name d +s+ "' object has no attribute 'items'"))
  end.

(** What the prompt is built from: the f-string renders these values
    and cannot fail once [.get] and [.items()] have succeeded. *)
Definition prompt_of (entity_name : string) (scraped_data : json) : res json :=
  summary <- py_dict_get scraped_data "summary" (JStr "") ;;
  infobox <- py_dict_get scraped_data "infobox" (JObj []) ;;
  sections <- py_dict_get scraped_data "sections" (JObj []) ;;
  _ <- py_items infobox ;;
  _ <- py_items sections ;;
  Ok (JObj [("entity_name", JStr entity_name); ("summary", summary);
            ("infobox", infobox); ("sections", sections)]).

Definition required_fields : list string := ["name"; "type"; "subsidiaries"; "relationships"].

Definition default_of (field : string) : json :=
  if existsb (String.eqb field) ["subsidiaries"; "relationships"] then JArr [] else JNull.

(** [for field in required_fields: if field not in enriched_data:
        enriched_data[field] = [] if ... else None] *)
Fixpoint fill_required (fields : list string) (enriched_data : json) : res json :=
  match fields with
  | [] => Ok enriched_data
  | f :: fs =>
      present <- py_contains enriched_data (JStr f) ;;
      e' <- (if present then Ok enriched_data
             else py_setitem enriched_data f (default_of f)) ;;
      fill_required fs e'
  end.

Definition error_record (entity_name msg : string) : json :=
  JObj [("error", JStr msg); ("entity_name", JStr entity_name)].

(** [str(e)] *)
Definition exn_str (e : exn) : string :=
  match e with
  | KeyError k => py_repr k
  | TypeError m | AttributeError m | IndexError m | JSONDecodeError m | APIError m => m
  end.

Section Enrich.

(** [CLAUDE_API_KEY], read from the environment at import. *)
Variable CLAUDE_API_KEY : json.
(** [client.messages.create(...).content[0].text]: the response text of
    the language model for the prompt, or the exception the client raises. *)
Variable messages_create : json -> res text.

Definition enrich_entity_data (entity_name : string) (scraped_data : json) : json :=
  if negb (truthy CLAUDE_API_KEY) then error_record entity_name "API key not configured"
  else
    let body :=
      prompt <- prompt_of entity_name scraped_data ;;
      response_text <- messages_create prompt ;;
      enriched_data <- extract_payload response_text ;;
      fill_required required_fields enriched_data in
    match body with
    | Ok v => v
    | Exc (APIError m) => error_record entity_name ("Claude API error: " +s+ m)
    | Exc (JSONDecodeError m) => error_record entity_name ("JSON parsing error: " +s+ m)
    | Exc e => error_record entity_name (exn_str e)
    end.

End Enrich.

End Claude.

(* ------------------------------------------------------------------ *)
(** ** [main.py]: [process_entity]

    The persisted-record store is explicit state: the files by path, and
    the log of the writes [save_entity_json] performs.  An exception keeps
    the effects performed before it, as in Python. *)

Module Main.

Record store := mkStore { files : list (string * json); writes : list (string * json) }.

Definition ST (A : Type) := store -> res A * store.

Definition ret {A} (a : A) : ST A := fun st => (Ok a, st).

Definition bind {A B} (m : ST A) (k : A -> ST B) : ST B :=
  fun st => match m st with
            | (Ok a, st') => k a st'
            | (Exc e, st') => (Exc e, st')
            end.

Notation "x <<- m ;; k" := (bind m (fun x => k))
  (at level 61, m at next level, right associativity).

Definition lift {A} (r : res A) : ST A := fun st => (r, st).

(** [load_entity_json(filepath)]: the record, or [None] for a missing file. *)
Definition load_entity_json (filepath : string) : ST json :=
  fun st => (Ok (match dget filepath (files st) with Some v => v | None => JNull end), st).

(** [save_entity_json(entity_data, filepath)]: one write. *)
Definition save_entity_json (entity_data : json) (filepath : string) : ST bool :=
  fun st => (Ok true, mkStore (dset filepath entity_data (files st))
                              (writes st ++ [(filepath, entity_data)])).

Definition lower_char (c : ascii) : ascii :=
  let n := nat_of_ascii c in
  if (Nat.leb 65 n) && (Nat.leb n 90) then ascii_of_nat (n + 32) else c.

Definition replace_char (a b : ascii) (s : text) : text :=
  map (fun c => if Ascii.eqb c a then b else c) s.

(** [entity_name.lower().replace(" ", "_").replace("/", "_")] *)
Definition entity_filename (entity_name : string) : string :=
  string_of_list_ascii
    (replace_char "/" "_" (replace_char " " "_" (map lower_char (T entity_name)))).

Definition entity_filepath (entity_name : string) : string :=
  "data/entities/" +s+ entity_filename entity_name +s+ ".json".

Definition not_found (entity_name : string) : json :=
  JObj [("error", JStr ("Could not find Wikipedia data for " +s+ entity_name));
        ("entity_name", JStr entity_name)].

Section Pipeline.

(** The collaborators: the Wikipedia page scraper, the Wikipedia search,
    the news scraper (each returns a value and never raises) and the
    language model behind [enrich_entity_data]. *)
Variable scrape_wikipedia : json -> json.
Variable search_wikipedia : json -> json.
Variable scrape_recent_news : json -> json.
Variable CLAUDE_API_KEY : json.
Variable messages_create : json -> res text.

(** Lines 52-78: [inl scraped_data] to go on, [inr r] for [return r]. *)
Definition scrape_step (entity_name : string) : res (json + json) :=
  let scraped_data := scrape_wikipedia (JStr entity_name) in
  has_error <- py_contains scraped_data (JStr "error") ;;
  if has_error then
    _ <- py_getitem scraped_data (JStr "error") ;;
    let search_results := search_wikipedia (JStr entity_name) in
    if truthy search_results then
      _ <- py_len search_results ;;
      first_result <- py_getitem search_results (JNum 0) ;;
      _ <- py_getitem first_result (JStr "title") ;;
      title <- py_getitem first_result (JStr "title") ;;
      let scraped_data2 := scrape_wikipedia title in
      has_error2 <- py_contains scraped_data2 (JStr "error") ;;
      if has_error2 then
        _ <- py_getitem scraped_data2 (JStr "error") ;;
        Ok (inr (not_found entity_name))
      else Ok (inl scraped_data2)
    else Ok (inr (not_found entity_name))
  else Ok (inl scraped_data).

Definition process_entity (entity_name : string) (update_existing : bool) : ST json :=
  let entity_filepath := entity_filepath entity_name in
  existing_data <<- (if update_existing then load_entity_json entity_filepath else ret JNull) ;;
  step <<- lift (scrape_step entity_name) ;;
  match step with
  | inr r => ret r
  | inl scraped_data =>
      let news_data := scrape_recent_news (JStr entity_name) in
      scraped_data <<- lift (if truthy news_data
                             then py_setitem scraped_data "news" news_data
                             else Ok scraped_data) ;;
      let enriched_data :=
        Claude.enrich_entity_data CLAUDE_API_KEY messages_create entity_name scraped_data in
      has_error <<- lift (py_contains enriched_data (JStr "error")) ;;
      if has_error then
        _ <<- lift (py_getitem enriched_data (JStr "error")) ;;
        ret enriched_data
      else
        merged_data <<- lift (if truthy existing_data
                              then JsonUtils.merge_entity_data existing_data enriched_data
                              else Ok enriched_data) ;;
        _ <<- lift (Validate.validate_entity_json merged_data) ;;
        _ <<- save_entity_json merged_data entity_filepath ;;
        ret merged_data
  end.

End Pipeline.

End Main.

(* ------------------------------------------------------------------ *)
(** ** [tools/batch_update.py]: [process_entity_wrapper] and [batch_process]

    Each entity's pipeline run is given by its outcome: the record it
    returned or the exception it raised.  [as_completed] yields the futures
    in an order fixed by the thread pool; the model takes that order as a
    list of positions in [entity_list].  The worker bound [max_workers]
    changes that order and nothing else. *)

Module Batch.

Section Batch.

Variable process_entity : string -> bool -> res json.

(** [(entity_name, success, error)]; [None] is [JNull]. *)
Definition process_entity_wrapper (entity_name : string) (update_existing : bool)
  : string * bool * json :=
  match process_entity entity_name update_existing with
  | Exc e => (entity_name, false, JStr (Claude.exn_str e))
  | Ok result =>
      match py_contains result (JStr "error") with
      | Ok true =>
          match py_getitem result (JStr "error") with
          | Ok err => (entity_name, false, err)
          | Exc e => (entity_name, false, JStr (Claude.exn_str e))
          end
      | Ok false => (entity_name, true, JNull)
      | Exc e => (entity_name, false, JStr (Claude.exn_str e))
      end
  end.

(** The loop over the completed futures. *)
Fixpoint collect (done : list (string * bool * json)) (success_count failure_count : nat)
  (failures : list (string * json)) : nat * nat * list (string * json) :=
  match done with
  | [] => (success_count, failure_count, failures)
  | (entity_name, success, error) :: rest =>
      if success then collect rest (S success_count) failure_count failures
      else collect rest success_count (S failure_count) (failures ++ [(entity_name, error)])
  end.

(** [batch_process(entity_list=..., update_existing=...)], the futures
    completing in the order [completion] (positions in [entity_list]). *)
Definition batch_process (entity_list : list string) (update_existing : bool)
  (completion : list nat) : nat * nat * list (string * json) :=
  match entity_list with
  | [] => (0, 0, [])
  | _ =>
      let results := map (fun e => process_entity_wrapper e update_existing) entity_list in
      let done := map (fun i => nth i results ("", true, JNull)) completion in
      collect done 0 0 []
  end.

End Batch.

(** The entry a wrapper result contributes to [failures]. *)
Definition failed (r : string * bool * json) : list (string * json) :=
  let '(entity_name, success, error) := r in
  if success then [] else [(entity_name, error)].

End Batch.

(** Reference function for the payload extraction. *)
Module FenceSpec.

(** The text of [s] before the first occurrence of [sep], or all of [s]. *)
Fixpoint upto (sep s : text) : text :=
  match s with
  | [] => []
  | c :: s' => if prefixb sep s then [] else c :: upto sep s'
  end.

End FenceSpec.

(* ------------------------------------------------------------------ *)
(** ** [tools/add_entity.py]: [add_entity]

    The script computes the entity's path with the same expression as
    [process_entity] ([Main.entity_filepath]); [os.path.exists] asks the
    store for a record at that path. *)

Module AddEntity.
Import Main.

(** [os.path.exists(filepath)] *)
Definition path_exists (filepath : string) : ST bool :=
  fun st => (Ok (match dget filepath (files st) with Some _ => true | None => false end), st).

Section AddEntity.

Variable scrape_wikipedia : json -> json.
Variable search_wikipedia : json -> json.
Variable scrape_recent_news : json -> json.
Variable CLAUDE_API_KEY : json.
Variable messages_create : json -> res text.

(** [add_entity(entity_name, force)] *)
Definition add_entity (entity_name : string) (force : bool) : ST bool :=
  let entity_filepath := entity_filepath entity_name in
  ex <<- path_exists entity_filepath ;;
  if ex && negb force then ret false
  else
    result <<- process_entity scrape_wikipedia search_wikipedia scrape_recent_news
                 CLAUDE_API_KEY messages_create entity_name force ;;
    has_error <<- lift (py_contains result (JStr "error")) ;;
    if has_error then
      _ <<- lift (py_getitem result (JStr "error")) ;;
      ret false
    else ret true.

End AddEntity.

End AddEntity.

(** Reference predicate for validation: what a record must satisfy for
    [validate_entity_json] to accept it. *)
Module ValidateSpec.

Definition has (k : string) (kvs : list (string * json)) : bool :=
  match dget k kvs with Some _ => true | None => false end.

(** A relationship entry is a dictionary with a ["target"] and a ["type"]
    equal to one of the six relationship types. *)
Definition valid_rel (rel : json) : bool :=
  match rel with
  | JObj kvs =>
      has "target" kvs &&
      match dget "type" kvs with
      | Some t => existsb (py_eq t) (map JStr Validate.valid_types)
      | None => false
      end
  | _ => false
  end.

Definition entity_ok (kvs : list (string * json)) : bool :=
  has "name" kvs && has "type" kvs &&
  match dget "relationships" kvs with
  | None => true
  | Some (JArr rels) => forallb valid_rel rels
  | Some _ => false
  end &&
  match dget "subsidiaries" kvs with
  | None | Some (JArr _) => true
  | Some _ => false
  end.

End ValidateSpec.

(* ------------------------------------------------------------------ *)
(** ** [json.dump(obj, f, indent=2)]

    CPython's encoder with [indent=2]: the item separator is [","], the
    key separator [": "]; a non-empty list or dictionary opens a new line
    indented two spaces deeper for each item and closes on a line at its
    own depth; empty ones are [[]] and [{}].  Strings are written with
    [ensure_ascii]: the quote, the backslash and [\b \f \n \r \t] by their
    short escapes, every other character outside [' '..'~'] as [\u00xx]
    (lower-case hex).  Integers are written by [int.__repr__]. *)

Module Dump.
Import Json.

Definition hex_digit (d : nat) : ascii :=
  if Nat.ltb d 10 then ascii_of_nat (48 + d) else ascii_of_nat (87 + d).

(** [ESCAPE_ASCII.sub(replace, s)], one character. *)
Definition escape_char (c : ascii) : text :=
  let n := nat_of_ascii c in
  if Nat.eqb n 34 then [bs; dq]
  else if Nat.eqb n 92 then [bs; bs]
  else if Nat.eqb n 10 then [bs; "n"%char]
  else if Nat.eqb n 13 then [bs; "r"%char]
  else if Nat.eqb n 9 then [bs; "t"%char]
  else if Nat.eqb n 8 then [bs; "b"%char]
  else if Nat.eqb n 12 then [bs; "f"%char]
  else if Nat.ltb n 32 || Nat.leb 127 n
  then [bs; "u"%char; "0"%char; "0"%char; hex_digit (n / 16); hex_digit (n mod 16)]
  else [c].

(** [encode_basestring_ascii(s)] *)
Definition encode_str (s : string) : text :=
  dq :: flat_map escape_char (T s) ++ [dq].

(** ['\n' + ' ' * indent * level] *)
Definition nl (lvl : nat) : text := ascii_of_nat 10 :: repeat " "%char (2 * lvl).

(** [_iterencode(o, level)], the chunks joined. *)
Fixpoint dump (lvl : nat) (v : json) : text :=
  match v with
  | JNull => T "null"
  | JBool true => T "true"
  | JBool false => T "false"
  | JNum n => T (string_of_Z n)
  | JStr s => encode_str s
  | JArr [] => T "[]"
  | JArr (x :: xs) =>
      "["%char :: nl (S lvl) ++ dump (S lvl) x
      ++ flat_map (fun y => ","%char :: nl (S lvl) ++ dump (S lvl) y) xs
      ++ nl lvl ++ ["]"%char]
  | JObj [] => T "{}"
  | JObj ((k, x) :: kvs) =>
      "{"%char :: nl (S lvl) ++ encode_str k ++ T ": " ++ dump (S lvl) x
      ++ flat_map (fun kv => ","%char :: nl (S lvl) ++ encode_str (fst kv) ++ T ": "
                             ++ dump (S lvl) (snd kv)) kvs
      ++ nl lvl ++ ["}"%char]
  end.

(** [json.dumps(obj, indent=2)] *)
Definition dumps (v : json) : text := dump 0 v.

End Dump.

(** [save_entity_json] and [load_entity_json] over files holding text. *)
Module Disk.

Record disk := mkDisk { contents : list (string * text) }.

Fixpoint tget (k : string) (fs : list (string * text)) : option text :=
  match fs with
  | [] => None
  | (k', t) :: r => if String.eqb k k' then Some t else tget k r
  end.

Fixpoint tset (k : string) (t : text) (fs : list (string * text)) : list (string * text) :=
  match fs with
  | [] => [(k, t)]
  | (k', t') :: r => if String.eqb k k' then (k', t) :: r else (k', t') :: tset k t r
  end.

(** [save_entity_json(entity_data, filepath)]: the file is (re)written with
    [json.dump(entity_data, f, indent=2)]. *)
Definition save_entity_json (entity_data : json) (filepath : string) (d : disk) : bool * disk :=
  (true, mkDisk (tset filepath (Dump.dumps entity_data) (contents d))).

(** [load_entity_json(filepath)]: [None] ([JNull]) for a missing file or
    one [json.load] refuses. *)
Definition load_entity_json (filepath : string) (d : disk) : json :=
  match tget filepath (contents d) with
  | None => JNull
  | Some t => match Json.json_loads t with Ok v => v | Exc _ => JNull end
  end.

End Disk.

(** Values [json.dump] writes and the modelled decoder reads back: text
    below 128 (the decoder refuses [\u] escapes above 127) and, in every
    dictionary, distinct keys (as a Python [dict] has). *)
Module DumpSpec.

Definition ascii_str (s : string) : bool :=
  forallb (fun c => Nat.ltb (nat_of_ascii c) 128) (T s).

Fixpoint distinct (ks : list string) : bool :=
  match ks with
  | [] => true
  | k :: r => negb (existsb (String.eqb k) r) && distinct r
  end.

Fixpoint wf (v : json) : bool :=
  match v with
  | JStr s => ascii_str s
  | JArr xs => forallb wf xs
  | JObj kvs => distinct (map fst kvs) && forallb (fun kv => ascii_str (fst kv) && wf (snd kv)) kvs
  | _ => true
  end.

Fixpoint jsize (v : json) : nat :=
  match v with
  | JArr xs => S (list_sum (map (fun x => S (jsize x)) xs))
  | JObj kvs => S (list_sum (map (fun kv => S (jsize (snd kv))) kvs))
  | _ => 1
  end.

(** The step of [Json.digits_value]. *)
Definition dstep (acc : Z) (d : ascii) : Z := (acc * 10 + Z.of_nat (nat_of_ascii d - 48))%Z.

(** What follows a number in the text cannot continue it. *)
Definition num_stop (rest : text) : Prop :=
  match rest with
  | [] => True
  | c :: _ => Json.is_digit c = false /\ Ascii.eqb c "." = false /\
              Ascii.eqb c "e" = false /\ Ascii.eqb c "E" = false
  end.

(** A character on which the decoder reads a number: neither whitespace
    nor the start of a string, list, dictionary or literal. *)
Definition plain (c : ascii) : bool :=
  negb (Json.is_json_ws c) && negb (Ascii.eqb c Json.dq) && negb (Ascii.eqb c "[") &&
  negb (Ascii.eqb c "{") && negb (Ascii.eqb "n" c) && negb (Ascii.eqb "t" c) &&
  negb (Ascii.eqb "f" c).

End DumpSpec.

(** Reference predicate for the brace and bracket matching of the payload
    extraction: a text whose [o] and [c] are balanced (never more closing
    than opening ones in a prefix, as many of each in all). *)
Module BraceSpec.

Fixpoint bal (o c : ascii) (depth : nat) (s : text) : bool :=
  match s with
  | [] => Nat.eqb depth 0
  | x :: s' =>
      if Ascii.eqb x o then bal o c (S depth) s'
      else if Ascii.eqb x c then
        match depth with O => false | S d => bal o c d s' end
      else bal o c depth s'
  end.

Definition balanced (s : text) : bool := bal "{" "}" 0 s.
Definition balanced_list (s : text) : bool := bal "[" "]" 0 s.

End BraceSpec.

(* ------------------------------------------------------------------ *)
(** ** [enrichment/claude.py]: [infer_relationships]; [utils/json_utils.py]:
    [load_all_entities]; [main.py]: [infer_entity_relationships] *)

Module Infer.
Import Main.

(** Lines 235-243: the bracket count from [start_idx] on. *)
Fixpoint match_bracket (s : text) (bracket_count : Z) (i : nat) : option nat :=
  match s with
  | [] => None
  | c :: s' =>
      if Ascii.eqb c "[" then match_bracket s' (bracket_count + 1)%Z (S i)
      else if Ascii.eqb c "]" then
        if Z.eqb (bracket_count - 1) 0 then Some (S i)
        else match_bracket s' (bracket_count - 1)%Z (S i)
      else match_bracket s' bracket_count (S i)
  end.

(** Lines 224-250: the candidate text ([json_text]) chosen from the
    response; as in [enrich_entity_data], with [[] in place of [{]. *)
Definition json_text_of_list (response_text : text) : res text :=
  if contains Claude.fence_json response_text then
    p1 <- Claude.nth_piece (Claude.py_split response_text Claude.fence_json) 1 ;;
    p2 <- Claude.nth_piece (Claude.py_split p1 Claude.fence) 0 ;;
    Ok (Claude.py_strip p2)
  else if contains Claude.fence response_text then
    p1 <- Claude.nth_piece (Claude.py_split response_text Claude.fence) 1 ;;
    Ok (Claude.py_strip p1)
  else if contains (T "[") response_text then
    let start_idx := Claude.find (T "[") response_text in
    match match_bracket (skipn start_idx response_text) 0 start_idx with
    | Some end_idx =>
        if Nat.ltb start_idx end_idx
        then Ok (Claude.py_strip (firstn (end_idx - start_idx) (skipn start_idx response_text)))
        else Ok (Claude.py_strip response_text)
    | None => Ok (Claude.py_strip response_text)
    end
  else Ok (Claude.py_strip response_text).

(** What the prompt is built from: [json.dumps(entities, indent=2)]. *)
Definition relationships_prompt (entities : json) : json :=
  JObj [("entities_json", JStr (string_of_list_ascii (Dump.dumps entities)))].

(** [os.path.join(directory, filename)] for a file name without [/]. *)
Definition path_join (directory filename : string) : string :=
  if String.eqb directory "" then filename
  else if Ascii.eqb (last (T directory) " "%char) "/" then directory +s+ filename
  else directory +s+ "/" +s+ filename.

(** The part of [s] after the prefix [p], if [s] starts with [p]. *)
Fixpoint strip_prefix (p s : text) : option text :=
  match p, s with
  | [], _ => Some s
  | a :: p', b :: s' => if Ascii.eqb a b then strip_prefix p' s' else None
  | _ :: _, [] => None
  end.

(** The file names directly in [directory]: the store knows a directory
    by the files it holds, so [os.path.exists(directory)] is the
    existence of such a file (an empty directory lists nothing either
    way). *)
Definition listdir (directory : string) (st : store) : list string :=
  if String.eqb directory "" then []
  else
    flat_map (fun path =>
                match strip_prefix (T (path_join directory "")) (T path) with
                | Some f => if negb (existsb (Ascii.eqb "/") f) && negb (Nat.eqb (length f) 0)
                            then [string_of_list_ascii f] else []
                | None => []
                end)
             (dkeys (files st)).

Definition dir_exists (directory : string) (st : store) : bool :=
  negb (Nat.eqb (length (listdir directory st)) 0).

(** [s.endswith(suf)] *)
Definition ends_with (suf s : text) : bool := prefixb (rev suf) (rev s).

(** Lines 92-96: the loop over the JSON files. *)
Fixpoint load_each (directory : string) (json_files : list string) (entities : list json)
  : ST (list json) :=
  match json_files with
  | [] => ret entities
  | filename :: rest =>
      entity_data <<- load_entity_json (path_join directory filename) ;;
      load_each directory rest
        (if truthy entity_data then entities ++ [entity_data] else entities)
  end.

Definition load_all_entities (directory : string) : ST (list json) :=
  fun st =>
    if negb (dir_exists directory st) then (Ok [], st)
    else
      let json_files := filter (fun f => ends_with (T ".json") (T f)) (listdir directory st) in
      load_each directory json_files [] st.

(** [entity_name.lower()]: only a string has it. *)
Definition name_str (entity_name : json) : res string :=
  match entity_name with
  | JStr s => Ok s
  | v => Exc (AttributeError ("'" +s+ type_name v +s+ "' object has no attribute 'lower'"))
  end.

Section Infer.

Variable CLAUDE_API_KEY : json.
Variable messages_create : json -> res text.

(** [infer_relationships(entities)]: every exception inside the [try]
    is caught and gives back [entities]. *)
Definition infer_relationships (entities : json) : json :=
  if negb (truthy CLAUDE_API_KEY) then entities
  else
    match (response_text <- messages_create (relationships_prompt entities) ;;
           json_text <- json_text_of_list response_text ;;
           Json.json_loads json_text) with
    | Ok updated_entities => updated_entities
    | Exc _ => entities
    end.

(** Lines 139-148: the loop saving the updated entities. *)
Fixpoint save_each (directory : string) (updated_entities : list json) : ST unit :=
  match updated_entities with
  | [] => ret tt
  | entity :: rest =>
      entity_name <<- lift (Claude.py_dict_get entity "name" JNull) ;;
      if negb (truthy entity_name) then save_each directory rest
      else
        name <<- lift (name_str entity_name) ;;
        let entity_filepath := directory +s+ "/" +s+ entity_filename name +s+ ".json" in
        _ <<- save_entity_json entity entity_filepath ;;
        save_each directory rest
  end.

Definition infer_entity_relationships (directory : string) : ST bool :=
  entities <<- load_all_entities directory ;;
  match entities with
  | [] => ret false
  | _ =>
      let updated_entities := infer_relationships (JArr entities) in
      items <<- lift (py_iter updated_entities) ;;
      _ <<- save_each directory items ;;
      _ <<- lift (py_len updated_entities) ;;
      ret true
  end.

End Infer.

End Infer.

(* ------------------------------------------------------------------ *)
(** ** [tools/batch_update.py]: [batch_process] from its arguments, and [main]

    Reading the CSV file (lines 61-75: [csv.Sniffer], the header skip,
    the stripped first cells) is given by its outcome: the entity names
    read, or the exception raised.  A report row is the list of values
    [csv.writer.writerow] receives. *)

Module BatchMain.

Section BatchMain.

Variable process_entity : string -> bool -> res json.
Variable read_csv : string -> res (list string).
(** [open(args.output, 'w')] succeeds. *)
Variable writable : string -> bool.

(** The parsed command line. *)
Record args := mkArgs {
  file : option string;
  entities : option (list string);
  no_update : bool;
  workers : nat;
  output : option string
}.

Definition given_str (a : option string) : bool :=
  match a with Some s => negb (String.eqb s "") | None => false end.

Definition given_list (a : option (list string)) : bool :=
  match a with Some (_ :: _) => true | _ => false end.

(** [batch_process(input_file, entity_list, update_existing, max_workers)],
    the futures completing in the order [completion]. *)
Definition batch_process_from (input_file : option string) (entity_list : option (list string))
  (update_existing : bool) (completion : list nat) : nat * nat * list (string * json) :=
  let from_list :=
    match entity_list with
    | Some ((_ :: _) as es) => Batch.batch_process process_entity es update_existing completion
    | _ => (0, 0, [])
    end in
  match input_file with
  | Some f =>
      if negb (String.eqb f "") then
        match read_csv f with
        | Ok es => Batch.batch_process process_entity es update_existing completion
        | Exc _ => (0, 0, [])
        end
      else from_list
  | None => from_list
  end.

(** The [success] flag [process_entity_wrapper] reports for an entity. *)
Definition succeeded (update_existing : bool) (entity : string) : bool :=
  snd (fst (Batch.process_entity_wrapper process_entity entity update_existing)).

Definition header_row : list json := [JStr "Entity"; JStr "Status"; JStr "Error"].
Definition success_row (entity : string) : list json := [JStr entity; JStr "Success"; JStr ""].
Definition failure_row (f : string * json) : list json := [JStr (fst f); JStr "Failure"; snd f].

(** Lines 141-152: the rows written to the output file. *)
Definition report_rows (entities_arg : option (list string)) (failures : list (string * json))
  : list (list json) :=
  header_row ::
  map success_row
    (filter (fun entity => negb (existsb (String.eqb entity) (map fst failures)))
            (match entities_arg with Some es => es | None => [] end)) ++
  map failure_row failures.

(** [main()]: the exit code, and the output file with its rows when one
    is written.  [parser.error] exits with status 2. *)
Definition main (a : args) (completion : list nat) : nat * option (string * list (list json)) :=
  if negb (given_str (file a)) && negb (given_list (entities a)) then (2, None)
  else
    let '(success_count, failure_count, failures) :=
      batch_process_from (file a) (entities a) (negb (no_update a)) completion in
    let written :=
      match output a with
      | Some o =>
          if negb (String.eqb o "") && (Nat.ltb 0 success_count || Nat.ltb 0 failure_count)
             && writable o
          then Some (o, report_rows (entities a) failures)
          else None
      | None => None
      end in
    (if Nat.eqb failure_count 0 then 0 else 1, written).

End BatchMain.

End BatchMain.

(** Reference notions for the properties of [Infer]. *)
Module InferSpec.
Import Main Infer.

(** What [load_entity_json] gives for a path. *)
Definition stored (p : string) (st : store) : json :=
  match dget p (files st) with Some v => v | None => JNull end.

(** The names [load_all_entities] loads from. *)
Definition json_files (d : string) (st : store) : list string :=
  filter (fun f => ends_with (T ".json") (T f)) (listdir d st).

(** The files after a sequence of writes. *)
Definition apply_writes (ws : list (string * json)) (fs : list (string * json)) :=
  fold_left (fun fs w => dset (fst w) (snd w) fs) ws fs.

(** A write of an entity with a non-empty string name, at the path
    [infer_entity_relationships] derives from that name. *)
Definition named_path (d : string) (w : string * json) : Prop :=
  exists s, Claude.py_dict_get (snd w) "name" JNull = Ok (JStr s) /\ s <> "" /\
            fst w = d +s+ "/" +s+ entity_filename s +s+ ".json".

End InferSpec.

(* ================================================================== *)
(** * Properties *)

(** ** Python operations on dictionaries *)

Lemma py_contains_obj (kvs : list (string * json)) (k : string) :
  py_contains (JObj kvs) (JStr k) = Ok (match dget k kvs with Some _ => true | None => false end).
Proof. reflexivity. Qed.

Lemma py_getitem_obj (kvs : list (string * json)) (k : string) :
  py_getitem (JObj kvs) (JStr k) =
  match dget k kvs with Some v => Ok v | None => Exc (KeyError (JStr k)) end.
Proof. reflexivity. Qed.

Lemma py_eq_str_r (t : json) (s : string) : py_eq t (JStr s) = true -> t = JStr s.
Proof.
  destruct t; simpl; try discriminate.
  intros H. apply String.eqb_eq in H. now subst.
Qed.

(** ** Validation *)

Module ValidateProofs.
Import Validate.

Ltac rels_step IH :=
  match goal with
  | |- exists extra, check_rels ?j ?r ?e = Ok (?errs ++ extra) =>
      destruct (IH j e) as [?extra ->]; eexists;
      repeat rewrite <- app_assoc; reflexivity
  end.

Lemma check_rels_ok (rels : list json) :
  forall i errors, exists extra, check_rels i rels errors = Ok (errors ++ extra).
Proof.
  induction rels as [|rel rs IH]; intros i errors; cbn [check_rels].
  - exists []. now rewrite app_nil_r.
  - destruct rel as [|b|n|s|xs|kvs]; cbn [is_dict negb]; try rels_step IH.
    rewrite !py_contains_obj, ?py_getitem_obj.
    destruct (dget "target" kvs), (dget "type" kvs);
      try (destruct (existsb _ _)); rels_step IH.
Qed.

Lemma check_rels_reports (rels : list json) :
  forall i j errors rel t,
    nth_error rels j = Some (JObj rel) ->
    dget "type" rel = Some t ->
    existsb (py_eq t) (map JStr valid_types) = false ->
    exists errs, check_rels i rels errors = Ok errs /\
      In ("Relationship at index " +s+ string_of_nat (i + j) +s+ " has invalid type: "
          +s+ py_str t) errs.
Proof.
  induction rels as [|rel0 rs IH]; intros i j errors rel t Hj Ht Hinv.
  - destruct j; discriminate.
  - destruct j as [|j].
    + simpl in Hj. injection Hj as ->. cbn [check_rels is_dict negb].
      rewrite !py_contains_obj, Ht, py_getitem_obj, Ht, Hinv.
      rewrite Nat.add_0_r.
      destruct (dget "target" rel);
        match goal with
        | |- exists errs, check_rels ?k ?r ?e = Ok errs /\ _ =>
            destruct (check_rels_ok r k e) as [extra ->]; eexists; split; [reflexivity|]
        end;
        rewrite !in_app_iff; simpl; tauto.
    + simpl in Hj.
      replace (i + S j) with (S i + j) by lia.
      destruct rel0 as [|b|n|s|xs|kvs]; cbn [check_rels is_dict negb];
        try (rewrite !py_contains_obj, ?py_getitem_obj;
             destruct (dget "target" kvs), (dget "type" kvs);
             try (match goal with
                  | |- context [if existsb ?f ?l then _ else _] => destruct (existsb f l)
                  end); cbn beta iota);
        match goal with
        | |- exists errs, check_rels ?k _ ?e = Ok errs /\ _ =>
            exact (IH k j e rel t Hj Ht Hinv)
        end.
Qed.

Lemma not_valid_type (t : json) :
  ~ In t (map JStr valid_types) -> existsb (py_eq t) (map JStr valid_types) = false.
Proof.
  intros H. apply Bool.not_true_iff_false. intros E.
  apply existsb_exists in E as [x [Hx Ex]].
  apply in_map_iff in Hx as [s [<- Hs]].
  apply py_eq_str_r in Ex. subst. apply H, in_map, Hs.
Qed.

Lemma check_required_obj (fields : list string) :
  forall kvs errors, exists errs, check_required fields (JObj kvs) errors = Ok errs.
Proof.
  induction fields as [|f fs IH]; intros kvs errors; cbn [check_required].
  - now exists errors.
  - rewrite py_contains_obj. apply IH.
Qed.

End ValidateProofs.

(** ** C7 *)

(** Claim C7: when the relationships list of a record holds, at index
    [i], an object whose ["type"] is not one of the six relationship types,
    [validate_entity_json] returns [is_valid = False] and its errors include
    the message naming index [i] and that type value. *)
Theorem validate_flags_invalid_relationship_type
  (kvs : list (string * json)) (rels : list json) (i : nat)
  (rel : list (string * json)) (t : json) :
  dget "relationships" kvs = Some (JArr rels) ->
  nth_error rels i = Some (JObj rel) ->
  dget "type" rel = Some t ->
  ~ In t (map JStr Validate.valid_types) ->
  exists errors,
    Validate.validate_entity_json (JObj kvs) = Ok (false, errors) /\
    In ("Relationship at index " +s+ string_of_nat i +s+ " has invalid type: "
        +s+ py_str t) errors.
Proof.
  intros Hrels Hi Ht Hinv.
  apply ValidateProofs.not_valid_type in Hinv.
  unfold Validate.validate_entity_json.
  destruct (ValidateProofs.check_required_obj Validate.required_fields kvs []) as [e0 ->].
  rewrite !py_contains_obj, !py_getitem_obj, Hrels. cbn beta iota.
  destruct (dget "subsidiaries" kvs); cbn beta iota;
    match goal with
    | |- exists errors, (e <- Validate.check_rels 0 rels ?E ;; _) = _ /\ _ =>
        destruct (ValidateProofs.check_rels_reports rels 0 i E rel t Hi Ht Hinv)
          as [errs [-> Hin]]
    end;
    exists errs; split; try exact Hin;
    destruct errs; try contradiction; reflexivity.
Qed.

(** The example of the specification: validating
    [{name: "Acme", type: "Vendor", relationships: [{target: "X", type: "ally"}]}]. *)
Lemma validate_flags_invalid_relationship_type_witness :
  exists errors,
    Validate.validate_entity_json
      (JObj [("name", JStr "Acme"); ("type", JStr "Vendor");
             ("relationships", JArr [JObj [("target", JStr "X"); ("type", JStr "ally")]])])
    = Ok (false, errors) /\
    In "Relationship at index 0 has invalid type: ally" errors.
Proof.
  apply (validate_flags_invalid_relationship_type _
           [JObj [("target", JStr "X"); ("type", JStr "ally")]] 0
           [("target", JStr "X"); ("type", JStr "ally")] (JStr "ally")).
  - reflexivity.
  - reflexivity.
  - reflexivity.
  - simpl. intros H. repeat (destruct H as [H|H]; [discriminate|]). exact H.
Defined.

(** ** The single-entity pipeline *)

Module MainProofs.
Import Main.

Lemma scrape_step_return scrape search (name : string) (r : json) :
  scrape_step scrape search name = Ok (inr r) -> r = not_found name.
Proof.
  unfold scrape_step.
  repeat match goal with
         | |- context [match ?x with Ok _ => _ | Exc _ => _ end] => destruct x
         | |- context [if ?b then _ else _] => destruct b
         end; congruence.
Qed.

Lemma not_found_has_error (name : string) :
  py_contains (not_found name) (JStr "error") = Ok true.
Proof. reflexivity. Qed.

(** Loading leaves the store as it is. *)
Lemma existing_step (path : string) (update : bool) (st : store) :
  exists v, (if update then load_entity_json path else ret JNull) st = (Ok v, st).
Proof. destruct update; eexists; reflexivity. Qed.

End MainProofs.

(** ** C5 *)

(** Claim C5: for every entity name, when the Wikipedia scrape reports an
    error and the search returns no candidates, [process_entity] returns
    the record [{"error": "Could not find Wikipedia data for <name>",
    "entity_name": <name>}] and leaves the store untouched (no write); and
    every run that returns a record without an ["error"] field (a
    successful run) performs exactly one write, of that record at the
    entity's path. *)
Theorem process_entity_abort_no_write_success_one_write
  (scrape_wikipedia search_wikipedia scrape_recent_news : json -> json)
  (CLAUDE_API_KEY : json) (messages_create : json -> res text)
  (entity_name : string) (update_existing : bool) (st : Main.store) :
  (forall kvs,
     scrape_wikipedia (JStr entity_name) = JObj kvs ->
     dget "error" kvs <> None ->
     search_wikipedia (JStr entity_name) = JArr [] ->
     Main.process_entity scrape_wikipedia search_wikipedia scrape_recent_news
       CLAUDE_API_KEY messages_create entity_name update_existing st
     = (Ok (Main.not_found entity_name), st)) /\
  (forall r st',
     Main.process_entity scrape_wikipedia search_wikipedia scrape_recent_news
       CLAUDE_API_KEY messages_create entity_name update_existing st = (Ok r, st') ->
     py_contains r (JStr "error") = Ok false ->
     Main.writes st' = Main.writes st ++ [(Main.entity_filepath entity_name, r)]).
Proof.
  split.
  - intros kvs Hs He Hq.
    unfold Main.process_entity, Main.bind.
    destruct (MainProofs.existing_step (Main.entity_filepath entity_name) update_existing st)
      as [v ->].
    unfold Main.lift, Main.ret.
    unfold Main.scrape_step. rewrite Hs, py_contains_obj, py_getitem_obj.
    destruct (dget "error" kvs); [|contradiction].
    rewrite Hq. reflexivity.
  - intros r st' Hrun Hok.
    unfold Main.process_entity, Main.bind in Hrun.
    destruct (MainProofs.existing_step (Main.entity_filepath entity_name) update_existing st)
      as [v Hv]. rewrite Hv in Hrun. unfold Main.lift, Main.ret in Hrun.
    destruct (Main.scrape_step scrape_wikipedia search_wikipedia entity_name)
      as [[sd|r0]|e] eqn:Hstep; [|injection Hrun as <- <-|discriminate].
    2: { apply MainProofs.scrape_step_return in Hstep. subst.
         rewrite MainProofs.not_found_has_error in Hok. discriminate. }
    destruct (if truthy _ then _ else _) as [sd'|e]; [|discriminate].
    destruct (py_contains _ (JStr "error")) as [[|]|e] eqn:Herr; try discriminate.
    + destruct (py_getitem _ (JStr "error")); [|discriminate].
      injection Hrun as <- <-. rewrite Herr in Hok. discriminate.
    + destruct (if truthy v then _ else _) as [merged|e]; [|discriminate].
      destruct (Validate.validate_entity_json merged); [|discriminate].
      unfold Main.save_entity_json in Hrun. injection Hrun as <- <-. reflexivity.
Qed.

(** The two parts on a store holding no record, the scrape failing, the
    search finding nothing (first part) and, in the second part, a scrape
    that succeeds and a model answer the extractor parses. *)
Lemma process_entity_abort_no_write_success_one_write_witness :
  let fail_scrape := fun _ : json => JObj [("error", JStr "404")] in
  let no_search := fun _ : json => JArr [] in
  let no_news := fun _ : json => JArr [] in
  let ok_scrape := fun _ : json => JObj [("summary", JStr "A payer")] in
  let answer := fun _ : json => Ok (qtext "{'name': 'Acme', 'type': 'Payer'}") in
  let st := Main.mkStore [] [] in
  Main.process_entity fail_scrape no_search no_news (JStr "key") answer "Acme" true st
    = (Ok (Main.not_found "Acme"), st) /\
  Main.writes (snd (Main.process_entity ok_scrape no_search no_news (JStr "key") answer
                      "Acme" true st))
    = [(Main.entity_filepath "Acme",
        JObj [("name", JStr "Acme"); ("type", JStr "Payer");
              ("subsidiaries", JArr []); ("relationships", JArr [])])].
Proof.
  intros fail_scrape no_search no_news ok_scrape answer st.
  split.
  - apply (proj1 (process_entity_abort_no_write_success_one_write
                    fail_scrape no_search no_news (JStr "key") answer "Acme" true st)
             [("error", JStr "404")]); [reflexivity | discriminate | reflexivity].
  - apply (proj2 (process_entity_abort_no_write_success_one_write
                    ok_scrape no_search no_news (JStr "key") answer "Acme" true st)
             (JObj [("name", JStr "Acme"); ("type", JStr "Payer");
                    ("subsidiaries", JArr []); ("relationships", JArr [])])).
    + vm_compute. reflexivity.
    + reflexivity.
Defined.

(** ** The batch driver *)

Module BatchProofs.
Import Batch.

Lemma collect_spec (done : list (string * bool * json)) :
  forall success_count failure_count failures,
  let '(sc, fc, fs) := collect done success_count failure_count failures in
  sc + fc = success_count + failure_count + length done /\
  fc = failure_count + length (flat_map failed done) /\
  fs = failures ++ flat_map failed done.
Proof.
  induction done as [|[[n s] e] rest IH]; intros sc0 fc0 fs0; simpl.
  - rewrite app_nil_r. repeat split; lia.
  - destruct s; simpl.
    + specialize (IH (S sc0) fc0 fs0).
      destruct (collect rest (S sc0) fc0 fs0) as [[sc fc] fs].
      destruct IH as (H1 & H2 & H3). repeat split; [lia | exact H2 | exact H3].
    + specialize (IH sc0 (S fc0) (fs0 ++ [(n, e)])).
      destruct (collect rest sc0 (S fc0) (fs0 ++ [(n, e)])) as [[sc fc] fs].
      destruct IH as (H1 & H2 & H3). repeat split; [lia | lia |].
      rewrite H3, <- app_assoc. reflexivity.
Qed.

Lemma map_nth_seq {A} (d : A) (l pre : list A) :
  map (fun i => nth i (pre ++ l) d) (seq (length pre) (length l)) = l.
Proof.
  revert pre. induction l as [|a l IH]; intros pre; simpl; [reflexivity|].
  rewrite nth_middle. f_equal.
  replace (S (length pre)) with (length (pre ++ [a]))
    by (rewrite length_app; simpl; lia).
  specialize (IH (pre ++ [a])). rewrite <- app_assoc in IH. exact IH.
Qed.

Lemma completion_perm {A} (d : A) (l : list A) (completion : list nat) :
  Permutation completion (seq 0 (length l)) ->
  Permutation (map (fun i => nth i l d) completion) l.
Proof.
  intros Hp.
  pose proof (map_nth_seq d l []) as Hid. simpl in Hid.
  eapply Permutation_trans; [apply Permutation_map; exact Hp|].
  rewrite Hid. apply Permutation_refl.
Qed.

End BatchProofs.

(** ** C6 *)

(** Claim C6: for every non-empty list of entity names and every order in
    which their runs complete, [batch_process] counts each entity exactly
    once ([success_count + failure_count] is the number of names), has one
    [failures] entry per failure, and its [failures] are, up to the
    completion order, the entries each entity's own run produces; a run
    that raises contributes exactly [(name, str(e))] and a run returning a
    record with an ["error"] field contributes exactly [(name, error)]. *)
Theorem batch_process_isolates_failures
  (process_entity : string -> bool -> res json) (entity_list : list string)
  (update_existing : bool) (completion : list nat)
  (Hne : entity_list <> [])
  (Hcompletion : Permutation completion (seq 0 (length entity_list))) :
  (let '(success_count, failure_count, failures) :=
     Batch.batch_process process_entity entity_list update_existing completion in
   success_count + failure_count = length entity_list /\
   failure_count = length failures /\
   Permutation failures
     (flat_map Batch.failed
        (map (fun e => Batch.process_entity_wrapper process_entity e update_existing)
           entity_list))) /\
  (forall entity_name e,
     process_entity entity_name update_existing = Exc e ->
     Batch.failed (Batch.process_entity_wrapper process_entity entity_name update_existing)
     = [(entity_name, JStr (Claude.exn_str e))]) /\
  (forall entity_name kvs error,
     process_entity entity_name update_existing = Ok (JObj kvs) ->
     dget "error" kvs = Some error ->
     Batch.failed (Batch.process_entity_wrapper process_entity entity_name update_existing)
     = [(entity_name, error)]).
Proof.
  split; [|split].
  - unfold Batch.batch_process.
    destruct entity_list as [|x xs] eqn:Hl; [contradiction|]. rewrite <- Hl in *.
    set (results := map (fun e => Batch.process_entity_wrapper process_entity e update_existing)
                        entity_list).
    assert (Hp : Permutation (map (fun i => nth i results ("", true, JNull)) completion) results).
    { apply BatchProofs.completion_perm. subst results. rewrite length_map. exact Hcompletion. }
    pose proof (BatchProofs.collect_spec
                  (map (fun i => nth i results ("", true, JNull)) completion) 0 0 []) as Hc.
    destruct (Batch.collect _ 0 0 []) as [[sc fc] fs].
    destruct Hc as (H1 & H2 & H3). simpl in H2, H3. subst fs.
    pose proof (Permutation_length Hp) as Hlen.
    assert (Hlr : length results = length entity_list) by (subst results; apply length_map).
    pose proof (Permutation_flat_map Batch.failed Hp) as Hfm.
    split; [lia|]. split; [exact H2 | exact Hfm].
  - intros entity_name e He. unfold Batch.process_entity_wrapper. rewrite He. reflexivity.
  - intros entity_name kvs error Hr Herr. unfold Batch.process_entity_wrapper.
    rewrite Hr, py_contains_obj, py_getitem_obj, Herr. reflexivity.
Qed.

(** Five names whose runs complete out of order; the third aborts.  The
    batch reports four successes and one failure naming it. *)
Lemma batch_process_isolates_failures_witness :
  let run := fun (name : string) (_ : bool) =>
    if String.eqb name "C" then Ok (Main.not_found "C") else Ok (JObj [("name", JStr name)]) in
  let names := ["A"; "B"; "C"; "D"; "E"] in
  Batch.batch_process run names true [1; 0; 4; 2; 3]
  = (4, 1, [("C", JStr "Could not find Wikipedia data for C")]) /\
  (let '(success_count, failure_count, failures) := Batch.batch_process run names true [1; 0; 4; 2; 3] in
   success_count + failure_count = length names /\
   failure_count = length failures /\
   Permutation failures
     (flat_map Batch.failed (map (fun e => Batch.process_entity_wrapper run e true) names))).
Proof.
  intros run names. split; [reflexivity|].
  apply (batch_process_isolates_failures run names true [1; 0; 4; 2; 3]).
  - discriminate.
  - apply (perm_trans (perm_swap 0 1 [4; 2; 3])). simpl.
    apply perm_skip, perm_skip.
    exact (Permutation_middle [2; 3] [] 4).
Defined.

(** ** [merge_entity_data]: the shape of the result *)

Module MergeProofs.
Import JsonUtils MergeSpec.

Lemma dget_dset_eq (k : string) (v : json) (m : list (string * json)) :
  dget k (dset k v m) = Some v.
Proof.
  induction m as [|[k' v'] m IH]; simpl; [now rewrite String.eqb_refl|].
  destruct (String.eqb k k') eqn:E; simpl; rewrite E; auto.
Qed.

Lemma dget_dset_neq (k k' : string) (v : json) (m : list (string * json)) :
  k <> k' -> dget k (dset k' v m) = dget k m.
Proof.
  intros Hne. induction m as [|[k'' v'] m IH]; simpl.
  - apply String.eqb_neq in Hne. now rewrite Hne.
  - destruct (String.eqb k' k'') eqn:E1; simpl.
    + apply String.eqb_eq in E1. subst k''.
      apply String.eqb_neq in Hne. now rewrite Hne.
    + destruct (String.eqb k k''); [reflexivity | exact IH].
Qed.

Lemma update_fields_spec (fs : list string) (n : list (string * json)) :
  forall m, exists m',
    update_fields fs (JObj n) (JObj m) = Ok (JObj m') /\
    forall k, dget k m' = upd fs n m k.
Proof.
  unfold upd.
  induction fs as [|f fs IH]; intros m; cbn [update_fields existsb].
  - exists m. split; [reflexivity | intros k; reflexivity].
  - rewrite py_contains_obj, py_getitem_obj.
    assert (Hcase : forall m1, (forall k, k <> f -> dget k m1 = dget k m) ->
              (dget f m1 = match dget f n with
                           | Some v => if truthy v then Some v else dget f m
                           | None => dget f m end) ->
              exists m', update_fields fs (JObj n) (JObj m1) = Ok (JObj m') /\
                forall k, dget k m' =
                  (if String.eqb k f || existsb (String.eqb k) fs then
                     match dget k n with
                     | Some v => if truthy v then Some v else dget k m
                     | None => dget k m end
                   else dget k m)).
    { intros m1 Hne Heq. destruct (IH m1) as [m' [Hrun Hk]].
      exists m'. split; [exact Hrun|]. intros k. rewrite Hk.
      destruct (String.eqb_spec k f) as [->|Hkf]; simpl.
      - rewrite Heq. destruct (existsb _ fs), (dget f n) as [v|]; try reflexivity;
          destruct (truthy v); reflexivity.
      - rewrite !Hne by exact Hkf. reflexivity. }
    destruct (dget f n) as [v|] eqn:Hf.
    + destruct (truthy v) eqn:Hv.
      * apply Hcase.
        -- intros k Hk. apply dget_dset_neq. exact Hk.
        -- apply dget_dset_eq.
      * apply Hcase; reflexivity.
    + apply Hcase; reflexivity.
Qed.

Lemma add_subsidiaries_keeps (subs : list json) :
  forall m M, add_subsidiaries subs (JObj m) = Ok M ->
  exists m', M = JObj m' /\ forall k, k <> "subsidiaries" -> dget k m' = dget k m.
Proof.
  induction subs as [|s subs IH]; intros m M H; cbn [add_subsidiaries] in H.
  - injection H as <-. eauto.
  - rewrite py_getitem_obj in H.
    destruct (dget "subsidiaries" m) as [cur|]; [|discriminate].
    destruct (py_contains cur s) as [[|]|]; [| |discriminate].
    + apply IH in H. exact H.
    + destruct (py_append cur s) as [l|]; [|discriminate]. simpl in H.
      apply IH in H as [m' [-> Hk]]. exists m'. split; [reflexivity|].
      intros k Hne. rewrite Hk by exact Hne. apply dget_dset_neq. exact Hne.
Qed.

Lemma merge_subsidiaries_keeps (new_data : json) (m : list (string * json)) (M : json) :
  merge_subsidiaries new_data (JObj m) = Ok M ->
  exists m', M = JObj m' /\ forall k, k <> "subsidiaries" -> dget k m' = dget k m.
Proof.
  unfold merge_subsidiaries. intros H.
  destruct (py_contains new_data (JStr "subsidiaries")) as [[|]|]; [| |discriminate].
  2: { injection H as <-. eauto. }
  destruct (py_getitem new_data (JStr "subsidiaries")) as [v|]; [|discriminate].
  destruct (truthy v); [|injection H as <-; eauto].
  rewrite py_contains_obj in H.
  destruct (py_iter v) as [subs|]; [|destruct (dget "subsidiaries" m); discriminate].
  destruct (dget "subsidiaries" m).
  - apply add_subsidiaries_keeps in H. exact H.
  - simpl in H. apply add_subsidiaries_keeps in H as [m' [-> Hk]].
    exists m'. split; [reflexivity|]. intros k Hne.
    rewrite Hk by exact Hne. apply dget_dset_neq. exact Hne.
Qed.

Lemma add_relationships_keeps (rels : list json) :
  forall keys m M, add_relationships rels keys (JObj m) = Ok M ->
  exists m', M = JObj m' /\ forall k, k <> "relationships" -> dget k m' = dget k m.
Proof.
  induction rels as [|r rels IH]; intros keys m M H; cbn [add_relationships] in H.
  - injection H as <-. eauto.
  - destruct (new_rel_key r keys) as [[key|]|]; [| |discriminate].
    + rewrite py_getitem_obj in H.
      destruct (dget "relationships" m) as [cur|]; [|discriminate].
      destruct (py_append cur r) as [l|]; [|discriminate]. simpl in H.
      apply IH in H as [m' [-> Hk]]. exists m'. split; [reflexivity|].
      intros k Hne. rewrite Hk by exact Hne. apply dget_dset_neq. exact Hne.
    + apply IH in H. exact H.
Qed.

Lemma merge_relationships_keeps (new_data : json) (m : list (string * json)) (M : json) :
  merge_relationships new_data (JObj m) = Ok M ->
  exists m', M = JObj m' /\ forall k, k <> "relationships" -> dget k m' = dget k m.
Proof.
  unfold merge_relationships. intros H.
  destruct (py_contains new_data (JStr "relationships")) as [[|]|]; [| |discriminate].
  2: { injection H as <-. eauto. }
  destruct (py_getitem new_data (JStr "relationships")) as [v|]; [|discriminate].
  destruct (truthy v); [|injection H as <-; eauto].
  rewrite py_contains_obj in H.
  destruct (dget "relationships" m) eqn:Hr; cbn [py_setitem] in H.
  - rewrite py_getitem_obj, Hr in H.
    destruct (py_iter j) as [l|]; [|discriminate].
    destruct (build_keys l []); [|discriminate].
    destruct (py_iter v); [|discriminate].
    apply add_relationships_keeps in H. exact H.
  - rewrite py_getitem_obj, dget_dset_eq in H. simpl in H.
    destruct (py_iter v); [|discriminate].
    apply add_relationships_keeps in H as [m' [-> Hk]].
    exists m'. split; [reflexivity|]. intros k Hne.
    rewrite Hk by exact Hne. apply dget_dset_neq. exact Hne.
Qed.

(** On a non-empty existing record, the keys other than the two lists are
    those [update_fields] leaves. *)
Lemma merge_scalars (e n : list (string * json)) (M : json) :
  e <> [] ->
  merge_entity_data (JObj e) (JObj n) = Ok M ->
  exists m', M = JObj m' /\
    forall k, k <> "subsidiaries" -> k <> "relationships" -> dget k m' = upd scalar_fields n e k.
Proof.
  intros He H. unfold merge_entity_data in H.
  destruct e as [|kv e]; [contradiction|]. cbn [negb truthy py_copy] in H.
  destruct (update_fields_spec scalar_fields n (kv :: e)) as [m1 [Hu Hk1]].
  rewrite Hu in H.
  destruct (merge_subsidiaries (JObj n) (JObj m1)) as [M2|] eqn:Hs; [|discriminate].
  apply merge_subsidiaries_keeps in Hs as [m2 [-> Hk2]].
  apply merge_relationships_keeps in H as [m3 [-> Hk3]].
  exists m3. split; [reflexivity|]. intros k Hs Hr.
  rewrite Hk3, Hk2, Hk1 by assumption. reflexivity.
Qed.

End MergeProofs.

Module SubsidiaryProofs.
Import JsonUtils MergeSpec MergeProofs.

Lemma add_subsidiaries_spec (subs : list json) :
  forall m l, dget "subsidiaries" m = Some (JArr l) ->
  exists m', add_subsidiaries subs (JObj m) = Ok (JObj m') /\
    dget "subsidiaries" m' = Some (JArr (add_new l subs)) /\
    forall k, k <> "subsidiaries" -> dget k m' = dget k m.
Proof.
  induction subs as [|s subs IH]; intros m l Hl; cbn [add_subsidiaries add_new].
  - exists m. auto.
  - rewrite py_getitem_obj, Hl. cbn [py_contains py_append].
    destruct (existsb (py_eq s) l).
    + apply IH. exact Hl.
    + cbn [py_setitem].
      destruct (IH (dset "subsidiaries" (JArr (l ++ [s])) m) (l ++ [s]))
        as [m' (Hrun & Hs & Hk)]; [apply dget_dset_eq|].
      exists m'. split; [exact Hrun|]. split; [exact Hs|].
      intros k Hne. rewrite Hk by exact Hne. apply dget_dset_neq. exact Hne.
Qed.

Lemma merge_subsidiaries_spec (n m : list (string * json)) :
  list_or_absent (dget "subsidiaries" n) = true ->
  list_or_absent (dget "subsidiaries" m) = true ->
  exists m', merge_subsidiaries (JObj n) (JObj m) = Ok (JObj m') /\
    (forall k, k <> "subsidiaries" -> dget k m' = dget k m) /\
    dget "subsidiaries" m' =
      match dget "subsidiaries" n with
      | Some (JArr (_ :: _) as v) =>
          Some (JArr (add_new (subs_of m) (match v with JArr ns => ns | _ => [] end)))
      | _ => dget "subsidiaries" m
      end.
Proof.
  unfold list_or_absent, subs_of, merge_subsidiaries. intros Hn Hm.
  rewrite py_contains_obj, py_getitem_obj.
  destruct (dget "subsidiaries" n) as [v|] eqn:Hv.
  2: { exists m. auto. }
  destruct v as [| | | |ns|]; try discriminate.
  destruct ns as [|x ns]; cbn [truthy].
  { exists m. auto. }
  rewrite py_contains_obj. cbn [py_iter].
  destruct (dget "subsidiaries" m) as [w|] eqn:Hw.
  - destruct w as [| | | |l|]; try discriminate.
    destruct (add_subsidiaries_spec (x :: ns) m l Hw) as [m' (Hrun & Hs & Hk)].
    exists m'. auto.
  - cbn [py_setitem].
    destruct (add_subsidiaries_spec (x :: ns) (dset "subsidiaries" (JArr []) m) [])
      as [m' (Hrun & Hs & Hk)]; [apply dget_dset_eq|].
    exists m'. split; [exact Hrun|]. split; [|exact Hs].
    intros k Hne. rewrite Hk by exact Hne. apply dget_dset_neq. exact Hne.
Qed.

Lemma existsb_str_map (x : string) (l : list string) :
  existsb (py_eq (JStr x)) (map JStr l) = existsb (String.eqb x) l.
Proof. induction l as [|y l IH]; cbn [map existsb]; [reflexivity|]. now rewrite IH. Qed.

Lemma existsb_str_iff (x : string) (l : list string) :
  existsb (String.eqb x) l = true <-> In x l.
Proof.
  rewrite existsb_exists. split.
  - intros [y [Hy Heq]]. apply String.eqb_eq in Heq. now subst.
  - intros H. exists x. split; [exact H | apply String.eqb_refl].
Qed.

Lemma add_new_strings (es ns : list string) :
  forall acc before, (forall x, In x acc <-> In x es \/ In x before) ->
  add_new (map JStr acc) (map JStr ns) = map JStr (acc ++ new_entries es before ns).
Proof.
  induction ns as [|x ns IH]; intros acc before Hacc; cbn [map add_new new_entries].
  - now rewrite app_nil_r.
  - rewrite existsb_str_map.
    assert (Hx : existsb (String.eqb x) acc =
                 existsb (String.eqb x) es || existsb (String.eqb x) before).
    { apply eq_iff_eq_true. rewrite orb_true_iff, !existsb_str_iff. apply Hacc. }
    rewrite Hx.
    destruct (existsb (String.eqb x) es || existsb (String.eqb x) before) eqn:Hin; simpl.
    + apply (IH acc (before ++ [x])). intros y. rewrite Hacc, in_app_iff. simpl.
      split; [tauto|]. intros [H|[H|[H|[]]]]; auto. subst y.
      apply orb_true_iff in Hin as [H|H]; apply existsb_str_iff in H; auto.
    + replace (map JStr acc ++ [JStr x]) with (map JStr (acc ++ [x]))
        by (rewrite map_app; reflexivity).
      rewrite (IH (acc ++ [x]) (before ++ [x])).
      * rewrite <- app_assoc. reflexivity.
      * intros y. rewrite !in_app_iff, Hacc. simpl. tauto.
Qed.

End SubsidiaryProofs.

(** ** C3 *)

(** Claim C3, counterexample: an empty existing record is replaced by the
    incoming one, so a [null] scalar of the incoming record appears in the
    result although the existing record has none; and an incoming scalar
    [0] is present and not null, yet it does not overwrite the existing
    value, since the code tests Python truthiness. *)
Lemma merge_scalar_fields_counterexample :
  JsonUtils.merge_entity_data (JObj []) (JObj [("parent", JNull)])
    = Ok (JObj [("parent", JNull)]) /\
  JsonUtils.merge_entity_data (JObj [("name", JStr "Acme"); ("revenue", JStr "1B")])
                              (JObj [("revenue", JNum 0)])
    = Ok (JObj [("name", JStr "Acme"); ("revenue", JStr "1B")]).
Proof. split; reflexivity. Qed.

(** Claim C3 (amended): for every existing record [E], incoming record [N]
    and scalar field [f] in [name], [type], [parent], [revenue], whenever
    [merge_entity_data(E, N)] returns a record [M]: if [E] is empty then
    [M] is [N]; otherwise [M[f]] is [N[f]] when [f] is in [N] with a truthy
    value (not [None], [""], [0], [False], [[]] or [{}]), and [E]'s entry
    for [f] (or none) otherwise. *)
Theorem merge_scalar_fields_truthy (e n : list (string * json)) (M : json) (f : string)
  (Hf : In f JsonUtils.scalar_fields)
  (Hrun : JsonUtils.merge_entity_data (JObj e) (JObj n) = Ok M) :
  match e with
  | [] => M = JObj n
  | _ :: _ =>
      exists m, M = JObj m /\
        dget f m = match dget f n with
                   | Some v => if truthy v then Some v else dget f e
                   | None => dget f e
                   end
  end.
Proof.
  destruct e as [|kv e].
  - cbn in Hrun. injection Hrun as <-. reflexivity.
  - apply MergeProofs.merge_scalars in Hrun as [m [-> Hk]]; [|discriminate].
    exists m. split; [reflexivity|].
    assert (Hin : existsb (String.eqb f) JsonUtils.scalar_fields = true)
      by (apply SubsidiaryProofs.existsb_str_iff; exact Hf).
    rewrite Hk.
    + unfold MergeSpec.upd. rewrite Hin. reflexivity.
    + intros ->. cbn in Hin. discriminate.
    + intros ->. cbn in Hin. discriminate.
Qed.

Lemma merge_scalar_fields_truthy_witness :
  JObj [("parent", JNull)] = JObj [("parent", JNull)] /\
  exists m, JObj [("name", JStr "Acme"); ("revenue", JStr "1B")] = JObj m /\
    dget "revenue" m = Some (JStr "1B").
Proof.
  split.
  - exact (merge_scalar_fields_truthy [] [("parent", JNull)] (JObj [("parent", JNull)])
             "parent" ltac:(simpl; auto) eq_refl).
  - exact (merge_scalar_fields_truthy [("name", JStr "Acme"); ("revenue", JStr "1B")]
             [("revenue", JNum 0)] (JObj [("name", JStr "Acme"); ("revenue", JStr "1B")])
             "revenue" ltac:(simpl; auto) eq_refl).
Defined.

(** ** C8 *)

(** Claim C8, counterexample: an incoming subsidiary listed twice, and not
    in the existing list, is appended once. *)
Lemma merge_subsidiaries_counterexample :
  JsonUtils.merge_entity_data
    (JObj [("name", JStr "A"); ("subsidiaries", JArr [JStr "X"])])
    (JObj [("subsidiaries", JArr [JStr "Z"; JStr "Z"])])
  = Ok (JObj [("name", JStr "A"); ("subsidiaries", JArr [JStr "X"; JStr "Z"])]).
Proof. reflexivity. Qed.

(** Claim C8 (amended): for every existing record [E] and incoming record
    [N] whose subsidiaries are lists of strings [es] and [ns], whenever
    [merge_entity_data(E, N)] returns a record, its subsidiaries are [es] in
    order followed, in [N]'s order, by the entries of [ns] that are neither
    in [es] nor earlier in [ns]. *)
Theorem merge_subsidiaries_ordered_union (e n : list (string * json)) (es ns : list string)
  (M : json)
  (He : dget "subsidiaries" e = Some (JArr (map JStr es)))
  (Hn : dget "subsidiaries" n = Some (JArr (map JStr ns)))
  (Hrun : JsonUtils.merge_entity_data (JObj e) (JObj n) = Ok M) :
  exists m, M = JObj m /\
    dget "subsidiaries" m = Some (JArr (map JStr (es ++ MergeSpec.new_entries es [] ns))).
Proof.
  unfold JsonUtils.merge_entity_data in Hrun.
  destruct e as [|kv e]; [discriminate|]. cbn [negb truthy py_copy] in Hrun.
  destruct (MergeProofs.update_fields_spec JsonUtils.scalar_fields n (kv :: e))
    as [m1 [Hu Hk1]].
  rewrite Hu in Hrun.
  assert (Hs1 : dget "subsidiaries" m1 = Some (JArr (map JStr es))) by (rewrite Hk1; exact He).
  destruct (SubsidiaryProofs.merge_subsidiaries_spec n m1) as [m2 (Hrun2 & Hk2 & Hs2)].
  - rewrite Hn. reflexivity.
  - rewrite Hs1. reflexivity.
  - rewrite Hrun2 in Hrun.
    apply MergeProofs.merge_relationships_keeps in Hrun as [m3 [-> Hk3]].
    exists m3. split; [reflexivity|].
    rewrite Hk3 by discriminate. rewrite Hs2, Hn.
    destruct ns as [|x ns].
    + simpl. rewrite Hs1, app_nil_r. reflexivity.
    + cbv beta iota. unfold MergeSpec.subs_of. rewrite Hs1.
      rewrite (SubsidiaryProofs.add_new_strings es (x :: ns) es []); [reflexivity|].
      intros y. simpl. tauto.
Qed.

Lemma merge_subsidiaries_ordered_union_witness :
  exists m, Ok (JObj [("name", JStr "A"); ("subsidiaries", JArr [JStr "X"; JStr "Y"; JStr "Z"])])
            = Ok (JObj m) /\
    dget "subsidiaries" m = Some (JArr [JStr "X"; JStr "Y"; JStr "Z"]).
Proof.
  destruct (merge_subsidiaries_ordered_union
              [("name", JStr "A"); ("subsidiaries", JArr [JStr "X"; JStr "Y"])]
              [("subsidiaries", JArr [JStr "Y"; JStr "Z"])] ["X"; "Y"] ["Y"; "Z"]
              (JObj [("name", JStr "A");
                     ("subsidiaries", JArr [JStr "X"; JStr "Y"; JStr "Z"])]))
    as [m [Hm Hs]].
  - reflexivity.
  - reflexivity.
  - reflexivity.
  - exists m. split; [rewrite Hm; reflexivity | rewrite Hs; reflexivity].
Defined.

(** ** C9 *)

Module KeylessProofs.
Import JsonUtils MergeSpec MergeProofs SubsidiaryProofs.

Lemma merge_subsidiaries_iterable (n m : list (string * json)) :
  iterable_or_falsy (dget "subsidiaries" n) = true ->
  list_or_absent (dget "subsidiaries" m) = true ->
  exists m', merge_subsidiaries (JObj n) (JObj m) = Ok (JObj m') /\
    forall k, k <> "subsidiaries" -> dget k m' = dget k m.
Proof.
  unfold iterable_or_falsy, list_or_absent, merge_subsidiaries. intros Hn Hm.
  rewrite py_contains_obj, py_getitem_obj.
  destruct (dget "subsidiaries" n) as [v|] eqn:Hv.
  2: { exists m. auto. }
  destruct (truthy v) eqn:Ht.
  2: { exists m. auto. }
  cbn [negb orb] in Hn.
  assert (Hit : exists subs, py_iter v = Ok subs)
    by (destruct v; try discriminate; eexists; reflexivity).
  destruct Hit as [subs Hsubs].
  rewrite py_contains_obj.
  destruct (dget "subsidiaries" m) as [w|] eqn:Hw.
  - destruct w as [| | | |l|]; try discriminate. cbv beta iota. rewrite Hsubs.
    destruct (add_subsidiaries_spec subs m l Hw) as [m' (Hrun & _ & Hk)].
    exists m'. auto.
  - cbn [py_setitem]. rewrite Hsubs.
    destruct (add_subsidiaries_spec subs (dset "subsidiaries" (JArr []) m) [])
      as [m' (Hrun & _ & Hk)]; [apply dget_dset_eq|].
    exists m'. split; [exact Hrun|].
    intros k Hne. rewrite Hk by exact Hne. apply dget_dset_neq. exact Hne.
Qed.

Lemma build_keys_keyed (pre rest : list json) :
  forallb keyed_hashable pre = true ->
  forall acc, exists acc', build_keys (pre ++ rest) acc = build_keys rest acc'.
Proof.
  induction pre as [|r pre IH]; intros Hpre acc.
  - exists acc. reflexivity.
  - cbn [forallb] in Hpre. apply andb_prop in Hpre as [Hr Hpre].
    unfold keyed_hashable in Hr.
    cbn [app build_keys].
    destruct (rel_key r) as [[t ty]|x]; [|discriminate].
    cbv beta iota. unfold hash_key. cbn [fst snd]. rewrite Hr.
    apply IH. exact Hpre.
Qed.

Lemma build_keys_keyless (erel : list (string * json)) (post : list json) acc :
  dget "target" erel = None \/ dget "type" erel = None ->
  exists k, build_keys (JObj erel :: post) acc = Exc (KeyError (JStr k)) /\
    (k = "target" \/ k = "type").
Proof.
  intros Hkey. cbn [build_keys]. unfold rel_key. rewrite !py_getitem_obj.
  destruct (dget "target" erel) as [t|] eqn:Ht.
  - destruct Hkey as [Hkey|Hkey]; [discriminate|]. rewrite Hkey. exists "type". auto.
  - exists "target". auto.
Qed.

(** A non-empty [subsidiaries] value that [for ... in] cannot iterate stops
    the merge with the [TypeError] of that loop, whatever the existing
    record's relationships. *)
Lemma merge_uniterable_subsidiaries (e n : list (string * json)) (v : json)
  (He : e <> [])
  (Hes : list_or_absent (dget "subsidiaries" e) = true)
  (Hv : dget "subsidiaries" n = Some v)
  (Ht : truthy v = true)
  (Hit : match v with JArr _ | JStr _ | JObj _ => false | _ => true end = true) :
  merge_entity_data (JObj e) (JObj n) =
    Exc (TypeError ("'" +s+ type_name v +s+ "' object is not iterable")).
Proof.
  unfold merge_entity_data.
  destruct e as [|kv e]; [contradiction|]. cbn [negb truthy py_copy].
  destruct (update_fields_spec scalar_fields n (kv :: e)) as [m1 [Hu Hk1]].
  rewrite Hu. unfold merge_subsidiaries.
  rewrite py_contains_obj, py_getitem_obj, Hv, Ht, py_contains_obj.
  assert (Hm1 : list_or_absent (dget "subsidiaries" m1) = true)
    by (rewrite Hk1; exact Hes).
  unfold list_or_absent in Hm1.
  destruct v; try discriminate;
  (destruct (dget "subsidiaries" m1) as [[| | | | |]|]; try discriminate; reflexivity).
Qed.

End KeylessProofs.

(** Claim C9, counterexample: an incoming record whose [subsidiaries] is
    the integer [5] stops the merge at [for subsidiary in 5] with a
    [TypeError], before the relationships are reached, so no [KeyError] is
    raised ([KeylessProofs.merge_uniterable_subsidiaries] shows this for
    every non-empty existing record with list or absent subsidiaries). *)
Lemma merge_keyless_relationship_counterexample :
  JsonUtils.merge_entity_data
    (JObj [("name", JStr "A"); ("relationships", JArr [JObj [("type", JStr "owns")]])])
    (JObj [("subsidiaries", JNum 5);
           ("relationships", JArr [JObj [("target", JStr "B"); ("type", JStr "partner")]])])
    = Exc (TypeError "'int' object is not iterable").
Proof.
  apply (KeylessProofs.merge_uniterable_subsidiaries _ _ (JNum 5));
    [discriminate | reflexivity | reflexivity | reflexivity | reflexivity].
Qed.

(** Claim C9 (amended): [merge_entity_data] is not total on dictionaries.
    For every existing record whose relationships list holds a dictionary
    lacking ["target"] or ["type"], every entry before it being one whose
    ["target"] and ["type"] exist and are hashable, and whose subsidiaries
    are a list or absent, and every incoming record with a non-empty
    relationships list whose subsidiaries are absent, falsy, or a list, a
    string or a dictionary, the merge raises [KeyError] on ["target"] or
    ["type"], from the unguarded [rel["target"], rel["type"]] of the set
    comprehension. *)
Theorem merge_raises_on_keyless_relationship
  (e n : list (string * json)) (pre : list json) (erel : list (string * json))
  (post : list json) (r : json) (rs : list json)
  (He : dget "relationships" e = Some (JArr (pre ++ JObj erel :: post)))
  (Hpre : forallb MergeSpec.keyed_hashable pre = true)
  (Hkey : dget "target" erel = None \/ dget "type" erel = None)
  (Hes : MergeSpec.list_or_absent (dget "subsidiaries" e) = true)
  (Hns : MergeSpec.iterable_or_falsy (dget "subsidiaries" n) = true)
  (Hn : dget "relationships" n = Some (JArr (r :: rs))) :
  exists k, JsonUtils.merge_entity_data (JObj e) (JObj n) = Exc (KeyError (JStr k)) /\
    (k = "target" \/ k = "type").
Proof.
  unfold JsonUtils.merge_entity_data.
  destruct e as [|kv e]; [discriminate|]. cbn [negb truthy py_copy].
  destruct (MergeProofs.update_fields_spec JsonUtils.scalar_fields n (kv :: e)) as [m1 [Hu Hk1]].
  rewrite Hu.
  destruct (KeylessProofs.merge_subsidiaries_iterable n m1) as [m2 [Hrun2 Hk2]].
  - exact Hns.
  - rewrite Hk1. exact Hes.
  - rewrite Hrun2.
    assert (Hr2 : dget "relationships" m2 = Some (JArr (pre ++ JObj erel :: post)))
      by (rewrite Hk2, Hk1 by discriminate; exact He).
    unfold JsonUtils.merge_relationships.
    rewrite py_contains_obj, py_getitem_obj, Hn. cbn [truthy].
    rewrite py_contains_obj, Hr2. cbv beta iota.
    rewrite py_getitem_obj, Hr2. cbn [py_iter].
    destruct (KeylessProofs.build_keys_keyed pre (JObj erel :: post) Hpre []) as [acc Hacc].
    rewrite Hacc.
    destruct (KeylessProofs.build_keys_keyless erel post acc Hkey) as [k [Hk Hkk]].
    rewrite Hk. exists k. auto.
Qed.

Lemma merge_raises_on_keyless_relationship_witness :
  exists k, JsonUtils.merge_entity_data
    (JObj [("name", JStr "A");
           ("relationships", JArr [JObj [("target", JStr "C"); ("type", JStr "owns")];
                                   JObj [("type", JStr "owns")]])])
    (JObj [("subsidiaries", JStr "B1");
           ("relationships", JArr [JObj [("target", JStr "B"); ("type", JStr "partner")]])])
    = Exc (KeyError (JStr k)) /\ (k = "target" \/ k = "type").
Proof.
  apply (merge_raises_on_keyless_relationship
           [("name", JStr "A");
            ("relationships", JArr [JObj [("target", JStr "C"); ("type", JStr "owns")];
                                    JObj [("type", JStr "owns")]])]
           [("subsidiaries", JStr "B1");
            ("relationships", JArr [JObj [("target", JStr "B"); ("type", JStr "partner")]])]
           [JObj [("target", JStr "C"); ("type", JStr "owns")]]
           [("type", JStr "owns")] []
           (JObj [("target", JStr "B"); ("type", JStr "partner")]) []);
    [reflexivity | reflexivity | left; reflexivity | reflexivity | reflexivity | reflexivity].
Defined.

(** ** The enrichment step: required keys *)

Module EnrichProofs.
Import Claude.

Lemma fill_required_spec (fs : list string) :
  forall kvs, exists kvs',
    fill_required fs (JObj kvs) = Ok (JObj kvs') /\
    forall k, dget k kvs' =
      if existsb (String.eqb k) fs
      then Some (match dget k kvs with Some v => v | None => default_of k end)
      else dget k kvs.
Proof.
  induction fs as [|f fs IH]; intros kvs; cbn [fill_required existsb].
  - exists kvs. auto.
  - rewrite py_contains_obj.
    assert (Hcase : forall kvs1, (forall k, k <> f -> dget k kvs1 = dget k kvs) ->
              dget f kvs1 = Some (match dget f kvs with Some v => v | None => default_of f end) ->
              exists kvs', fill_required fs (JObj kvs1) = Ok (JObj kvs') /\
                forall k, dget k kvs' =
                  if String.eqb k f || existsb (String.eqb k) fs
                  then Some (match dget k kvs with Some v => v | None => default_of k end)
                  else dget k kvs).
    { intros kvs1 Hne Heq. destruct (IH kvs1) as [kvs' [Hrun Hk]].
      exists kvs'. split; [exact Hrun|]. intros k. rewrite Hk.
      destruct (String.eqb_spec k f) as [->|Hkf]; simpl.
      - rewrite Heq. destruct (existsb _ fs); reflexivity.
      - rewrite !Hne by exact Hkf. reflexivity. }
    destruct (dget f kvs) as [v|] eqn:Hf.
    + apply Hcase; [reflexivity | exact Hf].
    + apply Hcase.
      * intros k Hk. apply MergeProofs.dget_dset_neq. exact Hk.
      * apply MergeProofs.dget_dset_eq.
Qed.

Lemma check_rels_msgs (rels : list json) :
  forall i errors, exists extra,
    Validate.check_rels i rels errors = Ok (errors ++ extra) /\
    Forall (fun x => forall f, x <> "Missing required field: " +s+ f) extra.
Proof.
  induction rels as [|rel rs IH]; intros i errors; cbn [Validate.check_rels].
  - exists []. rewrite app_nil_r. auto.
  - assert (Hstep : forall added, Forall (fun x => forall f, x <> "Missing required field: " +s+ f) added ->
              exists extra, Validate.check_rels (S i) rs (errors ++ added) = Ok (errors ++ extra) /\
                Forall (fun x => forall f, x <> "Missing required field: " +s+ f) extra).
    { intros added Hadded. destruct (IH (S i) (errors ++ added)) as [extra [-> Hx]].
      exists (added ++ extra). rewrite app_assoc. split; [reflexivity|].
      apply Forall_app. auto. }
    destruct rel as [|b|n|s|xs|kvs]; cbn [Validate.is_dict negb];
      try (apply (Hstep [_]); repeat constructor; intros f H; discriminate H).
    rewrite !py_contains_obj, ?py_getitem_obj.
    destruct (dget "target" kvs), (dget "type" kvs);
      try (destruct (existsb _ _)); cbn beta iota;
      rewrite <- ?app_assoc;
      match goal with
      | |- exists extra, Validate.check_rels _ _ (errors ++ ?a) = _ /\ _ =>
          apply (Hstep a); repeat constructor; intros f H; discriminate H
      | |- exists extra, Validate.check_rels _ _ errors = _ /\ _ =>
          destruct (Hstep []) as [extra [H1 H2]]; [constructor|];
          rewrite app_nil_r in H1; eauto
      end.
Qed.

Ltac no_missing :=
  repeat constructor; intros ?f ?H; discriminate H.

Lemma validate_no_missing (rk : list (string * json)) :
  dget "name" rk <> None -> dget "type" rk <> None ->
  exists ok errs, Validate.validate_entity_json (JObj rk) = Ok (ok, errs) /\
    Forall (fun x => forall f, x <> "Missing required field: " +s+ f) errs.
Proof.
  intros Hname Htype. unfold Validate.validate_entity_json.
  cbn [Validate.required_fields Validate.check_required].
  rewrite !py_contains_obj.
  destruct (dget "name" rk); [|contradiction].
  destruct (dget "type" rk); [|contradiction].
  cbn beta iota. rewrite ?py_getitem_obj.
  destruct (dget "relationships" rk) as [v|]; destruct (dget "subsidiaries" rk) as [w|];
    cbn beta iota;
    try destruct v as [| | | |rels|]; try destruct w as [| | | |subs|];
    cbn [Validate.is_list app];
    first
      [ match goal with
        | |- exists ok errs, Ok (?b, ?l) = Ok (ok, errs) /\ _ =>
            exists b, l; split; [reflexivity | no_missing]
        end
      | match goal with
        | |- context [Validate.check_rels 0 ?rels ?e] =>
            destruct (check_rels_msgs rels 0 e) as [extra [-> Hx]];
            eexists; eexists; split; [reflexivity|];
            apply Forall_app; split; [no_missing | exact Hx]
        end ].
Qed.

End EnrichProofs.

(** ** C10 *)

(** Claim C10, counterexample: the response [42] parses (to the number 42),
    yet the record returned is the error record of the [TypeError] that
    ["name" in enriched_data] raises on an [int]; it has no ["name"]. *)
Lemma enrich_required_keys_counterexample :
  Claude.extract_payload (T "42") = Ok (JNum 42) /\
  Claude.enrich_entity_data (JStr "key") (fun _ => Ok (T "42")) "Acme" (JObj [])
  = Claude.error_record "Acme" "argument of type 'int' is not iterable".
Proof. split; vm_compute; reflexivity. Qed.

(** Claim C10 (amended): after every JSON parse of the model's response
    that yields a JSON object, the record returned by [enrich_entity_data]
    contains all four keys [name], [type], [subsidiaries] and
    [relationships]: a key the object has keeps its value, a missing
    [subsidiaries] or [relationships] is the empty list and a missing [name]
    or [type] is [None]; and [validate_entity_json], which checks only key
    presence, never reports the record as missing [name] or [type]. *)
Theorem enrich_required_keys_after_object_parse
  (CLAUDE_API_KEY : json) (messages_create : json -> res text)
  (entity_name : string) (scraped_data prompt : json) (response_text : text)
  (kvs : list (string * json))
  (Hkey : truthy CLAUDE_API_KEY = true)
  (Hprompt : Claude.prompt_of entity_name scraped_data = Ok prompt)
  (Hresp : messages_create prompt = Ok response_text)
  (Hparse : Claude.extract_payload response_text = Ok (JObj kvs)) :
  exists rk,
    Claude.enrich_entity_data CLAUDE_API_KEY messages_create entity_name scraped_data = JObj rk /\
    (forall f, In f Claude.required_fields ->
       dget f rk = Some (match dget f kvs with Some v => v | None => Claude.default_of f end)) /\
    exists ok errs, Validate.validate_entity_json (JObj rk) = Ok (ok, errs) /\
      ~ In "Missing required field: name" errs /\ ~ In "Missing required field: type" errs.
Proof.
  unfold Claude.enrich_entity_data. rewrite Hkey. cbn [negb].
  rewrite Hprompt, Hresp, Hparse.
  destruct (EnrichProofs.fill_required_spec Claude.required_fields kvs) as [rk [Hfill Hk]].
  rewrite Hfill. exists rk. split; [reflexivity|].
  assert (Hreq : forall f, In f Claude.required_fields ->
            dget f rk = Some (match dget f kvs with Some v => v | None => Claude.default_of f end)).
  { intros f Hf. rewrite Hk.
    apply SubsidiaryProofs.existsb_str_iff in Hf. rewrite Hf. reflexivity. }
  split; [exact Hreq|].
  destruct (EnrichProofs.validate_no_missing rk) as (ok & errs & Hv & Hx).
  - rewrite (Hreq "name") by (simpl; auto). discriminate.
  - rewrite (Hreq "type") by (simpl; auto). discriminate.
  - exists ok, errs. split; [exact Hv|].
    rewrite Forall_forall in Hx.
    split; intros Hin; [exact (Hx _ Hin "name" eq_refl) | exact (Hx _ Hin "type" eq_refl)].
Qed.

Lemma enrich_required_keys_after_object_parse_witness :
  exists rk,
    Claude.enrich_entity_data (JStr "key") (fun _ => Ok (qtext "{'name': 'Acme'}")) "Acme"
      (JObj []) = JObj rk /\
    (forall f, In f Claude.required_fields ->
       dget f rk = Some (match dget f [("name", JStr "Acme")] with
                         | Some v => v | None => Claude.default_of f end)) /\
    exists ok errs, Validate.validate_entity_json (JObj rk) = Ok (ok, errs) /\
      ~ In "Missing required field: name" errs /\ ~ In "Missing required field: type" errs.
Proof.
  apply (enrich_required_keys_after_object_parse (JStr "key")
           (fun _ => Ok (qtext "{'name': 'Acme'}")) "Acme" (JObj [])
           (JObj [("entity_name", JStr "Acme"); ("summary", JStr "");
                  ("infobox", JObj []); ("sections", JObj [])])
           (qtext "{'name': 'Acme'}") [("name", JStr "Acme")]).
  - reflexivity.
  - reflexivity.
  - reflexivity.
  - vm_compute. reflexivity.
Defined.

(** ** Equality of Python values *)

Module EqProofs.

(** Induction on values, through the lists and dictionaries they hold. *)
Lemma json_ind' (P : json -> Prop)
  (fN : P JNull) (fB : forall b, P (JBool b)) (fZ : forall n, P (JNum n))
  (fS : forall s, P (JStr s))
  (fA : forall xs, Forall P xs -> P (JArr xs))
  (fO : forall kvs, Forall (fun kv => P (snd kv)) kvs -> P (JObj kvs)) :
  forall v, P v.
Proof.
  refine (fix F v := match v with
                     | JNull => fN
                     | JBool b => fB b
                     | JNum n => fZ n
                     | JStr s => fS s
                     | JArr xs => fA xs _
                     | JObj kvs => fO kvs _
                     end).
  - induction xs as [|x xs IH]; [constructor|]. constructor; [apply F | exact IH].
  - induction kvs as [|[k x] kvs IH]; [constructor|]. constructor; [apply F | exact IH].
Qed.

Lemma py_eq_refl (v : json) : py_eq v v = true.
Proof.
  induction v as [| b | n | s | xs Hxs | kvs Hkvs] using json_ind'; simpl.
  - reflexivity.
  - apply Bool.eqb_reflx.
  - apply Z.eqb_refl.
  - apply String.eqb_refl.
  - induction Hxs as [|x xs Hx _ IH]; [reflexivity|]. rewrite Hx. exact IH.
  - apply andb_true_intro. split.
    + assert (Hgo : forall seen suffix,
                Forall (fun kv => py_eq (snd kv) (snd kv) = true) suffix ->
                (forall k, existsb (String.eqb k) seen = false -> dget k kvs = dget k suffix) ->
                (fix go (seen : list string) (xs : list (string * json)) : bool :=
                   match xs with
                   | [] => true
                   | (k, v) :: xs' =>
                       (if existsb (String.eqb k) seen then true
                        else match dget k kvs with Some w => py_eq v w | None => false end)
                       && go (k :: seen) xs'
                   end) seen suffix = true).
      { intros seen suffix Hs. revert seen.
        induction Hs as [|[k v] suffix Hv _ IH]; intros seen Hd; [reflexivity|].
        apply andb_true_intro. split.
        - destruct (existsb (String.eqb k) seen) eqn:Hk; [reflexivity|].
          rewrite (Hd k Hk). simpl. rewrite String.eqb_refl. exact Hv.
        - apply IH. intros k' Hk'. simpl in Hk'. apply orb_false_iff in Hk' as [H1 H2].
          rewrite (Hd k' H2). simpl. rewrite H1. reflexivity. }
      apply Hgo; [exact Hkvs | reflexivity].
    + apply forallb_forall. intros k Hk. apply in_map_iff in Hk as [[k' v] [<- Hin]].
      simpl. clear Hkvs. induction kvs as [|[k'' v''] kvs IH]; [contradiction|].
      simpl. destruct (String.eqb k' k'') eqn:E; [reflexivity|].
      destruct Hin as [Heq|Hin]; [injection Heq as -> ->; rewrite String.eqb_refl in E; discriminate|].
      exact (IH Hin).
Qed.

Lemma b2z_inj (x y : bool) : Z.b2z x = Z.b2z y -> x = y.
Proof. destruct x, y; simpl; congruence. Qed.

(** On hashable values (no list, no dictionary), [==] is transitive. *)
Lemma py_eq_trans (a b c : json) :
  hashable b = true -> py_eq a b = true -> py_eq b c = true -> py_eq a c = true.
Proof.
  intros Hb Hab Hbc.
  destruct a, b, c; simpl in *; try discriminate;
    repeat match goal with
           | H : Z.eqb _ _ = true |- _ => apply Z.eqb_eq in H
           | H : String.eqb _ _ = true |- _ => apply String.eqb_eq in H
           | H : Bool.eqb _ _ = true |- _ => apply Bool.eqb_prop in H
           end; subst;
    try apply Z.eqb_refl; try apply String.eqb_refl; try apply Bool.eqb_reflx;
    try (apply b2z_inj in Hbc; subst; apply Bool.eqb_reflx);
    try (apply Z.eqb_eq; congruence);
    try (apply b2z_inj in Hab; subst; apply Bool.eqb_reflx); reflexivity.
Qed.

End EqProofs.

(** ** Relationships: the key set and the appended entries *)

Module RelProofs.
Import JsonUtils MergeSpec MergeProofs EqProofs.

Lemma key_eq_refl (k : json * json) : key_eq k k = true.
Proof. unfold key_eq. now rewrite !py_eq_refl. Qed.

Lemma key_eq_trans (k1 k2 k3 : json * json) :
  hkey k2 -> key_eq k1 k2 = true -> key_eq k2 k3 = true -> key_eq k1 k3 = true.
Proof.
  unfold hkey, key_eq. intros [H1 H2] H12 H23.
  apply andb_true_iff in H12 as [A1 A2]. apply andb_true_iff in H23 as [B1 B2].
  apply andb_true_iff.
  split; [apply (py_eq_trans _ (fst k2)) | apply (py_eq_trans _ (snd k2))]; assumption.
Qed.

Lemma key_mem_iff (k : json * json) (ks : list (json * json)) :
  key_mem k ks = true <-> exists z, In z ks /\ key_eq k z = true.
Proof. unfold key_mem. apply existsb_exists. Qed.

Lemma key_mem_app (k : json * json) (ks ks' : list (json * json)) :
  key_mem k (ks ++ ks') = key_mem k ks || key_mem k ks'.
Proof. unfold key_mem. apply existsb_app. Qed.

Lemma hash_key_ok (k k' : json * json) : hash_key k = Ok k' -> k' = k /\ hkey k.
Proof.
  unfold hash_key, hkey. destruct (hashable (fst k)) eqn:H1, (hashable (snd k)) eqn:H2;
    simpl; intros H; try discriminate. injection H as <-. auto.
Qed.

Lemma rel_key_obj (r : json) (k : json * json) :
  rel_key r = Ok k ->
  exists kv, r = JObj kv /\ dget "target" kv = Some (fst k) /\ dget "type" kv = Some (snd k).
Proof.
  unfold rel_key. intros H.
  destruct r as [| | | s | xs | kv]; try (cbn in H; discriminate).
  rewrite !py_getitem_obj in H.
  destruct (dget "target" kv) as [t|] eqn:Ht; [|discriminate].
  destruct (dget "type" kv) as [ty|] eqn:Hy; [|discriminate].
  injection H as <-. exists kv. auto.

Qed.

Lemma build_keys_spec (rels : list json) :
  forall acc ks, build_keys rels acc = Ok ks ->
  (exists sel, ks = acc ++ sel /\
     forall z, In z sel -> hkey z /\ exists x, In x rels /\ rel_key x = Ok z) /\
  forall x, In x rels -> exists k, rel_key x = Ok k /\ hkey k /\ key_mem k ks = true.
Proof.
  induction rels as [|r rels IH]; intros acc ks H; cbn [build_keys] in H.
  - injection H as <-. split; [exists []; rewrite app_nil_r; split; [reflexivity | intros z []]|].
    intros x [].
  - destruct (rel_key r) as [k0|] eqn:Hk0; [|discriminate].
    destruct (hash_key k0) as [k1|] eqn:Hh; [|discriminate].
    apply hash_key_ok in Hh as [-> Hhk].
    apply IH in H as [[sel [-> Hsel]] Hall].
    split.
    + exists ((if key_mem k0 acc then [] else [k0]) ++ sel).
      split; [destruct (key_mem k0 acc); [reflexivity | now rewrite app_assoc]|].
      intros z Hz. apply in_app_iff in Hz as [Hz|Hz].
      * destruct (key_mem k0 acc); [destruct Hz|]. destruct Hz as [<-|[]].
        split; [exact Hhk|]. exists r. split; [left; reflexivity | exact Hk0].
      * destruct (Hsel z Hz) as [Hz1 [x [Hx Hxk]]]. split; [exact Hz1|].
        exists x. split; [right; exact Hx | exact Hxk].
    + intros x [<-|Hx].
      * exists k0. split; [exact Hk0|]. split; [exact Hhk|].
        rewrite !key_mem_app. destruct (key_mem k0 acc) eqn:Hm; [now rewrite Hm|].
        rewrite key_mem_app. simpl. rewrite key_eq_refl. now rewrite orb_true_r.
      * apply Hall. exact Hx.
Qed.

Lemma add_relationships_spec (rels : list json) :
  forall keys m cur M,
  add_relationships rels keys (JObj m) = Ok M ->
  dget "relationships" m = Some (JArr cur) ->
  exists m' added, M = JObj m' /\
    dget "relationships" m' = Some (JArr (cur ++ added)) /\
    (forall k, k <> "relationships" -> dget k m' = dget k m) /\
    (forall a, In a added -> In a rels /\
       exists k, rel_key a = Ok k /\ hkey k /\ key_mem k keys = false) /\
    (forall r k, In r rels -> rel_key r = Ok k ->
       key_mem k keys = true \/
       exists a k', In a added /\ rel_key a = Ok k' /\ key_eq k k' = true).
Proof.
  induction rels as [|r rels IH]; intros keys m cur M H Hcur; cbn [add_relationships] in H.
  - injection H as <-. exists m, []. rewrite app_nil_r.
    split; [reflexivity|]. split; [exact Hcur|]. split; [reflexivity|].
    split; [intros a []|]. intros r k [].
  - destruct (new_rel_key r keys) as [[k|]|] eqn:Hnew; [| |discriminate].
    + (* [r] is appended under the key [k] *)
      unfold new_rel_key in Hnew.
      destruct (py_contains r (JStr "target")) as [[|]|]; [| discriminate | discriminate].
      destruct (py_contains r (JStr "type")) as [[|]|]; [| discriminate | discriminate].
      destruct (rel_key r) as [k0|] eqn:Hk0; [|discriminate].
      destruct (hash_key k0) as [k1|] eqn:Hh; [|discriminate].
      apply hash_key_ok in Hh as [-> Hhk].
      destruct (key_mem k0 keys) eqn:Hm; [discriminate|]. injection Hnew as <-.
      rewrite py_getitem_obj, Hcur in H. cbn [py_append py_setitem] in H.
      apply IH with (cur := cur ++ [r]) in H as (m' & added & -> & Hrels & Hk & Hadd & Hcomp);
        [|apply dget_dset_eq].
      exists m', (r :: added). split; [reflexivity|].
      split; [rewrite Hrels, <- app_assoc; reflexivity|].
      split; [intros k' Hne; rewrite Hk by exact Hne; apply dget_dset_neq; exact Hne|].
      split.
      * intros a [<-|Ha].
        -- split; [left; reflexivity|]. exists k0. auto.
        -- destruct (Hadd a Ha) as [Hin [ka (Hka & Hhka & Hma)]].
           split; [right; exact Hin|]. exists ka. split; [exact Hka|]. split; [exact Hhka|].
           rewrite key_mem_app in Hma. apply orb_false_iff in Hma. apply Hma.
      * intros r' k' [<-|Hr'] Hk'.
        -- rewrite Hk0 in Hk'. injection Hk' as <-. right.
           exists r, k0. split; [left; reflexivity|]. split; [exact Hk0 | apply key_eq_refl].
        -- destruct (Hcomp r' k' Hr' Hk') as [Hm'|(a & ka & Ha & Hka & Heq)].
           ++ rewrite key_mem_app in Hm'. apply orb_true_iff in Hm' as [Hm'|Hm'].
              ** left. exact Hm'.
              ** right. exists r, k0. split; [left; reflexivity|]. split; [exact Hk0|].
                 simpl in Hm'. now rewrite orb_false_r in Hm'.
           ++ right. exists a, ka. split; [right; exact Ha|]. auto.
    + (* [r] is skipped *)
      apply IH with (cur := cur) in H as (m' & added & -> & Hrels & Hk & Hadd & Hcomp);
        [|exact Hcur].
      exists m', added. split; [reflexivity|]. split; [exact Hrels|]. split; [exact Hk|].
      split; [intros a Ha; destruct (Hadd a Ha) as [Hin Hx]; split; [right|]; assumption|].
      intros r' k' [<-|Hr'] Hk'.
      * left. unfold new_rel_key in Hnew.
        apply rel_key_obj in Hk' as Hobj. destruct Hobj as (kv & -> & Ht & Hy).
        rewrite !py_contains_obj, Ht, Hy, Hk' in Hnew. cbn beta iota in Hnew.
        destruct (hash_key k') as [k1|] eqn:Hh; [|discriminate].
        apply hash_key_ok in Hh as [-> _].
        destruct (key_mem k' keys); [reflexivity | discriminate].
      * exact (Hcomp r' k' Hr' Hk').
Qed.

End RelProofs.

Module RelMergeProofs.
Import JsonUtils MergeSpec MergeProofs RelProofs.

Lemma merge_relationships_spec (n m : list (string * json)) (nrels erels : list json) (M : json) :
  dget "relationships" n = Some (JArr nrels) ->
  dget "relationships" m = Some (JArr erels) ->
  merge_relationships (JObj n) (JObj m) = Ok M ->
  exists m' added, M = JObj m' /\
    dget "relationships" m' = Some (JArr (erels ++ added)) /\
    (forall a, In a added -> In a nrels /\
       exists k, rel_key a = Ok k /\
         forall x k', In x erels -> rel_key x = Ok k' -> key_eq k k' = false) /\
    (forall r k, In r nrels -> rel_key r = Ok k ->
       exists y k', In y (erels ++ added) /\ rel_key y = Ok k' /\ key_eq k k' = true).
Proof.
  intros Hn Hm H. unfold merge_relationships in H.
  rewrite py_contains_obj, py_getitem_obj, Hn in H.
  destruct nrels as [|r0 nrels0] eqn:Hnrels; cbn [truthy] in H.
  { injection H as <-. exists m, []. rewrite app_nil_r.
    split; [reflexivity|]. split; [exact Hm|]. split; [intros a []|]. intros r k []. }
  rewrite <- Hnrels in H |- *.
  rewrite py_contains_obj, Hm in H. cbv beta iota in H.
  rewrite py_getitem_obj, Hm in H. cbn [py_iter] in H.
  destruct (build_keys erels []) as [keys|] eqn:Hkeys; [|discriminate].
  destruct (add_relationships_spec nrels keys m erels M H Hm)
    as (m' & added & -> & Hrels & _ & Hadd & Hcomp).
  apply build_keys_spec in Hkeys as [[sel [Hsel Hsel']] Hall]. simpl in Hsel. subst sel.
  exists m', added. split; [reflexivity|]. split; [exact Hrels|]. split.
  - intros a Ha. destruct (Hadd a Ha) as [Hin (k & Hk & Hhk & Hmem)].
    split; [exact Hin|]. exists k. split; [exact Hk|].
    intros x k' Hx Hxk. destruct (key_eq k k') eqn:Heq; [|reflexivity].
    destruct (Hall x Hx) as (k'' & Hk'' & Hhk'' & Hmem'').
    rewrite Hxk in Hk''. injection Hk'' as <-.
    apply key_mem_iff in Hmem'' as (z & Hz & Hkz).
    assert (Hin' : key_mem k keys = true).
    { apply key_mem_iff. exists z. split; [exact Hz|]. eapply key_eq_trans; eauto. }
    congruence.
  - intros r k Hr Hk. destruct (Hcomp r k Hr Hk) as [Hmem|(a & k' & Ha & Hak & Heq)].
    + apply key_mem_iff in Hmem as (z & Hz & Hkz).
      destruct (Hsel' z Hz) as [_ (x & Hx & Hxz)].
      exists x, z. split; [apply in_app_iff; left; exact Hx|]. auto.
    + exists a, k'. split; [apply in_app_iff; right; exact Ha|]. auto.
Qed.

End RelMergeProofs.

(** ** C2 *)

(** Claim C2: for every existing record [E] and incoming record [N] with
    relationships lists [erels] and [nrels], whenever
    [merge_entity_data(E, N)] returns a record, its relationships are
    [erels], unchanged and in order, followed by entries [added] taken from
    [nrels]; each added entry has a [(target, type)] key equal to the key
    of no existing relationship; and every incoming relationship with a
    key has that key in the result. *)
Theorem merge_relationships_keyed_union (e n : list (string * json)) (erels nrels : list json)
  (M : json)
  (He : dget "relationships" e = Some (JArr erels))
  (Hn : dget "relationships" n = Some (JArr nrels))
  (Hrun : JsonUtils.merge_entity_data (JObj e) (JObj n) = Ok M) :
  exists m added, M = JObj m /\
    dget "relationships" m = Some (JArr (erels ++ added)) /\
    (forall a, In a added -> In a nrels /\
       exists k, JsonUtils.rel_key a = Ok k /\
         forall x k', In x erels -> JsonUtils.rel_key x = Ok k' -> JsonUtils.key_eq k k' = false) /\
    (forall r k, In r nrels -> JsonUtils.rel_key r = Ok k ->
       exists y k', In y (erels ++ added) /\ JsonUtils.rel_key y = Ok k' /\
         JsonUtils.key_eq k k' = true).
Proof.
  unfold JsonUtils.merge_entity_data in Hrun.
  destruct e as [|kv e]; [discriminate|]. cbn [negb truthy py_copy] in Hrun.
  destruct (MergeProofs.update_fields_spec JsonUtils.scalar_fields n (kv :: e))
    as [m1 [Hu Hk1]].
  rewrite Hu in Hrun.
  destruct (JsonUtils.merge_subsidiaries (JObj n) (JObj m1)) as [M2|] eqn:Hs; [|discriminate].
  apply MergeProofs.merge_subsidiaries_keeps in Hs as [m2 [-> Hk2]].
  apply (RelMergeProofs.merge_relationships_spec n m2 nrels erels M Hn); [|exact Hrun].
  rewrite Hk2, Hk1 by discriminate. exact He.
Qed.

Lemma merge_relationships_keyed_union_witness :
  exists m added,
    JObj [("name", JStr "A");
              ("relationships", JArr [JObj [("target", JStr "P"); ("type", JStr "owned_by");
                                            ("since", JNum 2001)];
                                      JObj [("target", JStr "Q"); ("type", JStr "partner")]])]
    = JObj m /\
    dget "relationships" m
      = Some (JArr ([JObj [("target", JStr "P"); ("type", JStr "owned_by"); ("since", JNum 2001)]]
                    ++ added)) /\
    (forall a, In a added -> In a [JObj [("target", JStr "P"); ("type", JStr "owned_by")];
                                  JObj [("target", JStr "Q"); ("type", JStr "partner")]] /\
       exists k, JsonUtils.rel_key a = Ok k /\
         forall x k', In x [JObj [("target", JStr "P"); ("type", JStr "owned_by");
                                  ("since", JNum 2001)]] ->
                      JsonUtils.rel_key x = Ok k' -> JsonUtils.key_eq k k' = false) /\
    (forall r k, In r [JObj [("target", JStr "P"); ("type", JStr "owned_by")];
                       JObj [("target", JStr "Q"); ("type", JStr "partner")]] ->
       JsonUtils.rel_key r = Ok k ->
       exists y k', In y ([JObj [("target", JStr "P"); ("type", JStr "owned_by");
                                 ("since", JNum 2001)]] ++ added) /\
         JsonUtils.rel_key y = Ok k' /\ JsonUtils.key_eq k k' = true).
Proof.
  apply (merge_relationships_keyed_union
           [("name", JStr "A");
            ("relationships", JArr [JObj [("target", JStr "P"); ("type", JStr "owned_by");
                                          ("since", JNum 2001)]])]
           [("relationships", JArr [JObj [("target", JStr "P"); ("type", JStr "owned_by")];
                                    JObj [("target", JStr "Q"); ("type", JStr "partner")]])]
           _ _
           (JObj [("name", JStr "A");
                  ("relationships", JArr [JObj [("target", JStr "P"); ("type", JStr "owned_by");
                                                ("since", JNum 2001)];
                                          JObj [("target", JStr "Q"); ("type", JStr "partner")]])])).
  - reflexivity.
  - reflexivity.
  - reflexivity.
Defined.

(** ** Repeated merging *)

Module IdemProofs.
Import JsonUtils MergeSpec MergeProofs SubsidiaryProofs EqProofs RelProofs.

Lemma dset_same (k : string) (v : json) (m : list (string * json)) :
  dget k m = Some v -> dset k v m = m.
Proof.
  induction m as [|[k' v'] m IH]; intros H; simpl in *; [discriminate|].
  destruct (String.eqb k k') eqn:E.
  - apply String.eqb_eq in E. subst k'. injection H as ->. reflexivity.
  - f_equal. exact (IH H).
Qed.

Lemma dget_nonempty (k : string) (m : list (string * json)) :
  dget k m <> None -> m <> [].
Proof. intros H ->. apply H. reflexivity. Qed.

Lemma upd_some (fs : list string) (n m : list (string * json)) (k : string) :
  dget k m <> None -> upd fs n m k <> None.
Proof.
  unfold upd. intros H.
  destruct (existsb (String.eqb k) fs); [|exact H].
  destruct (dget k n) as [v|]; [|exact H].
  destruct (truthy v); [discriminate | exact H].
Qed.

(** [update_fields] leaves a record alone when it already holds every
    truthy incoming value. *)
Lemma update_fields_fix (fs : list string) (n m : list (string * json)) :
  (forall f v, In f fs -> dget f n = Some v -> truthy v = true -> dget f m = Some v) ->
  update_fields fs (JObj n) (JObj m) = Ok (JObj m).
Proof.
  induction fs as [|f fs IH]; intros H; cbn [update_fields]; [reflexivity|].
  rewrite py_contains_obj, py_getitem_obj.
  assert (IH' : update_fields fs (JObj n) (JObj m) = Ok (JObj m))
    by (apply IH; intros g v Hg; apply H; right; exact Hg).
  destruct (dget f n) as [v|] eqn:Hv; cbn beta iota; [|exact IH'].
  destruct (truthy v) eqn:Ht; cbn beta iota; [|exact IH'].
  cbn [py_setitem]. rewrite (dset_same f v m); [exact IH'|].
  apply (H f v); [left; reflexivity | exact Hv | exact Ht].
Qed.

Lemma add_subsidiaries_fix (subs : list json) (m : list (string * json)) (l : list json) :
  dget "subsidiaries" m = Some (JArr l) ->
  (forall s, In s subs -> existsb (py_eq s) l = true) ->
  add_subsidiaries subs (JObj m) = Ok (JObj m).
Proof.
  intros Hl. induction subs as [|s subs IH]; intros H; cbn [add_subsidiaries]; [reflexivity|].
  rewrite py_getitem_obj, Hl. cbn [py_contains].
  rewrite (H s (or_introl eq_refl)). cbv beta iota.
  apply IH. intros x Hx. apply H. right. exact Hx.
Qed.

Lemma merge_subsidiaries_fix (n m : list (string * json)) :
  (forall v, dget "subsidiaries" n = Some v -> truthy v = true ->
     exists bs l, v = JArr bs /\ dget "subsidiaries" m = Some (JArr l) /\
       forall s, In s bs -> existsb (py_eq s) l = true) ->
  merge_subsidiaries (JObj n) (JObj m) = Ok (JObj m).
Proof.
  intros H. unfold merge_subsidiaries. rewrite py_contains_obj, py_getitem_obj.
  destruct (dget "subsidiaries" n) as [v|] eqn:Hv; cbv beta iota; [|reflexivity].
  destruct (truthy v) eqn:Ht; [|reflexivity].
  destruct (H v eq_refl Ht) as (bs & l & -> & Hl & Hin).
  rewrite py_contains_obj, Hl. cbn [py_iter]. cbv beta iota.
  exact (add_subsidiaries_fix bs m l Hl Hin).
Qed.

Lemma wf_rel_inv (r : json) :
  wf_rel r = true ->
  exists kv t ty, r = JObj kv /\ dget "target" kv = Some t /\ dget "type" kv = Some ty /\
    hashable t = true /\ hashable ty = true.
Proof.
  unfold wf_rel. intros H. destruct r as [| | | | |kv]; try discriminate.
  destruct (dget "target" kv) as [t|] eqn:Ht; [|discriminate].
  destruct (dget "type" kv) as [ty|] eqn:Hy; [|discriminate].
  apply andb_true_iff in H as [H1 H2]. exists kv, t, ty. auto.
Qed.

Lemma new_rel_key_wf (r : json) (keys : list (json * json)) :
  wf_rel r = true ->
  exists k, rel_key r = Ok k /\ hash_key k = Ok k /\
    new_rel_key r keys = Ok (if key_mem k keys then None else Some k).
Proof.
  intros H. apply wf_rel_inv in H as (kv & t & ty & -> & Ht & Hy & H1 & H2).
  exists (t, ty).
  assert (Hk : rel_key (JObj kv) = Ok (t, ty))
    by (unfold rel_key; rewrite !py_getitem_obj, Ht, Hy; reflexivity).
  assert (Hh : hash_key (t, ty) = Ok (t, ty))
    by (unfold hash_key; cbn [fst snd]; rewrite H1, H2; reflexivity).
  split; [exact Hk|]. split; [exact Hh|].
  unfold new_rel_key. rewrite !py_contains_obj, Ht, Hy. cbv beta iota.
  rewrite Hk, Hh. reflexivity.
Qed.

Lemma build_keys_ok (rels : list json) :
  forallb wf_rel rels = true -> forall acc, exists ks, build_keys rels acc = Ok ks.
Proof.
  induction rels as [|r rels IH]; intros H acc; cbn [build_keys]; [eauto|].
  cbn [forallb] in H. apply andb_true_iff in H as [Hr H].
  destruct (new_rel_key_wf r [] Hr) as (k & Hk & Hh & _).
  rewrite Hk, Hh. apply IH. exact H.
Qed.

Lemma add_relationships_fix (rels : list json) (keys : list (json * json))
  (m : list (string * json)) :
  (forall r, In r rels -> new_rel_key r keys = Ok None) ->
  add_relationships rels keys (JObj m) = Ok (JObj m).
Proof.
  induction rels as [|r rels IH]; intros H; cbn [add_relationships]; [reflexivity|].
  rewrite (H r (or_introl eq_refl)). apply IH. intros x Hx. apply H. right. exact Hx.
Qed.

Lemma add_relationships_ok (rels : list json) :
  forallb wf_rel rels = true ->
  forall keys m cur, dget "relationships" m = Some (JArr cur) ->
  exists M, add_relationships rels keys (JObj m) = Ok M.
Proof.
  induction rels as [|r rels IH]; intros H keys m cur Hcur; cbn [add_relationships]; [eauto|].
  cbn [forallb] in H. apply andb_true_iff in H as [Hr H].
  destruct (new_rel_key_wf r keys Hr) as (k & _ & _ & Hnew). rewrite Hnew.
  destruct (key_mem k keys); [exact (IH H keys m cur Hcur)|].
  rewrite py_getitem_obj, Hcur. cbn [py_append py_setitem].
  exact (IH H (keys ++ [k]) _ (cur ++ [r]) (dget_dset_eq _ _ _)).
Qed.

Lemma merge_relationships_fix (n m : list (string * json)) :
  (forall v, dget "relationships" n = Some v -> truthy v = true ->
     exists nrels mrels, v = JArr nrels /\ dget "relationships" m = Some (JArr mrels) /\
       forallb wf_rel mrels = true /\ forallb wf_rel nrels = true /\ covered nrels mrels) ->
  merge_relationships (JObj n) (JObj m) = Ok (JObj m).
Proof.
  intros H. unfold merge_relationships. rewrite py_contains_obj, py_getitem_obj.
  destruct (dget "relationships" n) as [v|] eqn:Hv; cbv beta iota; [|reflexivity].
  destruct (truthy v) eqn:Ht; [|reflexivity].
  destruct (H v eq_refl Ht) as (nrels & mrels & -> & Hm & Hmw & Hnw & Hcov).
  rewrite py_contains_obj, Hm. cbv beta iota. rewrite py_getitem_obj, Hm. cbn [py_iter].
  destruct (build_keys_ok mrels Hmw []) as [ks Hks]. rewrite Hks.
  apply add_relationships_fix. intros r Hr.
  assert (Hwr : wf_rel r = true) by (rewrite forallb_forall in Hnw; exact (Hnw r Hr)).
  destruct (new_rel_key_wf r ks Hwr) as (k & Hk & _ & Hnew). rewrite Hnew.
  destruct (Hcov r k Hr Hk) as (y & k' & Hy & Hyk & Heq).
  destruct (build_keys_spec mrels [] ks Hks) as [_ Hall].
  destruct (Hall y Hy) as (k'' & Hk'' & Hh & Hmem).
  rewrite Hyk in Hk''. injection Hk'' as <-.
  apply key_mem_iff in Hmem as (z & Hz & Hkz).
  assert (Hin : key_mem k ks = true)
    by (apply key_mem_iff; exists z; split; [exact Hz | exact (key_eq_trans k k' z Hh Heq Hkz)]).
  rewrite Hin. reflexivity.
Qed.

(** A non-empty record that already holds what the incoming record would
    add is a fixed point of the merge. *)
Lemma merge_fix (n m : list (string * json)) :
  m <> [] ->
  (forall f v, In f scalar_fields -> dget f n = Some v -> truthy v = true -> dget f m = Some v) ->
  (forall v, dget "subsidiaries" n = Some v -> truthy v = true ->
     exists bs l, v = JArr bs /\ dget "subsidiaries" m = Some (JArr l) /\
       forall s, In s bs -> existsb (py_eq s) l = true) ->
  (forall v, dget "relationships" n = Some v -> truthy v = true ->
     exists nrels mrels, v = JArr nrels /\ dget "relationships" m = Some (JArr mrels) /\
       forallb wf_rel mrels = true /\ forallb wf_rel nrels = true /\ covered nrels mrels) ->
  merge_entity_data (JObj m) (JObj n) = Ok (JObj m).
Proof.
  intros Hne Hsc Hsub Hrel. unfold merge_entity_data.
  destruct m as [|kv m]; [contradiction|]. cbn [negb truthy py_copy].
  rewrite (update_fields_fix scalar_fields n (kv :: m) Hsc).
  rewrite (merge_subsidiaries_fix n (kv :: m) Hsub).
  exact (merge_relationships_fix n (kv :: m) Hrel).
Qed.

Lemma add_new_mono (bs : list json) :
  forall l s, existsb (py_eq s) l = true -> existsb (py_eq s) (add_new l bs) = true.
Proof.
  induction bs as [|x bs IH]; intros l s H; cbn [add_new]; [exact H|].
  apply IH. destruct (existsb (py_eq x) l); [exact H|].
  rewrite existsb_app, H. reflexivity.
Qed.

Lemma add_new_covers (bs : list json) :
  forall l s, In s bs -> existsb (py_eq s) (add_new l bs) = true.
Proof.
  induction bs as [|x bs IH]; intros l s Hs; [destruct Hs|]. cbn [add_new].
  destruct Hs as [->|Hs]; [|apply IH; exact Hs].
  apply add_new_mono. destruct (existsb (py_eq s) l) eqn:E; [exact E|].
  rewrite existsb_app. cbn [existsb]. rewrite py_eq_refl, orb_true_r. reflexivity.
Qed.

Lemma merge_relationships_absent (n m : list (string * json)) (v : json) :
  dget "relationships" m = None ->
  dget "relationships" n = Some v -> truthy v = true ->
  merge_relationships (JObj n) (JObj m) =
  merge_relationships (JObj n) (JObj (dset "relationships" (JArr []) m)).
Proof.
  intros Hm Hn Ht. unfold merge_relationships.
  rewrite !py_contains_obj, !py_getitem_obj, Hn. cbv beta iota. rewrite Ht.
  rewrite Hm, dget_dset_eq. reflexivity.
Qed.

Lemma merge_relationships_ok (n m : list (string * json)) :
  wf_rels (dget "relationships" n) = true -> wf_rels (dget "relationships" m) = true ->
  exists M, merge_relationships (JObj n) (JObj m) = Ok M.
Proof.
  intros Hn Hm. unfold merge_relationships. rewrite py_contains_obj, py_getitem_obj.
  destruct (dget "relationships" n) as [v|] eqn:Hv; cbv beta iota; [|eauto].
  destruct (truthy v); cbv beta iota; [|eauto].
  destruct v as [| | | |nrels|]; try discriminate Hn. cbn [wf_rels] in Hn.
  rewrite py_contains_obj.
  destruct (dget "relationships" m) as [w|] eqn:Hw; cbv beta iota.
  - destruct w as [| | | |erels|]; try discriminate Hm. cbn [wf_rels] in Hm.
    rewrite py_getitem_obj, Hw. cbn [py_iter].
    destruct (build_keys_ok erels Hm []) as [ks Hks]. rewrite Hks.
    exact (add_relationships_ok nrels Hn ks m erels Hw).
  - cbn [py_setitem]. rewrite py_getitem_obj, dget_dset_eq. cbn [py_iter build_keys].
    exact (add_relationships_ok nrels Hn [] _ [] (dget_dset_eq _ _ _)).
Qed.

Lemma merge_relationships_result (n m : list (string * json)) (M : json) :
  wf_rels (dget "relationships" n) = true -> wf_rels (dget "relationships" m) = true ->
  merge_relationships (JObj n) (JObj m) = Ok M ->
  exists m', M = JObj m' /\
    (forall k, k <> "relationships" -> dget k m' = dget k m) /\
    (dget "relationships" m <> None -> dget "relationships" m' <> None) /\
    (forall v, dget "relationships" n = Some v -> truthy v = true ->
       exists nrels mrels, v = JArr nrels /\ dget "relationships" m' = Some (JArr mrels) /\
         forallb wf_rel mrels = true /\ forallb wf_rel nrels = true /\ covered nrels mrels).
Proof.
  intros Hn Hm H.
  destruct (merge_relationships_keeps _ _ _ H) as [m' [-> Hk]].
  exists m'. split; [reflexivity|]. split; [exact Hk|].
  destruct (dget "relationships" n) as [v|] eqn:Hv.
  2: { unfold merge_relationships in H. rewrite py_contains_obj, Hv in H.
       cbv beta iota in H. injection H as ->. split; [auto|]. intros v' Hv'. discriminate. }
  destruct (truthy v) eqn:Ht.
  2: { unfold merge_relationships in H. rewrite py_contains_obj, py_getitem_obj, Hv in H.
       cbv beta iota in H. rewrite Ht in H. injection H as ->. split; [auto|].
       intros v' Hv' Ht'. injection Hv' as <-. congruence. }
  destruct v as [| | | |nrels|]; try discriminate Hn. cbn [wf_rels] in Hn.
  assert (Hsp : exists erels m0, dget "relationships" m0 = Some (JArr erels) /\
            forallb wf_rel erels = true /\
            merge_relationships (JObj n) (JObj m0) = Ok (JObj m')).
  { destruct (dget "relationships" m) as [w|] eqn:Hw.
    - destruct w as [| | | |erels|]; try discriminate Hm. exists erels, m. auto.
    - exists [], (dset "relationships" (JArr []) m).
      split; [apply dget_dset_eq|]. split; [reflexivity|].
      rewrite <- (merge_relationships_absent n m (JArr nrels) Hw Hv Ht). exact H. }
  destruct Hsp as (erels & m0 & Hm0 & Hew & H0).
  destruct (RelMergeProofs.merge_relationships_spec n m0 nrels erels (JObj m') Hv Hm0 H0)
    as (m'' & added & Heq & Hrels & Hadd & Hcov).
  injection Heq as <-.
  split; [intros _; rewrite Hrels; discriminate|].
  intros v Hv' _. injection Hv' as <-.
  exists nrels, (erels ++ added). split; [reflexivity|]. split; [exact Hrels|]. split.
  - rewrite forallb_app, Hew. cbn [andb]. apply forallb_forall. intros a Ha.
    destruct (Hadd a Ha) as [Hin _]. rewrite forallb_forall in Hn. exact (Hn a Hin).
  - split; [exact Hn | exact Hcov].
Qed.

(** One merge into a non-empty record yields a record that already holds
    everything the incoming record adds. *)
Lemma merge_once (a b : list (string * json)) :
  a <> [] ->
  list_or_absent (dget "subsidiaries" a) = true ->
  list_or_absent (dget "subsidiaries" b) = true ->
  wf_rels (dget "relationships" a) = true ->
  wf_rels (dget "relationships" b) = true ->
  exists m, merge_entity_data (JObj a) (JObj b) = Ok (JObj m) /\ m <> [] /\
    (forall f v, In f scalar_fields -> dget f b = Some v -> truthy v = true ->
       dget f m = Some v) /\
    (forall v, dget "subsidiaries" b = Some v -> truthy v = true ->
       exists bs l, v = JArr bs /\ dget "subsidiaries" m = Some (JArr l) /\
         forall s, In s bs -> existsb (py_eq s) l = true) /\
    (forall v, dget "relationships" b = Some v -> truthy v = true ->
       exists nrels mrels, v = JArr nrels /\ dget "relationships" m = Some (JArr mrels) /\
         forallb wf_rel mrels = true /\ forallb wf_rel nrels = true /\ covered nrels mrels).
Proof.
  intros Hne Has Hbs Har Hbr.
  destruct a as [|[k0 v0] a]; [contradiction|].
  unfold merge_entity_data. cbn [negb truthy py_copy].
  destruct (update_fields_spec scalar_fields b ((k0, v0) :: a)) as [m1 [Hu Hk1]].
  rewrite Hu.
  destruct (merge_subsidiaries_spec b m1 Hbs) as [m2 (Hs2 & Hk2 & Hsub2)];
    [rewrite Hk1; exact Has|].
  rewrite Hs2.
  assert (Hm2r : dget "relationships" m2 = dget "relationships" ((k0, v0) :: a))
    by (rewrite Hk2, Hk1 by discriminate; reflexivity).
  destruct (merge_relationships_ok b m2 Hbr) as [M HM]; [rewrite Hm2r; exact Har|].
  rewrite HM.
  destruct (merge_relationships_result b m2 M Hbr) as (m3 & -> & Hk3 & Hnn3 & Hrel3);
    [rewrite Hm2r; exact Har | exact HM|].
  exists m3. split; [reflexivity|]. split; [|split; [|split]].
  - assert (H0 : dget k0 ((k0, v0) :: a) <> None)
      by (cbn [dget]; rewrite String.eqb_refl; discriminate).
    apply (dget_nonempty k0).
    destruct (String.eqb_spec k0 "relationships") as [->|Hr].
    + apply Hnn3. rewrite Hm2r. exact H0.
    + rewrite Hk3 by exact Hr.
      destruct (String.eqb_spec k0 "subsidiaries") as [->|Hs].
      * rewrite Hsub2.
        destruct (dget "subsidiaries" b) as [[| | | |[|]|]|]; try discriminate;
          rewrite Hk1; apply upd_some; exact H0.
      * rewrite Hk2 by exact Hs. rewrite Hk1. apply upd_some. exact H0.
  - intros f v Hf Hfv Htv.
    assert (Hin : existsb (String.eqb f) scalar_fields = true)
      by (apply existsb_str_iff; exact Hf).
    rewrite Hk3, Hk2, Hk1.
    + unfold upd. rewrite Hin, Hfv, Htv. reflexivity.
    + intros ->. cbn in Hin. discriminate.
    + intros ->. cbn in Hin. discriminate.
  - intros v Hv Ht. rewrite Hv in Hbs, Hsub2.
    destruct v as [| | | |bs|]; try discriminate Hbs.
    destruct bs as [|x bs]; [discriminate Ht|].
    exists (x :: bs), (add_new (subs_of m1) (x :: bs)).
    split; [reflexivity|]. split.
    + rewrite Hk3 by discriminate. exact Hsub2.
    + intros s Hs. apply add_new_covers. exact Hs.
  - exact Hrel3.
Qed.

(** A non-empty well-formed record merged with itself is unchanged. *)
Lemma merge_self (b : list (string * json)) :
  b <> [] ->
  list_or_absent (dget "subsidiaries" b) = true ->
  wf_rels (dget "relationships" b) = true ->
  merge_entity_data (JObj b) (JObj b) = Ok (JObj b).
Proof.
  intros Hne Hbs Hbr. apply merge_fix; [exact Hne | | |].
  - intros f v _ Hv _. exact Hv.
  - intros v Hv _. rewrite Hv in Hbs. destruct v as [| | | |xs|]; try discriminate Hbs.
    exists xs, xs. split; [reflexivity|]. split; [exact Hv|].
    intros s Hs. apply existsb_exists. exists s. split; [exact Hs | apply py_eq_refl].
  - intros v Hv _. rewrite Hv in Hbr. destruct v as [| | | |xs|]; try discriminate Hbr.
    cbn [wf_rels] in Hbr. exists xs, xs. split; [reflexivity|]. split; [exact Hv|].
    split; [exact Hbr|]. split; [exact Hbr|].
    intros r k Hr Hk. exists r, k. split; [exact Hr|]. split; [exact Hk | apply key_eq_refl].
Qed.

End IdemProofs.

(** ** C1 *)

(** Claim C1, counterexample: a relationship whose ["target"] is a list
    carries both keys, yet the merge cannot hash its key.  Merging into an
    empty record returns the incoming record [B]; merging [B] into itself
    raises [TypeError]. *)
Lemma merge_idempotence_counterexample :
  JsonUtils.merge_entity_data (JObj [])
    (JObj [("relationships", JArr [JObj [("target", JArr []); ("type", JStr "owns")]])])
  = Ok (JObj [("relationships", JArr [JObj [("target", JArr []); ("type", JStr "owns")]])]) /\
  JsonUtils.merge_entity_data
    (JObj [("relationships", JArr [JObj [("target", JArr []); ("type", JStr "owns")]])])
    (JObj [("relationships", JArr [JObj [("target", JArr []); ("type", JStr "owns")]])])
  = Exc (TypeError "unhashable type: 'list'").
Proof. split; reflexivity. Qed.

(** Claim C1, as amended: for every pair of dictionaries [A] and [B] whose
    subsidiaries are lists when present and whose relationships are, when
    present, lists of dictionaries with a hashable ["target"] and ["type"],
    [merge_entity_data(A, B)] returns a record [M], and
    [merge_entity_data(M, B)] returns [M] itself. *)
Theorem merge_idempotent_wellformed (a b : list (string * json))
  (Has : MergeSpec.list_or_absent (dget "subsidiaries" a) = true)
  (Hbs : MergeSpec.list_or_absent (dget "subsidiaries" b) = true)
  (Har : MergeSpec.wf_rels (dget "relationships" a) = true)
  (Hbr : MergeSpec.wf_rels (dget "relationships" b) = true) :
  exists M, JsonUtils.merge_entity_data (JObj a) (JObj b) = Ok M /\
    JsonUtils.merge_entity_data M (JObj b) = Ok M.
Proof.
  destruct a as [|kv a].
  - exists (JObj b). split; [reflexivity|].
    destruct b as [|kvb b]; [reflexivity|].
    apply IdemProofs.merge_self; [discriminate | exact Hbs | exact Hbr].
  - destruct (IdemProofs.merge_once (kv :: a) b) as (m & Hrun & Hne & Hsc & Hsub & Hrel);
      [discriminate | exact Has | exact Hbs | exact Har | exact Hbr|].
    exists (JObj m). split; [exact Hrun|].
    exact (IdemProofs.merge_fix b m Hne Hsc Hsub Hrel).
Qed.

Lemma merge_idempotent_wellformed_witness :
  exists M,
    JsonUtils.merge_entity_data
      (JObj [("name", JStr "A"); ("subsidiaries", JArr [JStr "X"]);
             ("relationships", JArr [JObj [("target", JStr "P"); ("type", JStr "owned_by")]])])
      (JObj [("revenue", JStr "2B"); ("subsidiaries", JArr [JStr "X"; JStr "Y"]);
             ("relationships", JArr [JObj [("target", JStr "Q"); ("type", JStr "partner")]])])
    = Ok M /\
    JsonUtils.merge_entity_data M
      (JObj [("revenue", JStr "2B"); ("subsidiaries", JArr [JStr "X"; JStr "Y"]);
             ("relationships", JArr [JObj [("target", JStr "Q"); ("type", JStr "partner")]])])
    = Ok M.
Proof.
  apply (merge_idempotent_wellformed
           [("name", JStr "A"); ("subsidiaries", JArr [JStr "X"]);
            ("relationships", JArr [JObj [("target", JStr "P"); ("type", JStr "owned_by")]])]
           [("revenue", JStr "2B"); ("subsidiaries", JArr [JStr "X"; JStr "Y"]);
            ("relationships", JArr [JObj [("target", JStr "Q"); ("type", JStr "partner")]])]);
    reflexivity.
Defined.

(** ** Payload extraction from a fenced block *)

Module FenceProofs.
Import Claude FenceSpec.

Lemma prefixb_app_long (p a b : text) :
  length p <= length a -> prefixb p (a ++ b) = prefixb p a.
Proof.
  revert a. induction p as [|c p IH]; intros a H; [reflexivity|].
  destruct a as [|d a]; [cbn in H; lia|]. cbn [app prefixb].
  rewrite IH by (cbn in H; lia). reflexivity.
Qed.

Lemma prefixb_app_r (p q s : text) : prefixb (p ++ q) s = true -> prefixb p s = true.
Proof.
  revert s. induction p as [|c p IH]; intros s H; [reflexivity|].
  destruct s as [|d s]; [discriminate|]. cbn [app prefixb] in *.
  apply andb_true_iff in H as [H1 H2]. rewrite H1. exact (IH s H2).
Qed.

Lemma contains_skipn (p s : text) :
  contains p s = false -> forall i, prefixb p (skipn i s) = false.
Proof.
  induction s as [|c s IH]; intros H i.
  - rewrite skipn_nil. cbn [contains] in H. rewrite orb_false_r in H. exact H.
  - cbn [contains] in H. apply orb_false_iff in H as [H1 H2].
    destruct i as [|i]; [exact H1|]. cbn [skipn]. exact (IH H2 i).
Qed.

Lemma contains_app_prefix (p u s : text) : prefixb p s = true -> contains p (u ++ s) = true.
Proof.
  intros H. induction u as [|c u IH]; cbn [app contains].
  - destruct s; cbn [contains]; rewrite H; reflexivity.
  - rewrite IH, orb_true_r. reflexivity.
Qed.

Lemma prefixb_self (p w : text) : prefixb p (p ++ w) = true.
Proof.
  induction p as [|c p IH]; [reflexivity|]. cbn [app prefixb].
  rewrite Ascii.eqb_refl, IH. reflexivity.
Qed.

Lemma split_go_head (sep s cur : text) :
  exists rest, split_go sep s 0 cur = (cur ++ upto sep s) :: rest.
Proof.
  revert cur. induction s as [|c s IH]; intros cur; cbn [split_go upto].
  - exists []. rewrite app_nil_r. reflexivity.
  - destruct (prefixb sep (c :: s)).
    + exists (split_go sep s (pred (length sep)) []). rewrite app_nil_r. reflexivity.
    + destruct (IH (cur ++ [c])) as [rest Hr]. exists rest. rewrite Hr, <- app_assoc.
      reflexivity.
Qed.

Lemma split_go_skip (sep x w cur : text) :
  split_go sep (x ++ w) (length x) cur = split_go sep w 0 cur.
Proof. induction x as [|c x IH]; [reflexivity|]. exact IH. Qed.

Lemma split_go_first (sep u w cur : text) :
  sep <> [] ->
  (forall i, i < length u -> prefixb sep (skipn i (u ++ sep ++ w)) = false) ->
  split_go sep (u ++ sep ++ w) 0 cur = (cur ++ u) :: split_go sep w 0 [].
Proof.
  intros Hsep. revert cur. induction u as [|c u IH]; intros cur H.
  - destruct sep as [|c sep]; [contradiction|]. cbn [app split_go].
    rewrite app_comm_cons, prefixb_self, app_nil_r. cbn [pred length]. rewrite split_go_skip. reflexivity.
  - cbn [app split_go].
    pose proof (H 0 ltac:(cbn; lia)) as H0. cbn [skipn app] in H0. rewrite H0.
    rewrite (IH (cur ++ [c])), <- app_assoc by (intros i Hi; exact (H (S i) ltac:(cbn; lia))).
    reflexivity.
Qed.

Lemma upto_app (sep t r : text) :
  (forall i, i < length t -> prefixb sep (skipn i (t ++ r)) = false) ->
  upto sep (t ++ r) = t ++ upto sep r.
Proof.
  induction t as [|c t IH]; intros H; [reflexivity|]. cbn [app upto].
  pose proof (H 0 ltac:(cbn; lia)) as H0. cbn [skipn app] in H0. rewrite H0. f_equal.
  apply IH. intros i Hi. exact (H (S i) ltac:(cbn; lia)).
Qed.

Lemma prefixb_app_true (p a b : text) : prefixb p a = true -> prefixb p (a ++ b) = true.
Proof.
  revert a. induction p as [|c p IH]; intros a H; [reflexivity|].
  destruct a as [|d a]; [discriminate|]. cbn [app prefixb] in *.
  apply andb_true_iff in H as [H1 H2]. rewrite H1. exact (IH a H2).
Qed.

Lemma upto_self (sep z : text) : sep <> [] -> upto sep (sep ++ z) = [].
Proof.
  intros H. destruct sep as [|c sep]; [contradiction|]. cbn [app upto].
  rewrite app_comm_cons, prefixb_self. reflexivity.
Qed.

Lemma upto_free (sep t : text) :
  (forall i, i < length t -> prefixb sep (skipn i t) = false) -> upto sep t = t.
Proof.
  intros H. rewrite <- (app_nil_r t) at 1. rewrite upto_app.
  - rewrite app_nil_r. destruct t; reflexivity.
  - intros i Hi. rewrite app_nil_r. exact (H i Hi).
Qed.

(** The opening fence cannot overlap itself. *)
Lemma fence_json_no_overlap (v rest : text) :
  v <> [] -> length v <= 6 -> prefixb fence_json (v ++ fence_json ++ rest) = false.
Proof.
  intros Hne Hlen.
  destruct v as [|c1 [|c2 [|c3 [|c4 [|c5 [|c6 [|c7 v]]]]]]];
    try contradiction; try (cbn in Hlen; lia);
    cbn; rewrite ?andb_false_r; reflexivity.
Qed.

Lemma fence_json_first (pre rest : text) :
  contains fence_json pre = false ->
  forall i, i < length pre -> prefixb fence_json (skipn i (pre ++ fence_json ++ rest)) = false.
Proof.
  intros Hpre i Hi. rewrite skipn_app.
  replace (i - length pre) with 0 by lia. cbn [skipn].
  assert (Hl : length (skipn i pre) = length pre - i) by apply length_skipn.
  destruct (Nat.le_gt_cases 7 (length (skipn i pre))) as [H7|H7].
  - rewrite prefixb_app_long by (cbn; lia). exact (contains_skipn _ _ Hpre i).
  - apply fence_json_no_overlap; [|lia].
    intros He. rewrite He in Hl. cbn in Hl. lia.
Qed.

Lemma fence_free_app (t z : text) :
  contains fence (t ++ T "``") = false ->
  forall i, i < length t -> prefixb fence (skipn i (t ++ fence ++ z)) = false.
Proof.
  intros Ht i Hi.
  replace (t ++ fence ++ z) with ((t ++ T "``") ++ T "`" ++ z)
    by (rewrite <- app_assoc; reflexivity).
  rewrite skipn_app.
  replace (i - length (t ++ T "``")) with 0 by (rewrite length_app; cbn; lia).
  cbn [skipn].
  rewrite prefixb_app_long by (rewrite length_skipn, length_app; cbn; lia).
  exact (contains_skipn _ _ Ht i).
Qed.

Lemma fence_free (t : text) :
  contains fence (t ++ T "``") = false ->
  forall i, i < length t -> prefixb fence (skipn i t) = false.
Proof.
  intros Ht i Hi. destruct (prefixb fence (skipn i t)) eqn:E; [|reflexivity].
  apply (prefixb_app_true _ _ (T "``")) in E.
  rewrite <- (contains_skipn _ _ Ht i), skipn_app.
  replace (i - length t) with 0 by lia. symmetry. exact E.
Qed.

(** What follows the content up to the next opening-fence text, when the
    closing fence is not followed by [`json] or [``json]. *)
Lemma upto_after_fence (suf : text) :
  prefixb (T "`json") suf = false -> prefixb (T "``json") suf = false ->
  upto fence_json (fence ++ suf) = [] \/ exists z, upto fence_json (fence ++ suf) = fence ++ z.
Proof.
  intros H1 H2.
  assert (E0 : prefixb fence_json (fence ++ suf) = prefixb (T "json") suf) by reflexivity.
  assert (E1 : prefixb fence_json (T "``" ++ suf) = prefixb (T "`json") suf) by reflexivity.
  assert (E2 : prefixb fence_json (T "`" ++ suf) = prefixb (T "``json") suf) by reflexivity.
  change (fence ++ suf) with ("`"%char :: T "``" ++ suf). cbn [upto].
  change ("`"%char :: T "``" ++ suf) with (fence ++ suf). rewrite E0.
  destruct (prefixb (T "json") suf); [left; reflexivity|right].
  change (T "``" ++ suf) with ("`"%char :: T "`" ++ suf). cbn [upto].
  change ("`"%char :: T "`" ++ suf) with (T "``" ++ suf). rewrite E1, H1.
  change (T "`" ++ suf) with ("`"%char :: suf). cbn [upto].
  change ("`"%char :: suf) with (T "`" ++ suf). rewrite E2, H2.
  exists (upto fence_json suf). reflexivity.
Qed.

(** The candidate text of a response holding a fenced JSON block. *)
Lemma json_text_of_fenced (pre t suf : text) :
  contains fence_json pre = false ->
  contains fence (t ++ T "``") = false ->
  prefixb (T "`json") suf = false -> prefixb (T "``json") suf = false ->
  json_text_of (pre ++ fence_json ++ t ++ fence ++ suf) = Ok (py_strip t).
Proof.
  intros Hpre Ht H1 H2. unfold json_text_of.
  rewrite (contains_app_prefix fence_json pre _ (prefixb_self _ _)).
  unfold py_split, nth_piece.
  rewrite (split_go_first fence_json pre (t ++ fence ++ suf) [] ltac:(discriminate)
             (fence_json_first pre _ Hpre)).
  destruct (split_go_head fence_json (t ++ fence ++ suf) []) as [r1 Hr1].
  rewrite Hr1. cbn [nth_error app].
  rewrite (upto_app fence_json t (fence ++ suf)).
  2: { intros i Hi.
       destruct (prefixb fence_json (skipn i (t ++ fence ++ suf))) eqn:E; [|reflexivity].
       change fence_json with (fence ++ T "json") in E. apply prefixb_app_r in E.
       rewrite (fence_free_app t suf Ht i Hi) in E. discriminate. }
  destruct (split_go_head fence (t ++ upto fence_json (fence ++ suf)) []) as [r2 Hr2].
  rewrite Hr2. cbn [nth_error app].
  destruct (upto_after_fence suf H1 H2) as [E|[z E]]; rewrite E.
  - rewrite app_nil_r, upto_free by exact (fence_free t Ht). reflexivity.
  - rewrite upto_app by exact (fence_free_app t z Ht).
    rewrite upto_self by discriminate. rewrite app_nil_r. reflexivity.
Qed.

End FenceProofs.

(** ** C4 *)

(** Claim C4, counterexample: a well-formed JSON object whose string value
    holds three backticks.  The content of the fenced block parses to the
    object, but the extraction cuts it at the backticks inside the string
    and the parse of the cut text fails. *)
Lemma extract_payload_fence_in_string_counterexample :
  Json.json_loads (qtext "{'a': 'x```y'}") = Ok (JObj [("a", JStr "x```y")]) /\
  exists msg, Claude.extract_payload (Claude.fence_json ++ qtext "{'a': 'x```y'}" ++ Claude.fence)
              = Exc (JSONDecodeError msg).
Proof.
  split; [vm_compute; reflexivity|].
  exists "Expecting value". vm_compute. reflexivity.
Qed.

(** Claim C4, as amended: for every response text made of prose [pre], the
    opening fence [```json], a content [t] and a closing fence [```] followed
    by prose [suf], where [pre] holds no [```json], [t] holds no [```] and
    does not end in a backtick, and [suf] does not start with [`json] or
    [``json], the payload extraction parses exactly [t] (stripped), so it
    returns the JSON value [t] denotes. *)
Theorem extract_payload_fenced (pre t suf : text)
  (Hpre : contains Claude.fence_json pre = false)
  (Ht : contains Claude.fence (t ++ T "``") = false)
  (Hs1 : prefixb (T "`json") suf = false)
  (Hs2 : prefixb (T "``json") suf = false) :
  Claude.extract_payload (pre ++ Claude.fence_json ++ t ++ Claude.fence ++ suf)
  = Json.json_loads (Claude.py_strip t).
Proof.
  unfold Claude.extract_payload.
  rewrite (FenceProofs.json_text_of_fenced pre t suf Hpre Ht Hs1 Hs2). reflexivity.
Qed.

Lemma extract_payload_fenced_witness :
  Claude.extract_payload (T "Here it is: " ++ Claude.fence_json ++ qtext " {'name': 'Acme'} "
                          ++ Claude.fence ++ T " and ```json [] ```")
  = Json.json_loads (Claude.py_strip (qtext " {'name': 'Acme'} ")) /\
  Json.json_loads (Claude.py_strip (qtext " {'name': 'Acme'} "))
  = Ok (JObj [("name", JStr "Acme")]).
Proof.
  split; [apply extract_payload_fenced; vm_compute; reflexivity | vm_compute; reflexivity].
Defined.

(* ================================================================== *)
(** * Further properties of the code *)

(** ** [add_entity] *)

Module AddEntityProofs.
Import Main AddEntity.

(** A run of [process_entity] either leaves the store as it is and raises
    or returns a record with an ["error"] field, or writes its returned
    record once at the entity's path; without [update_existing] that
    record has no ["error"] field. *)
Lemma process_entity_effect sw sq sn key mc (name : string) (upd : bool)
  (st st' : store) (x : res json) :
  process_entity sw sq sn key mc name upd st = (x, st') ->
  (st' = st /\ forall r, x = Ok r -> py_contains r (JStr "error") = Ok true) \/
  exists r, x = Ok r /\
    st' = mkStore (dset (entity_filepath name) r (files st))
                  (writes st ++ [(entity_filepath name, r)]) /\
    (upd = false -> py_contains r (JStr "error") = Ok false).
Proof.
  intros Hrun.
  unfold process_entity, bind in Hrun.
  destruct (MainProofs.existing_step (entity_filepath name) upd st) as [v Hv].
  rewrite Hv in Hrun. unfold lift, ret in Hrun.
  destruct (scrape_step sw sq name) as [[sd|r0]|e] eqn:Hstep;
    [| injection Hrun as <- <-; left; split; [reflexivity|]
     | injection Hrun as <- <-; left; split; [reflexivity|discriminate]].
  2: { intros r [= <-]. apply MainProofs.scrape_step_return in Hstep. subst.
       apply MainProofs.not_found_has_error. }
  destruct (if truthy _ then _ else _) as [sd'|e];
    [| injection Hrun as <- <-; left; split; [reflexivity|discriminate]].
  destruct (py_contains _ (JStr "error")) as [[|]|e] eqn:Herr;
    [| | injection Hrun as <- <-; left; split; [reflexivity|discriminate]].
  - destruct (py_getitem _ (JStr "error"));
      injection Hrun as <- <-; left; split; [reflexivity| |reflexivity|discriminate].
    intros r [= <-]. exact Herr.
  - destruct (if truthy v then _ else _) as [merged|e] eqn:Hm;
      [| injection Hrun as <- <-; left; split; [reflexivity|discriminate]].
    destruct (Validate.validate_entity_json merged);
      [| injection Hrun as <- <-; left; split; [reflexivity|discriminate]].
    unfold save_entity_json in Hrun. injection Hrun as <- <-.
    right. exists merged. repeat split.
    intros ->. simpl in Hv. injection Hv as <-.
    cbn in Hm. injection Hm as <-. exact Herr.
Qed.

Lemma dget_dset_other (p q : string) (r : json) (kvs : list (string * json)) (v : json) :
  dget p kvs = Some v -> p <> q -> dget p (dset q r kvs) = Some v.
Proof.
  induction kvs as [|[k w] rest IH]; simpl; [discriminate|].
  intros H Hpq.
  destruct (String.eqb_spec q k) as [->|Hqk]; simpl.
  - destruct (String.eqb_spec p k); [contradiction|exact H].
  - destruct (String.eqb p k); [exact H|]. exact (IH H Hpq).
Qed.

(** What [add_entity] does after its existence check: the store it
    leaves is the one [process_entity] leaves, and its answer is whether
    the returned record lacks an ["error"] field. *)
Lemma add_entity_run sw sq sn key mc (name : string) (force : bool) (st : store) :
  (dget (entity_filepath name) (files st) = None \/ force = true) ->
  exists x st1,
    process_entity sw sq sn key mc name force st = (x, st1) /\
    add_entity sw sq sn key mc name force st =
      (match x with
       | Ok r => match py_contains r (JStr "error") with
                 | Ok true => match py_getitem r (JStr "error") with
                              | Ok _ => Ok false | Exc e => Exc e end
                 | Ok false => Ok true
                 | Exc e => Exc e
                 end
       | Exc e => Exc e
       end, st1).
Proof.
  intros Hpre.
  destruct (process_entity sw sq sn key mc name force st) as [x st1] eqn:Hp.
  exists x, st1. split; [reflexivity|].
  unfold add_entity, bind, path_exists.
  replace ((match dget (entity_filepath name) (files st) with Some _ => true | None => false end)
           && negb force) with false
    by (destruct Hpre as [-> | ->]; [reflexivity | now rewrite andb_false_r]).
  rewrite Hp. unfold lift, ret.
  destruct x as [r|e]; [|reflexivity].
  destruct (py_contains r (JStr "error")) as [[|]|e]; [|reflexivity|reflexivity].
  destruct (py_getitem r (JStr "error")); reflexivity.
Qed.

End AddEntityProofs.

(** [add_entity] without [--force] never changes a record already in the
    store: every path that held a record still holds it afterwards, and
    when the entity's own path already holds one the call returns
    [False] and leaves the store as it was. *)
Theorem add_entity_never_overwrites sw sq sn key mc (name : string)
  (st st' : Main.store) (x : res bool) :
  AddEntity.add_entity sw sq sn key mc name false st = (x, st') ->
  (forall p v, dget p (Main.files st) = Some v -> dget p (Main.files st') = Some v) /\
  (dget (Main.entity_filepath name) (Main.files st) <> None -> x = Ok false /\ st' = st).
Proof.
  intros Hrun.
  destruct (dget (Main.entity_filepath name) (Main.files st)) as [old|] eqn:Hold.
  - unfold AddEntity.add_entity, Main.bind, AddEntity.path_exists in Hrun.
    rewrite Hold in Hrun. cbn in Hrun. injection Hrun as <- <-.
    split; [auto|]. intros _. split; reflexivity.
  - destruct (AddEntityProofs.add_entity_run sw sq sn key mc name false st (or_introl Hold))
      as (y & st1 & Hp & Ha).
    rewrite Ha in Hrun. injection Hrun as _ <-.
    split; [|intros H; contradiction].
    intros p v Hv.
    destruct (AddEntityProofs.process_entity_effect _ _ _ _ _ _ _ _ _ _ Hp)
      as [[-> _] | (r & _ & -> & _)]; [exact Hv|].
    apply AddEntityProofs.dget_dset_other; [exact Hv|].
    intros ->. congruence.
Qed.

(** [add_entity] returns [True] only after exactly one write, of a record
    without an ["error"] field at the entity's path; without [--force], a
    [False] answer means no write. *)
Theorem add_entity_true_iff_written sw sq sn key mc (name : string) (force : bool)
  (st st' : Main.store) (b : bool) :
  AddEntity.add_entity sw sq sn key mc name force st = (Ok b, st') ->
  (b = true -> exists r, Main.writes st' = Main.writes st ++ [(Main.entity_filepath name, r)] /\
                         py_contains r (JStr "error") = Ok false) /\
  (b = false -> force = false -> Main.writes st' = Main.writes st).
Proof.
  intros Hrun.
  assert (Hcase : (dget (Main.entity_filepath name) (Main.files st) <> None /\ force = false)
                  \/ (dget (Main.entity_filepath name) (Main.files st) = None \/ force = true)).
  { destruct (dget _ _); destruct force; auto. left; split; [discriminate|reflexivity]. }
  destruct Hcase as [[Hex ->] | Hpre].
  - unfold AddEntity.add_entity, Main.bind, AddEntity.path_exists in Hrun.
    destruct (dget _ _); [|contradiction]. cbn in Hrun. injection Hrun as <- <-.
    split; [discriminate|reflexivity].
  - destruct (AddEntityProofs.add_entity_run sw sq sn key mc name force st Hpre)
      as (y & st1 & Hp & Ha).
    rewrite Ha in Hrun. injection Hrun as Hb <-.
    destruct (AddEntityProofs.process_entity_effect _ _ _ _ _ _ _ _ _ _ Hp)
      as [[-> Hnone] | (r & -> & -> & Hforce)].
    + destruct y as [r|e]; [|discriminate].
      rewrite (Hnone r eq_refl) in Hb.
      destruct (py_getitem r (JStr "error")); [|discriminate].
      injection Hb as <-. split; [discriminate|reflexivity].
    + destruct (py_contains r (JStr "error")) as [[|]|e] eqn:Herr; [| |discriminate].
      * destruct (py_getitem r (JStr "error")); [|discriminate].
        injection Hb as <-. split; [discriminate|].
        intros _ Hf. discriminate (Hforce Hf).
      * injection Hb as <-. split; [|discriminate].
        intros _. exists r. split; [reflexivity|exact Herr].
Qed.


(** A store already holding another entity's record; adding "Acme", whose
    scrape succeeds and whose model answer parses, writes Acme's record and
    keeps the other one. *)
Lemma add_entity_never_overwrites_witness :
  let ok_scrape := fun _ : json => JObj [("summary", JStr "A payer")] in
  let no_search := fun _ : json => JArr [] in
  let answer := fun _ : json => Ok (qtext "{'name': 'Acme', 'type': 'Payer'}") in
  let st := Main.mkStore [("data/entities/beta.json", JObj [("name", JStr "Beta")])] [] in
  let run := AddEntity.add_entity ok_scrape no_search no_search (JStr "key") answer "Acme" false st in
  fst run = Ok true /\
  dget "data/entities/beta.json" (Main.files (snd run)) = Some (JObj [("name", JStr "Beta")]).
Proof.
  intros ok_scrape no_search answer st run.
  split; [vm_compute; reflexivity|].
  apply (proj1 (add_entity_never_overwrites ok_scrape no_search no_search (JStr "key") answer
                  "Acme" st (snd run) (fst run) (surjective_pairing run))).
  reflexivity.
Defined.

(** The same run answers [True] after one write of Acme's record. *)
Lemma add_entity_true_iff_written_witness :
  let ok_scrape := fun _ : json => JObj [("summary", JStr "A payer")] in
  let no_search := fun _ : json => JArr [] in
  let answer := fun _ : json => Ok (qtext "{'name': 'Acme', 'type': 'Payer'}") in
  let st := Main.mkStore [] [] in
  let run := AddEntity.add_entity ok_scrape no_search no_search (JStr "key") answer "Acme" false st in
  exists r, Main.writes (snd run) = [(Main.entity_filepath "Acme", r)] /\
            py_contains r (JStr "error") = Ok false.
Proof.
  intros ok_scrape no_search answer st run.
  assert (Hrun : run = (Ok true, snd run)) by (vm_compute; reflexivity).
  exact (proj1 (add_entity_true_iff_written ok_scrape no_search no_search (JStr "key") answer
                  "Acme" false st (snd run) true Hrun) eq_refl).
Defined.

(** ** [validate_entity_json]: what it accepts *)

Module ValidateCharProofs.
Import Validate ValidateSpec.

Lemma check_rels_step (i : nat) (rel : json) (rs : list json) (errors : list string) :
  exists m, check_rels i (rel :: rs) errors = check_rels (S i) rs (errors ++ m) /\
            (m = [] <-> valid_rel rel = true).
Proof.
  cbn [check_rels].
  destruct rel as [|b|n|s|xs|kvs]; cbn [is_dict negb valid_rel];
    try (eexists; split; [reflexivity | split; intros H; discriminate]).
  unfold has. rewrite !py_contains_obj, ?py_getitem_obj.
  destruct (dget "target" kvs), (dget "type" kvs);
    try (match goal with
         | |- context [if existsb ?f ?l then _ else _] => destruct (existsb f l)
         end); cbn beta iota;
    first
      [ exists []; rewrite app_nil_r; split; [reflexivity | split; reflexivity]
      | eexists; split; [rewrite <- ?app_assoc; reflexivity
                        | split; intros H; simpl in H; discriminate] ].
Qed.

Lemma check_rels_spec (rels : list json) :
  forall i errors, exists extra,
    check_rels i rels errors = Ok (errors ++ extra) /\
    (extra = [] <-> forallb valid_rel rels = true).
Proof.
  induction rels as [|rel rs IH]; intros i errors.
  - exists []. rewrite app_nil_r. split; [reflexivity | split; reflexivity].
  - destruct (check_rels_step i rel rs errors) as [m [-> Hm]].
    destruct (IH (S i) (errors ++ m)) as [extra [-> He]].
    exists (m ++ extra). rewrite app_assoc. split; [reflexivity|].
    simpl. rewrite andb_true_iff, <- Hm, <- He.
    split; [apply app_eq_nil | intros [-> ->]; reflexivity].
Qed.

Lemma check_required_spec (kvs : list (string * json)) :
  exists errs, check_required required_fields (JObj kvs) [] = Ok errs /\
               (errs = [] <-> has "name" kvs && has "type" kvs = true).
Proof.
  unfold required_fields, has. cbn [check_required]. rewrite !py_contains_obj.
  destruct (dget "name" kvs), (dget "type" kvs); cbn;
    (eexists; split; [reflexivity | split; intros H; try reflexivity; discriminate]).
Qed.

Lemma nil_match_iff (l : list string) :
  (match l with [] => true | _ => false end) = true <-> l = [].
Proof. destruct l; split; intros H; congruence. Qed.

Lemma app_nil_iff (l1 l2 : list string) : l1 ++ l2 = [] <-> l1 = [] /\ l2 = [].
Proof. split; [apply app_eq_nil | intros [-> ->]; reflexivity]. Qed.

Lemma cons_nil_iff (a : string) (l : list string) : a :: l = [] <-> False.
Proof. split; [discriminate | contradiction]. Qed.

End ValidateCharProofs.

(** [validate_entity_json] on a dictionary never raises, and it accepts
    the record exactly when ["name"] and ["type"] are present,
    ["subsidiaries"] is a list or absent, and ["relationships"] is absent
    or a list whose every entry is a dictionary with a ["target"] and a
    ["type"] equal to one of the six relationship types. *)
Theorem validate_accepts_exactly (kvs : list (string * json)) :
  exists errors,
    Validate.validate_entity_json (JObj kvs) = Ok (ValidateSpec.entity_ok kvs, errors).
Proof.
  unfold Validate.validate_entity_json.
  destruct (ValidateCharProofs.check_required_spec kvs) as [e0 [-> H0]].
  rewrite !py_contains_obj, !py_getitem_obj.
  unfold ValidateSpec.entity_ok.
  destruct (ValidateSpec.has "name" kvs && ValidateSpec.has "type" kvs);
    [ assert (e0 = []) as -> by (apply H0; reflexivity)
    | assert (e0 <> []) as Hne by (intros E; apply H0 in E; discriminate) ];
  destruct (dget "relationships" kvs) as [[| | | |rels|]|];
  destruct (dget "subsidiaries" kvs) as [[| | | | |]|]; cbn beta iota;
  try (match goal with
       | |- context [Validate.check_rels 0 ?r ?E] =>
           destruct (ValidateCharProofs.check_rels_spec r 0 E) as [extra [-> He]];
           cbn beta iota
       end);
  eexists; f_equal; f_equal;
  apply Bool.eq_iff_eq_true; rewrite ValidateCharProofs.nil_match_iff;
  cbn [Validate.is_list app];
  rewrite ?ValidateCharProofs.app_nil_iff, ?ValidateCharProofs.cons_nil_iff;
  try rewrite He; rewrite ?andb_true_iff; intuition discriminate.
Qed.

(** ** [json.dump] then [json.load]: the record comes back *)

Module DumpProofs.
Import Json Dump DumpSpec.

(** *** Integers *)


Lemma digit_char_spec (d : Z) :
  (0 <= d < 10)%Z ->
  is_digit (digit_char d) = true /\ Z.of_nat (nat_of_ascii (digit_char d) - 48) = d.
Proof.
  intros Hd. unfold digit_char, is_digit.
  assert (Hn : (Z.to_nat d < 10)%nat) by lia.
  rewrite nat_ascii_embedding by lia.
  split.
  - apply andb_true_intro; split; apply Nat.leb_le; lia.
  - rewrite Nat.add_comm, Nat.add_sub. lia.
Qed.

Lemma digit_char_zero (d : Z) :
  (0 <= d < 10)%Z -> digit_char d = "0"%char -> d = 0%Z.
Proof.
  intros Hd E. apply (f_equal nat_of_ascii) in E.
  unfold digit_char in E. rewrite nat_ascii_embedding in E by lia.
  change (nat_of_ascii "0"%char) with 48 in E. lia.
Qed.

Lemma digits_aux_spec (f : nat) :
  forall (n : Z) (acc : string), (0 < f)%nat -> (0 <= n < 10 ^ Z.of_nat f)%Z ->
  exists c ds,
    T (digits_aux f n acc) = (c :: ds) ++ T acc /\
    forallb is_digit (c :: ds) = true /\
    (forall a, fold_left dstep (c :: ds) a = a * 10 ^ Z.of_nat (length (c :: ds)) + n)%Z /\
    (c = "0"%char -> ds = [] /\ n = 0%Z).
Proof.
  induction f as [|f IH]; intros n acc Hf Hn; [lia|].
  cbn [digits_aux].
    assert (Hm : (0 <= n mod 10 < 10)%Z) by (apply Z.mod_pos_bound; lia).
    destruct (digit_char_spec (n mod 10) Hm) as [Hdig Hval].
    destruct (Z.eqb_spec (n / 10) 0) as [Hq|Hq].
    + assert (Hmod : (n mod 10 = n)%Z) by (rewrite Z.mod_eq by lia; rewrite Hq; lia).
      exists (digit_char (n mod 10)), []. split; [|split; [|split]].
      * reflexivity.
      * cbn [forallb]. rewrite Hdig. reflexivity.
      * intros a. cbn [fold_left length]. unfold dstep. rewrite Hval.
        change (Z.of_nat 1) with 1%Z. rewrite Z.pow_1_r. lia.
      * intros E. apply digit_char_zero in E; [split; [reflexivity|lia]|exact Hm].
    + assert (Hb : (0 <= n / 10 < 10 ^ Z.of_nat f)%Z).
      { split; [apply Z.div_pos; lia|].
        rewrite Nat2Z.inj_succ, Z.pow_succ_r in Hn by lia.
        apply Z.div_lt_upper_bound; lia. }
      assert (Hf' : (0 < f)%nat).
      { destruct f; [|lia]. simpl in Hb. lia. }
      destruct (IH (n / 10)%Z (String (digit_char (n mod 10)) acc) Hf' Hb)
        as (c & ds & Ht & Hd & Hv & H0).
      exists c, (ds ++ [digit_char (n mod 10)]). split; [|split; [|split]].
      * rewrite Ht. change (T (String (digit_char (n mod 10)) acc))
          with ([digit_char (n mod 10)] ++ T acc).
        rewrite app_assoc. reflexivity.
      * change (c :: ds ++ [digit_char (n mod 10)])
          with ((c :: ds) ++ [digit_char (n mod 10)]).
        rewrite forallb_app, Hd. cbn [forallb]. rewrite Hdig. reflexivity.
      * intros a.
        change (c :: ds ++ [digit_char (n mod 10)])
          with ((c :: ds) ++ [digit_char (n mod 10)]).
        rewrite fold_left_app, Hv. cbn [fold_left]. unfold dstep. rewrite Hval.
        rewrite length_app. cbn [length].
        replace (S (length ds) + 1)%nat with (S (S (length ds))) by lia.
        rewrite (Nat2Z.inj_succ (S (length ds))), Z.pow_succ_r by lia.
        pose proof (Z.div_mod n 10). lia.
      * intros E. destruct (H0 E) as [_ Hz]. contradiction.
Qed.

Lemma size_nat_bound (p : positive) : (Z.pos p < 10 ^ Z.of_nat (Pos.size_nat p))%Z.
Proof.
  induction p as [p IH|p IH|]; cbn [Pos.size_nat].
  - rewrite Nat2Z.inj_succ, Z.pow_succ_r by lia. rewrite Pos2Z.inj_xI. lia.
  - rewrite Nat2Z.inj_succ, Z.pow_succ_r by lia. rewrite Pos2Z.inj_xO. lia.
  - simpl. lia.
Qed.

Lemma digits_of_nonneg (n : Z) :
  (0 <= n)%Z ->
  exists c ds,
    T (digits_aux (Pos.size_nat (Z.to_pos n)) n "") = c :: ds /\
    forallb is_digit (c :: ds) = true /\
    fold_left dstep (c :: ds) 0%Z = n /\
    (c = "0"%char -> ds = [] /\ n = 0%Z).
Proof.
  intros Hn.
  assert (Hb : (0 <= n < 10 ^ Z.of_nat (Pos.size_nat (Z.to_pos n)))%Z).
  { split; [exact Hn|]. destruct n as [|p|p]; [simpl; lia | apply size_nat_bound | lia]. }
  assert (Hf : (0 < Pos.size_nat (Z.to_pos n))%nat) by (destruct (Z.to_pos n); simpl; lia).
  destruct (digits_aux_spec _ n "" Hf Hb) as (c & ds & Ht & Hd & Hv & H0).
  exists c, ds. rewrite Ht, app_nil_r. split; [reflexivity|split; [exact Hd|split]].
  - rewrite Hv. lia.
  - intros E. destruct (H0 E) as [H1 H2]. split; assumption.
Qed.

Lemma take_digits_app (ds rest : text) :
  forallb is_digit ds = true -> num_stop rest -> take_digits (ds ++ rest) = (ds, rest).
Proof.
  intros Hd Hr. induction ds as [|d ds IH]; simpl.
  - destruct rest as [|c r]; [reflexivity|]. simpl. destruct Hr as [-> _]. reflexivity.
  - simpl in Hd. apply andb_true_iff in Hd as [-> Hd]. rewrite (IH Hd). reflexivity.
Qed.

Lemma parse_number_digits (c : ascii) (ds rest : text) (n : Z) :
  forallb is_digit (c :: ds) = true ->
  fold_left dstep (c :: ds) 0%Z = n ->
  (c = "0"%char -> ds = [] /\ n = 0%Z) ->
  num_stop rest ->
  exists r, (if Ascii.eqb c "0" then Some (0%Z, ds ++ rest)
             else if is_digit c then
               let '(ds', r') := take_digits (ds ++ rest) in Some (digits_value (c :: ds'), r')
             else None) = Some (n, r) /\ r = rest.
Proof.
  intros Hd Hv H0 Hr.
  destruct (Ascii.eqb_spec c "0") as [E|E].
  - destruct (H0 E) as [-> ->]. exists rest. split; reflexivity.
  - simpl in Hd. apply andb_true_iff in Hd as [Hc Hd]. rewrite Hc.
    rewrite (take_digits_app ds rest Hd Hr). exists rest. split; [|reflexivity].
    unfold digits_value. fold dstep. rewrite Hv. reflexivity.
Qed.

Lemma parse_number_of_Z (n : Z) (rest : text) :
  num_stop rest -> parse_number (T (string_of_Z n) ++ rest) = Some (JNum n, rest).
Proof.
  intros Hr. unfold string_of_Z.
  destruct (Z.ltb_spec n 0) as [Hneg|Hpos].
  - destruct (digits_of_nonneg (- n)) as (c & ds & Ht & Hd & Hv & H0); [lia|].
    change (T ("-" +s+ digits_aux (Pos.size_nat (Z.to_pos (- n))) (- n) ""))
      with ("-"%char :: T (digits_aux (Pos.size_nat (Z.to_pos (- n))) (- n) "")).
    rewrite Ht. unfold parse_number. cbn [app]. rewrite (Ascii.eqb_refl "-"%char).
    destruct (parse_number_digits c ds rest (- n) Hd Hv H0 Hr) as [r [Hnum ->]].
    rewrite Hnum.
    destruct rest as [|d r]; [f_equal; f_equal; f_equal; lia|].
    destruct Hr as (_ & H1 & H2 & H3). rewrite H1, H2, H3. cbn.
    f_equal; f_equal; f_equal; lia.
  - destruct (digits_of_nonneg n) as (c & ds & Ht & Hd & Hv & H0); [lia|].
    rewrite Ht. unfold parse_number. cbn [app].
    assert (Hc : Ascii.eqb c "-" = false).
    { simpl in Hd. apply andb_true_iff in Hd as [Hc _].
      destruct (Ascii.eqb_spec c "-"); [subst; discriminate | reflexivity]. }
    rewrite Hc.
    destruct (parse_number_digits c ds rest n Hd Hv H0 Hr) as [r [Hnum ->]].
    rewrite Hnum.
    destruct rest as [|d r]; [reflexivity|].
    destruct Hr as (_ & H1 & H2 & H3). rewrite H1, H2, H3. reflexivity.
Qed.

(** *** Strings *)

Lemma parse_escape_char (c : ascii) (s : text) :
  nat_of_ascii c < 128 ->
  parse_string (escape_char c ++ s) =
  match parse_string s with Some (cs, r) => Some (c :: cs, r) | None => None end.
Proof.
  intros Hc.
  destruct c as [[] [] [] [] [] [] [] []];
    try (exfalso; cbv in Hc; lia); reflexivity.
Qed.

Lemma parse_encoded (cs rest : text) :
  forallb (fun c => Nat.ltb (nat_of_ascii c) 128) cs = true ->
  parse_string (flat_map escape_char cs ++ dq :: rest) = Some (cs, rest).
Proof.
  induction cs as [|c cs IH]; intros H; [reflexivity|].
  cbn [forallb] in H. apply andb_true_iff in H as [Hc H].
  cbn [flat_map]. rewrite <- app_assoc, parse_escape_char by (apply Nat.ltb_lt; exact Hc).
  rewrite (IH H). reflexivity.
Qed.

Lemma encode_str_app (s : string) (rest : text) :
  encode_str s ++ rest = dq :: flat_map escape_char (T s) ++ dq :: rest.
Proof. unfold encode_str. cbn [app]. rewrite <- app_assoc. reflexivity. Qed.

(** *** Whitespace and the decoder's steps *)

Lemma skip_ws_ws (w s : text) :
  forallb is_json_ws w = true -> skip_ws (w ++ s) = skip_ws s.
Proof.
  induction w as [|c w IH]; intros H; [reflexivity|].
  cbn [forallb] in H. apply andb_true_iff in H as [Hc H].
  cbn [app skip_ws]. rewrite Hc. exact (IH H).
Qed.

Lemma nl_ws (k : nat) : forallb is_json_ws (nl k) = true.
Proof.
  unfold nl. cbn [forallb]. change (is_json_ws (ascii_of_nat 10)) with true. cbn [andb].
  induction (2 * k) as [|m IH]; [reflexivity|]. exact IH.
Qed.

Lemma skip_ws_head (c : ascii) (s : text) :
  is_json_ws c = false -> skip_ws (c :: s) = c :: s.
Proof. intros H. cbn [skip_ws]. rewrite H. reflexivity. Qed.

Lemma parse_value_ws (f : nat) (w s : text) :
  forallb is_json_ws w = true -> parse_value f (w ++ s) = parse_value f s.
Proof.
  intros H. destruct f as [|f]; [reflexivity|].
  cbn [parse_value]. rewrite (skip_ws_ws w s H). reflexivity.
Qed.

Lemma parse_elems_ws (f : nat) (w s : text) (acc : list json) :
  forallb is_json_ws w = true -> parse_elems f (w ++ s) acc = parse_elems f s acc.
Proof.
  intros H. destruct f as [|f]; [reflexivity|].
  cbn [parse_elems]. rewrite (parse_value_ws f w s H). reflexivity.
Qed.

Lemma parse_members_ws (f : nat) (w s : text) (acc : list (string * json)) :
  forallb is_json_ws w = true -> parse_members f (w ++ s) acc = parse_members f s acc.
Proof.
  intros H. destruct f as [|f]; [reflexivity|].
  cbn [parse_members]. rewrite (skip_ws_ws w s H). reflexivity.
Qed.

Lemma pv_plain (f : nat) (c : ascii) (r : text) :
  plain c = true -> parse_value (S f) (c :: r) = parse_number (c :: r).
Proof.
  intros H. unfold plain in H. rewrite !andb_true_iff, !negb_true_iff in H.
  destruct H as [[[[[[H1 H2] H3] H4] H5] H6] H7].
  cbn [parse_value]. rewrite (skip_ws_head c r H1), H2, H3, H4.
  cbn [T list_ascii_of_string prefixb]. rewrite H5, H6, H7. reflexivity.
Qed.

Lemma pv_str (f : nat) (r : text) :
  parse_value (S f) (dq :: r) =
  match parse_string r with
  | Some (cs, r') => Some (JStr (string_of_list_ascii cs), r')
  | None => None
  end.
Proof. reflexivity. Qed.

Lemma pv_arr (f : nat) (r : text) :
  parse_value (S f) ("["%char :: r) =
  match skip_ws r with
  | c' :: r' => if Ascii.eqb c' "]" then Some (JArr [], r') else parse_elems f (skip_ws r) []
  | [] => None
  end.
Proof. reflexivity. Qed.

Lemma pv_obj (f : nat) (r : text) :
  parse_value (S f) ("{"%char :: r) =
  match skip_ws r with
  | c' :: r' => if Ascii.eqb c' "}" then Some (JObj [], r') else parse_members f (skip_ws r) []
  | [] => None
  end.
Proof. reflexivity. Qed.

Lemma pe_step (f : nat) (s : text) (acc : list json) :
  parse_elems (S f) s acc =
  match parse_value f s with
  | Some (v, r) =>
      match skip_ws r with
      | c :: r' =>
          if Ascii.eqb c "," then parse_elems f r' (acc ++ [v])
          else if Ascii.eqb c "]" then Some (JArr (acc ++ [v]), r')
          else None
      | [] => None
      end
  | None => None
  end.
Proof. reflexivity. Qed.

Lemma pm_step (f : nat) (body : text) (acc : list (string * json)) :
  parse_members (S f) (dq :: body) acc =
  match parse_string body with
  | Some (k, r1) =>
      match skip_ws r1 with
      | c1 :: r2 =>
          if Ascii.eqb c1 ":" then
            match parse_value f r2 with
            | Some (v, r3) =>
                match skip_ws r3 with
                | c3 :: r4 =>
                    if Ascii.eqb c3 "," then
                      parse_members f r4 (dset (string_of_list_ascii k) v acc)
                    else if Ascii.eqb c3 "}" then
                      Some (JObj (dset (string_of_list_ascii k) v acc), r4)
                    else None
                | [] => None
                end
            | None => None
            end
          else None
      | [] => None
      end
  | None => None
  end.
Proof. reflexivity. Qed.

(** *** The first character of a dump *)

Lemma digit_plain (c : ascii) :
  is_digit c = true -> plain c = true /\ Ascii.eqb c "]" = false /\ Ascii.eqb c "}" = false.
Proof.
  intros H.
  destruct c as [[] [] [] [] [] [] [] []];
    (vm_compute in H; try discriminate H); (split; [|split]); reflexivity.
Qed.

Lemma num_head (n : Z) :
  exists c t, T (string_of_Z n) = c :: t /\ plain c = true /\
              Ascii.eqb c "]" = false /\ Ascii.eqb c "}" = false.
Proof.
  unfold string_of_Z. destruct (Z.ltb_spec n 0) as [Hneg|Hpos].
  - eexists _, _. split; [reflexivity|]. split; [|split]; reflexivity.
  - destruct (digits_of_nonneg n Hpos) as (c & ds & Ht & Hd & _).
    exists c, ds. split; [exact Ht|].
    cbn [forallb] in Hd. apply andb_true_iff in Hd as [Hc _].
    exact (digit_plain c Hc).
Qed.

Lemma dump_head (lvl : nat) (v : json) :
  exists c t, dump lvl v = c :: t /\ is_json_ws c = false /\
              Ascii.eqb c "]" = false /\ Ascii.eqb c "}" = false.
Proof.
  destruct v as [|b|n|s|xs|kvs];
    try destruct b; try destruct xs as [|x xs]; try destruct kvs as [|[k x] kvs];
    try (eexists _, _; split; [reflexivity | (split; [|split]); reflexivity]).
  destruct (num_head n) as (c & t & Ht & Hp & H1 & H2).
  exists c, t. split; [exact Ht|]. split; [|split; assumption].
  unfold plain in Hp. rewrite !andb_true_iff, !negb_true_iff in Hp. tauto.
Qed.

Lemma arr_open (f lvl : nat) (v : json) (Y : text) :
  match skip_ws (dump lvl v ++ Y) with
  | c' :: r' => if Ascii.eqb c' "]" then Some (JArr [], r')
                else parse_elems f (skip_ws (dump lvl v ++ Y)) []
  | [] => None
  end = parse_elems f (dump lvl v ++ Y) [].
Proof.
  destruct (dump_head lvl v) as (c & t & Hd & Hws & Hb & _).
  rewrite Hd. cbn [app]. rewrite (skip_ws_head c _ Hws), Hb. reflexivity.
Qed.

Lemma obj_open (f : nat) (Y : text) (k : string) :
  match skip_ws (encode_str k ++ Y) with
  | c' :: r' => if Ascii.eqb c' "}" then Some (JObj [], r')
                else parse_members f (skip_ws (encode_str k ++ Y)) []
  | [] => None
  end = parse_members f (encode_str k ++ Y) [].
Proof.
  rewrite encode_str_app. rewrite (skip_ws_head dq) by reflexivity. reflexivity.
Qed.

Lemma num_stop_comma (t : text) : num_stop (","%char :: t).
Proof. cbn. split; [|split; [|split]]; reflexivity. Qed.

Lemma num_stop_nl (k : nat) (t : text) : num_stop (nl k ++ t).
Proof. cbn. split; [|split; [|split]]; reflexivity. Qed.

(** *** Lists *)

Lemma parse_elems_dump (lvl : nat) (rest : text) (xs : list json) :
  forall x acc g,
  (forall y, In y (x :: xs) -> forall f r, num_stop r -> jsize y <= f ->
     parse_value f (dump (S lvl) y ++ r) = Some (y, r)) ->
  list_sum (map (fun z => S (jsize z)) (x :: xs)) <= g ->
  parse_elems g (dump (S lvl) x
                 ++ flat_map (fun z => ","%char :: nl (S lvl) ++ dump (S lvl) z) xs
                 ++ nl lvl ++ "]"%char :: rest) acc
  = Some (JArr (acc ++ x :: xs), rest).
Proof.
  induction xs as [|y ys IH]; intros x acc g Hall Hg;
    (destruct g as [|g]; [cbn in Hg; lia|]); rewrite pe_step.
  - cbn [flat_map app].
    rewrite (Hall x (or_introl eq_refl) g) by (apply num_stop_nl || (cbn in Hg; lia)).
    rewrite (skip_ws_ws _ _ (nl_ws lvl)). rewrite (skip_ws_head "]") by reflexivity.
    reflexivity.
  - cbn [flat_map]. cbn [app]. rewrite <- !app_assoc.
    assert (Hx : jsize x <= g) by (cbn [map list_sum fold_right] in Hg; lia).
    rewrite (Hall x (or_introl eq_refl) g) by (exact Hx || apply num_stop_comma).
    rewrite (skip_ws_head ",") by reflexivity. cbn [Ascii.eqb Bool.eqb andb].
    rewrite (parse_elems_ws _ _ _ _ (nl_ws (S lvl))).
    rewrite (IH y (acc ++ [x]) g).
    + rewrite <- app_assoc. reflexivity.
    + intros z Hz. apply Hall. right. exact Hz.
    + cbn [map list_sum fold_right] in Hg |- *. lia.
Qed.

(** *** Dictionaries *)

Lemma distinct_not_in (l1 l2 : list string) (k : string) :
  distinct (l1 ++ k :: l2) = true -> ~ In k l1.
Proof.
  induction l1 as [|a l1 IH]; intros H Hin; [contradiction|].
  cbn [app distinct] in H. apply andb_true_iff in H as [Ha H].
  destruct Hin as [->|Hin]; [|exact (IH H Hin)].
  apply negb_true_iff in Ha. rewrite existsb_app in Ha. cbn [existsb] in Ha.
  rewrite String.eqb_refl in Ha. rewrite orb_true_r in Ha. discriminate.
Qed.

Lemma dset_fresh (k : string) (x : json) (acc : list (string * json)) :
  ~ In k (map fst acc) -> dset k x acc = acc ++ [(k, x)].
Proof.
  induction acc as [|[k' v'] acc IH]; intros H; [reflexivity|].
  cbn [dset]. cbn [map fst In] in H.
  destruct (String.eqb_spec k k') as [->|_]; [exfalso; apply H; left; reflexivity|].
  rewrite IH; [reflexivity|]. intros Hin. apply H. right. exact Hin.
Qed.

Lemma pv_space (f : nat) (s : text) : parse_value f (" "%char :: s) = parse_value f s.
Proof. exact (parse_value_ws f [" "%char] s eq_refl). Qed.

Lemma sola_T (s : string) : string_of_list_ascii (T s) = s.
Proof. apply string_of_list_ascii_of_string. Qed.

Lemma colon_app (t : text) : T ": " ++ t = ":"%char :: " "%char :: t.
Proof. reflexivity. Qed.

Lemma parse_members_dump (lvl : nat) (rest : text) (kvs : list (string * json)) :
  forall k x acc g,
  (forall kv, In kv ((k, x) :: kvs) -> forall f r, num_stop r -> jsize (snd kv) <= f ->
     parse_value f (dump (S lvl) (snd kv) ++ r) = Some (snd kv, r)) ->
  forallb (fun kv => ascii_str (fst kv)) ((k, x) :: kvs) = true ->
  distinct (map fst (acc ++ (k, x) :: kvs)) = true ->
  list_sum (map (fun kv => S (jsize (snd kv))) ((k, x) :: kvs)) <= g ->
  parse_members g (encode_str k ++ T ": " ++ dump (S lvl) x
                   ++ flat_map (fun kv => ","%char :: nl (S lvl) ++ encode_str (fst kv)
                                          ++ T ": " ++ dump (S lvl) (snd kv)) kvs
                   ++ nl lvl ++ "}"%char :: rest) acc
  = Some (JObj (acc ++ (k, x) :: kvs), rest).
Proof.
  induction kvs as [|[k2 x2] kvs IH]; intros k x acc g Hall Hasc Hd Hg;
    (destruct g as [|g]; [cbn in Hg; lia|]);
    cbn [forallb fst] in Hasc; apply andb_true_iff in Hasc as [Hk Hasc];
    assert (Hx : jsize x <= g) by (cbn [map list_sum fold_right snd] in Hg; lia);
    assert (Hfresh : ~ In k (map fst acc))
      by (rewrite map_app in Hd; exact (distinct_not_in _ _ _ Hd));
    rewrite encode_str_app, pm_step, (parse_encoded _ _ Hk); cbv beta iota;
    rewrite colon_app, (skip_ws_head ":") by reflexivity;
    cbn [Ascii.eqb Bool.eqb andb]; rewrite pv_space, sola_T.
  - cbn [flat_map app].
    rewrite (Hall (k, x) (or_introl eq_refl) g) by (exact Hx || apply num_stop_nl).
    rewrite (skip_ws_ws _ _ (nl_ws lvl)), (skip_ws_head "}") by reflexivity.
    cbn [snd]. rewrite (dset_fresh k x acc Hfresh). reflexivity.
  - cbn [flat_map]. cbn [app]. rewrite <- !app_assoc.
    rewrite (Hall (k, x) (or_introl eq_refl) g) by (exact Hx || apply num_stop_comma).
    rewrite (skip_ws_head ",") by reflexivity. cbn [Ascii.eqb Bool.eqb andb].
    rewrite (parse_members_ws _ _ _ _ (nl_ws (S lvl))). cbn [snd]. rewrite (dset_fresh k x acc Hfresh).
    cbn [fst snd].
    rewrite (IH k2 x2 (acc ++ [(k, x)]) g).
    + rewrite <- app_assoc. reflexivity.
    + intros kv Hkv. apply Hall. right. exact Hkv.
    + exact Hasc.
    + rewrite <- app_assoc. exact Hd.
    + cbn [map list_sum fold_right snd] in Hg |- *. lia.
Qed.

(** *** Any value *)

Lemma parse_dump (v : json) :
  forall lvl f rest, wf v = true -> num_stop rest -> jsize v <= f ->
  parse_value f (dump lvl v ++ rest) = Some (v, rest).
Proof.
  induction v as [| b | n | s | xs Hxs | kvs Hkvs] using EqProofs.json_ind';
    intros lvl f rest Hwf Hst Hf;
    (destruct f as [|f]; [cbn [jsize] in Hf; lia|]).
  - reflexivity.
  - destruct b; reflexivity.
  - cbn [dump]. destruct (num_head n) as (c & t & Ht & Hp & _).
    rewrite Ht. cbn [app]. rewrite (pv_plain f c _ Hp).
    change (c :: t ++ rest) with ((c :: t) ++ rest). rewrite <- Ht.
    exact (parse_number_of_Z n rest Hst).
  - cbn [dump]. rewrite encode_str_app, pv_str.
    cbn [wf] in Hwf. rewrite (parse_encoded _ _ Hwf), sola_T. reflexivity.
  - destruct xs as [|x xs]; [reflexivity|].
    cbn [dump]. cbn [app]. rewrite <- !app_assoc. cbn [app].
    rewrite pv_arr, (skip_ws_ws _ _ (nl_ws (S lvl))), arr_open.
    cbn [wf] in Hwf. rewrite forallb_forall in Hwf. rewrite Forall_forall in Hxs.
    apply (parse_elems_dump lvl rest xs x [] f).
    + intros y Hy g r Hr Hg. exact (Hxs y Hy (S lvl) g r (Hwf y Hy) Hr Hg).
    + cbn [jsize] in Hf. lia.
  - destruct kvs as [|[k x] kvs]; [reflexivity|].
    cbn [dump]. cbn [app]. rewrite <- !app_assoc. cbn [app].
    rewrite pv_obj, (skip_ws_ws _ _ (nl_ws (S lvl))), obj_open.
    cbn [wf] in Hwf. apply andb_true_iff in Hwf as [Hd Hwf].
    rewrite forallb_forall in Hwf. rewrite Forall_forall in Hkvs.
    apply (parse_members_dump lvl rest kvs k x [] f).
    + intros kv Hkv g r Hr Hg.
      destruct (proj1 (andb_true_iff _ _) (Hwf kv Hkv)) as [_ Hw].
      exact (Hkvs kv Hkv (S lvl) g r Hw Hr Hg).
    + apply forallb_forall. intros kv Hkv.
      destruct (proj1 (andb_true_iff _ _) (Hwf kv Hkv)) as [Ha _]. exact Ha.
    + exact Hd.
    + cbn [jsize] in Hf. lia.
Qed.

Lemma nl_len (k : nat) : 1 <= length (nl k).
Proof. unfold nl. cbn [length]. lia. Qed.

Lemma jsize_dump (v : json) : forall lvl, jsize v <= length (dump lvl v).
Proof.
  induction v as [| b | n | s | xs Hxs | kvs Hkvs] using EqProofs.json_ind'; intros lvl.
  - cbn. lia.
  - destruct b; cbn; lia.
  - cbn [dump jsize]. destruct (num_head n) as (c & t & -> & _). cbn. lia.
  - cbn [dump jsize]. unfold encode_str. cbn [length]. lia.
  - destruct xs as [|x xs]; [cbn; lia|].
    inversion Hxs as [|? ? Hx Hrest]; subst.
    assert (Hfm : list_sum (map (fun y => S (jsize y)) xs) <=
                  length (flat_map (fun y => ","%char :: nl (S lvl) ++ dump (S lvl) y) xs)).
    { clear Hx Hxs. induction Hrest as [|y ys Hy _ IH]; [cbn; lia|].
      cbn [map list_sum fold_right flat_map]. rewrite length_app. cbn [length].
      rewrite length_app. specialize (Hy (S lvl)). unfold list_sum in *. lia. }
    specialize (Hx (S lvl)).
    cbn [dump jsize map list_sum fold_right]. cbn [length].
    rewrite !length_app. unfold list_sum in *. pose proof (nl_len (S lvl)). lia.
  - destruct kvs as [|[k x] kvs]; [cbn; lia|].
    inversion Hkvs as [|? ? Hx Hrest]; subst.
    assert (Hfm : list_sum (map (fun kv => S (jsize (snd kv))) kvs) <=
                  length (flat_map (fun kv => ","%char :: nl (S lvl) ++ encode_str (fst kv)
                                              ++ T ": " ++ dump (S lvl) (snd kv)) kvs)).
    { clear Hx Hkvs. induction Hrest as [|y ys Hy _ IH]; [cbn; lia|].
      cbn [map list_sum fold_right flat_map]. rewrite length_app. cbn [length].
      rewrite !length_app. specialize (Hy (S lvl)). unfold list_sum in *. lia. }
    specialize (Hx (S lvl)). cbn [snd] in Hx.
    cbn [dump jsize map list_sum fold_right snd]. cbn [length].
    rewrite !length_app. unfold list_sum in *. pose proof (nl_len (S lvl)). lia.
Qed.

Lemma loads_dumps (v : json) : wf v = true -> json_loads (dumps v) = Ok v.
Proof.
  intros Hwf. unfold json_loads.
  pose proof (jsize_dump v 0) as Hs.
  assert (H : parse_value (2 * length (dumps v) + 2) (dumps v) = Some (v, [])).
  { pose proof (parse_dump v 0 (2 * length (dumps v) + 2) [] Hwf I) as H.
    rewrite app_nil_r in H. apply H. unfold dumps. lia. }
  rewrite H. reflexivity.
Qed.

End DumpProofs.

(** [json.loads(json.dumps(v, indent=2))] is [v] for every value whose
    strings are below 128 and whose dictionaries have distinct keys. *)
Theorem json_loads_dumps (v : json) :
  DumpSpec.wf v = true -> Json.json_loads (Dump.dumps v) = Ok v.
Proof. exact (DumpProofs.loads_dumps v). Qed.



(** A record with a quote, a backslash and a newline in its text, a
    negative number and nested lists and dictionaries. *)
Lemma json_loads_dumps_witness :
  let v := JObj [("name", JStr ("A" +s+ String Json.dq (String Json.bs (String (ascii_of_nat 10) "b"))));
                 ("revenue", JNum (-120));
                 ("relationships", JArr [JObj [("target", JStr "B"); ("type", JStr "owns")]; JArr []]);
                 ("parent", JNull); ("listed", JBool true); ("extra", JObj [])] in
  Json.json_loads (Dump.dumps v) = Ok v.
Proof.
  intros v. apply json_loads_dumps. vm_compute. reflexivity.
Defined.


(** ** The payload extraction without a [```json] fence *)

Module PayloadPathProofs.
Import Claude BraceSpec.

Lemma match_brace_body (body rest : text) :
  forall d i, bal "{" "}" d body = true ->
  match_brace (body ++ "}"%char :: rest) (Z.of_nat d + 1) i = Some (i + length body + 1).
Proof.
  induction body as [|c body IH]; intros d i Hb.
  - cbn [bal] in Hb. apply Nat.eqb_eq in Hb. subst d.
    cbn [app match_brace length]. rewrite Ascii.eqb_refl.
    change (Ascii.eqb "}" "{") with false. cbv iota.
    change (Z.eqb (Z.of_nat 0 + 1 - 1) 0) with true. cbv iota. f_equal. lia.
  - cbn [bal] in Hb. cbn [app match_brace].
    destruct (Ascii.eqb_spec c "{") as [->|Ho].
    + replace (Z.of_nat d + 1 + 1)%Z with (Z.of_nat (S d) + 1)%Z by lia.
      rewrite (IH (S d) (S i) Hb). cbn [length]. f_equal. lia.
    + destruct (Ascii.eqb_spec c "}") as [->|Hc].
      * destruct d as [|d]; [discriminate|].
        replace (Z.of_nat (S d) + 1 - 1)%Z with (Z.of_nat d + 1)%Z by lia.
        replace (Z.eqb (Z.of_nat d + 1) 0) with false by (symmetry; apply Z.eqb_neq; lia).
        rewrite (IH d (S i) Hb). cbn [length]. f_equal. lia.
      * rewrite (IH d (S i) Hb). cbn [length]. f_equal. lia.
Qed.

Lemma match_brace_object (body rest : text) (i : nat) :
  balanced body = true ->
  match_brace ("{"%char :: body ++ "}"%char :: rest) 0 i = Some (i + length body + 2).
Proof.
  intros Hb. cbn [match_brace]. rewrite Ascii.eqb_refl.
  change (0 + 1)%Z with (Z.of_nat 0 + 1)%Z.
  rewrite (match_brace_body body rest 0 (S i) Hb). f_equal. lia.
Qed.

Lemma find_brace (pre r : text) :
  ~ In "{"%char pre -> find (T "{") (pre ++ "{"%char :: r) = length pre.
Proof.
  induction pre as [|c pre IH]; intros H; [reflexivity|].
  cbn [app find length].
  assert (Hc : prefixb (T "{") (c :: pre ++ "{"%char :: r) = false).
  { change (T "{") with ["{"%char]. cbn [prefixb]. rewrite andb_true_r.
    destruct (Ascii.eqb_spec "{" c) as [E|E]; [|reflexivity].
    exfalso. apply H. left. symmetry. exact E. }
  rewrite Hc, IH; [reflexivity|]. intros Hin. apply H. right. exact Hin.
Qed.

Lemma contains_app_l (p q s : text) : contains (p ++ q) s = true -> contains p s = true.
Proof.
  induction s as [|c s IH]; cbn [contains]; intros H.
  - rewrite orb_false_r in *. exact (FenceProofs.prefixb_app_r p q [] H).
  - apply orb_true_iff in H as [H|H].
    + rewrite (FenceProofs.prefixb_app_r p q _ H). reflexivity.
    + rewrite (IH H), orb_true_r. reflexivity.
Qed.

Lemma py_strip_object (body : text) :
  py_strip ("{"%char :: body ++ ["}"%char]) = "{"%char :: body ++ ["}"%char].
Proof.
  unfold py_strip. cbn [lstrip].
  change (is_space "{"%char) with false. cbv iota.
  rewrite app_comm_cons, rev_app_distr. cbn [rev app lstrip].
  assert (Hs : is_space "}"%char = false) by reflexivity. rewrite Hs.
  replace ("}"%char :: rev body ++ ["{"%char]) with (rev ("{"%char :: body ++ ["}"%char]))
    by (cbn [rev]; rewrite rev_app_distr; reflexivity).
  apply rev_involutive.
Qed.

Lemma json_text_of_braces (pre body post : text) :
  contains fence (pre ++ "{"%char :: body ++ "}"%char :: post) = false ->
  ~ In "{"%char pre ->
  balanced body = true ->
  json_text_of (pre ++ "{"%char :: body ++ "}"%char :: post) = Ok ("{"%char :: body ++ ["}"%char]).
Proof.
  set (X := pre ++ "{"%char :: body ++ "}"%char :: post).
  intros Hf Hpre Hb. unfold json_text_of.
  assert (Hj : contains fence_json X = false).
  { pose proof (contains_app_l fence (T "json") X) as Hc. rewrite Hf in Hc.
    destruct (contains fence_json X) eqn:E; [|reflexivity].
    symmetry. apply Hc. exact E. }
  rewrite Hj, Hf.
  assert (Ho : contains (T "{") X = true).
  { apply FenceProofs.contains_app_prefix. reflexivity. }
  rewrite Ho.
  subst X. rewrite (find_brace pre _ Hpre).
  rewrite skipn_app, skipn_all, Nat.sub_diag. cbn [skipn app].
  rewrite (match_brace_object body post (length pre) Hb).
  replace (Nat.ltb (length pre) (length pre + length body + 2)) with true
    by (symmetry; apply Nat.ltb_lt; lia).
  replace (length pre + length body + 2 - length pre) with (S (length body + 1)) by lia.
  cbn [firstn]. rewrite firstn_app, firstn_all2 by lia.
  replace (length body + 1 - length body) with 1 by lia. cbn [firstn].
  rewrite py_strip_object. reflexivity.
Qed.


Lemma json_text_of_plain_fence (pre t suf : text) :
  contains fence_json (pre ++ fence ++ t ++ fence ++ suf) = false ->
  contains fence (pre ++ T "``") = false ->
  contains fence (t ++ T "``") = false ->
  json_text_of (pre ++ fence ++ t ++ fence ++ suf) = Ok (py_strip t).
Proof.
  intros Hj Hpre Ht. unfold json_text_of. rewrite Hj.
  rewrite (FenceProofs.contains_app_prefix fence pre _ (FenceProofs.prefixb_self _ _)).
  unfold py_split, nth_piece.
  rewrite (FenceProofs.split_go_first fence pre (t ++ fence ++ suf) [] ltac:(discriminate)
             (FenceProofs.fence_free_app pre _ Hpre)).
  rewrite (FenceProofs.split_go_first fence t suf [] ltac:(discriminate)
             (FenceProofs.fence_free_app t suf Ht)).
  reflexivity.
Qed.

End PayloadPathProofs.

(** Extra X6: with no [```] in the response, the payload is the text from
    the first [{] to the brace that closes it, counted over every brace of
    the text (also those inside JSON strings), handed to [json.loads]. *)
Theorem extract_payload_first_object (pre body post : text) :
  contains Claude.fence (pre ++ "{"%char :: body ++ "}"%char :: post) = false ->
  ~ In "{"%char pre ->
  BraceSpec.balanced body = true ->
  Claude.extract_payload (pre ++ "{"%char :: body ++ "}"%char :: post)
  = Json.json_loads ("{"%char :: body ++ ["}"%char]).
Proof.
  intros Hf Hpre Hb. unfold Claude.extract_payload.
  rewrite (PayloadPathProofs.json_text_of_braces pre body post Hf Hpre Hb). reflexivity.
Qed.

Lemma extract_payload_first_object_witness :
  let pre := T "Here is the record: " in
  let body := qtext "'name': {'a': 1}" in
  let post := T " Hope this helps }" in
  (contains Claude.fence (pre ++ "{"%char :: body ++ "}"%char :: post) = false /\
   ~ In "{"%char pre /\ BraceSpec.balanced body = true) /\
  Claude.extract_payload (pre ++ "{"%char :: body ++ "}"%char :: post)
  = Json.json_loads ("{"%char :: body ++ ["}"%char]) /\
  Json.json_loads ("{"%char :: body ++ ["}"%char]) = Ok (JObj [("name", JObj [("a", JNum 1)])]).
Proof.
  intros pre body post.
  assert (H1 : contains Claude.fence (pre ++ "{"%char :: body ++ "}"%char :: post) = false)
    by (vm_compute; reflexivity).
  assert (H2 : ~ In "{"%char pre) by (vm_compute; intuition discriminate).
  assert (H3 : BraceSpec.balanced body = true) by (vm_compute; reflexivity).
  split; [split; [exact H1|split; [exact H2|exact H3]]|split].
  - exact (extract_payload_first_object pre body post H1 H2 H3).
  - vm_compute. reflexivity.
Defined.

(** Extra X7: with no [```json] in the response, the payload is the text
    between its first two [```] fences, stripped of surrounding white
    space, handed to [json.loads]. *)
Theorem extract_payload_plain_fence (pre t suf : text) :
  contains Claude.fence_json (pre ++ Claude.fence ++ t ++ Claude.fence ++ suf) = false ->
  contains Claude.fence (pre ++ T "``") = false ->
  contains Claude.fence (t ++ T "``") = false ->
  Claude.extract_payload (pre ++ Claude.fence ++ t ++ Claude.fence ++ suf)
  = Json.json_loads (Claude.py_strip t).
Proof.
  intros Hj Hpre Ht. unfold Claude.extract_payload.
  rewrite (PayloadPathProofs.json_text_of_plain_fence pre t suf Hj Hpre Ht). reflexivity.
Qed.

Lemma extract_payload_plain_fence_witness :
  let pre := T "Sure:" ++ [ascii_of_nat 10] in
  let t := [ascii_of_nat 10] ++ qtext "{'name': 'Acme'}" ++ [ascii_of_nat 10] in
  let suf := T " and ```more```" in
  (contains Claude.fence_json (pre ++ Claude.fence ++ t ++ Claude.fence ++ suf) = false /\
   contains Claude.fence (pre ++ T "``") = false /\
   contains Claude.fence (t ++ T "``") = false) /\
  Claude.extract_payload (pre ++ Claude.fence ++ t ++ Claude.fence ++ suf)
  = Json.json_loads (Claude.py_strip t) /\
  Json.json_loads (Claude.py_strip t) = Ok (JObj [("name", JStr "Acme")]).
Proof.
  intros pre t suf.
  assert (H1 : contains Claude.fence_json (pre ++ Claude.fence ++ t ++ Claude.fence ++ suf) = false)
    by (vm_compute; reflexivity).
  assert (H2 : contains Claude.fence (pre ++ T "``") = false) by (vm_compute; reflexivity).
  assert (H3 : contains Claude.fence (t ++ T "``") = false) by (vm_compute; reflexivity).
  split; [split; [exact H1|split; [exact H2|exact H3]]|split].
  - exact (extract_payload_plain_fence pre t suf H1 H2 H3).
  - vm_compute. reflexivity.
Defined.

(** ** Relationship inference: [load_all_entities], [infer_relationships],
    [infer_entity_relationships] *)

Module InferProofs.
Import Main Infer InferSpec.

Lemma load_each_run d fs : forall acc st,
  load_each d fs acc st
  = (Ok (acc ++ filter truthy (map (fun f => stored (path_join d f) st) fs)), st).
Proof.
  induction fs as [|f fs IH]; intros acc st.
  - cbn. rewrite app_nil_r. reflexivity.
  - cbn [load_each]. unfold bind, load_entity_json. rewrite IH.
    cbn [map filter]. unfold stored at 2.
    destruct (truthy _); [rewrite <- app_assoc|]; reflexivity.
Qed.

Lemma load_all_entities_run d st :
  load_all_entities d st
  = (Ok (filter truthy (map (fun f => stored (path_join d f) st) (json_files d st))), st).
Proof.
  unfold load_all_entities, json_files, dir_exists.
  destruct (Nat.eqb_spec (length (listdir d st)) 0) as [E|E]; cbn [negb].
  - apply length_zero_iff_nil in E. rewrite E. reflexivity.
  - rewrite load_each_run. reflexivity.
Qed.

Lemma save_each_writes d items : forall st r st',
  save_each d items st = (r, st') ->
  exists ws, writes st' = writes st ++ ws /\ files st' = apply_writes ws (files st) /\
             Forall (named_path d) ws.
Proof.
  induction items as [|entity rest IH]; intros st r st' H.
  - cbn in H. inversion H; subst. exists []. rewrite app_nil_r. auto.
  - cbn [save_each] in H. unfold bind, lift in H.
    destruct (Claude.py_dict_get entity "name" JNull) as [nm|e] eqn:E.
    2: { inversion H; subst. exists []. rewrite app_nil_r. auto. }
    destruct (truthy nm) eqn:Tn; cbn [negb] in H.
    2: exact (IH st r st' H).
    destruct (name_str nm) as [s|e] eqn:Ns.
    2: { inversion H; subst. exists []. rewrite app_nil_r. auto. }
    unfold save_entity_json in H.
    destruct (IH _ r st' H) as [ws [Hw [Hf Hn]]]. cbn [writes files] in Hw, Hf.
    exists ((d +s+ "/" +s+ entity_filename s +s+ ".json", entity) :: ws).
    split; [rewrite Hw, <- app_assoc; reflexivity|].
    split; [exact Hf|].
    constructor; [|exact Hn].
    destruct nm; try discriminate Ns. injection Ns as <-.
    exists s0. split; [exact E|]. split; [|reflexivity].
    intros ->. discriminate Tn.
Qed.


Lemma dkeys_aux_in k kvs : forall seen,
  In k (dkeys_aux seen kvs) <-> ~ In k seen /\ dget k kvs <> None.
Proof.
  induction kvs as [|[k' v'] r IH]; intros seen; cbn [dkeys_aux dget].
  - split; [intros []|intros [_ H]; exfalso; apply H; reflexivity].
  - destruct (existsb (String.eqb k') seen) eqn:Es.
    + rewrite IH. apply existsb_exists in Es as [x [Hx Ex]].
      apply String.eqb_eq in Ex. subst x.
      destruct (String.eqb_spec k k') as [->|Ne]; [|tauto].
      split; [intros [H _]; contradiction|intros [H _]; contradiction].
    + cbn [In]. rewrite IH. cbn [In].
      destruct (String.eqb_spec k k') as [->|Ne].
      * split; [intros _|tauto]. split; [|discriminate].
        intros Hin. assert (existsb (String.eqb k') seen = true) as C
          by (apply existsb_exists; exists k'; split; [exact Hin|apply String.eqb_refl]).
        congruence.
      * split.
        -- intros [E|[H1 H2]]; [congruence|]. split; [|exact H2]. tauto.
        -- intros [H1 H2]. right. split; [|exact H2]. intros [E|E]; [congruence|tauto].
Qed.

Lemma dkeys_in k kvs : In k (dkeys kvs) <-> dget k kvs <> None.
Proof. unfold dkeys. rewrite dkeys_aux_in. cbn [In]. tauto. Qed.

Lemma T_append a b : T (a +s+ b) = T a ++ T b.
Proof. induction a as [|c a IH]; cbn; [reflexivity|]. f_equal. exact IH. Qed.

Lemma strip_prefix_spec p s r : strip_prefix p s = Some r <-> s = p ++ r.
Proof.
  revert s. induction p as [|a p IH]; intros s; cbn [strip_prefix app].
  - split; [intros H; injection H as <-; reflexivity|intros ->; reflexivity].
  - destruct s as [|b s]; [split; discriminate|].
    destruct (Ascii.eqb_spec a b) as [->|Ne].
    + rewrite IH. split; [intros ->; reflexivity|intros H; injection H as H; exact H].
    + split; [discriminate|intros H; injection H as H1 H2; congruence].
Qed.

Lemma path_join_T d f : d <> "" -> T (path_join d f) = T (path_join d "") ++ T f.
Proof.
  intros Hd. unfold path_join.
  destruct (String.eqb_spec d "") as [E|_]; [contradiction|].
  destruct (Ascii.eqb _ _); rewrite !T_append; cbn [T list_ascii_of_string];
    rewrite ?app_nil_r, ?app_assoc; reflexivity.
Qed.

Lemma T_inj a b : T a = T b -> a = b.
Proof.
  intros H. rewrite <- (string_of_list_ascii_of_string a), <- (string_of_list_ascii_of_string b).
  unfold T in H. rewrite H. reflexivity.
Qed.

Lemma listdir_in d st f : d <> "" ->
  In f (listdir d st) <->
  f <> "" /\ ~ In "/"%char (T f) /\ dget (path_join d f) (files st) <> None.
Proof.
  intros Hd. unfold listdir.
  destruct (String.eqb_spec d "") as [E|_]; [contradiction|].
  rewrite in_flat_map. split.
  - intros [path [Hp Hf]].
    destruct (strip_prefix _ _) as [r|] eqn:Es; [|destruct Hf].
    destruct (negb (existsb (Ascii.eqb "/") r) && negb (Nat.eqb (length r) 0)) eqn:C;
      [|destruct Hf].
    destruct Hf as [<-|[]].
    apply andb_true_iff in C as [C1 C2]. apply negb_true_iff in C1, C2.
    apply strip_prefix_spec in Es.
    rewrite list_ascii_of_string_of_list_ascii. split; [|split].
    + intros E. apply (f_equal T) in E. unfold T in E.
      rewrite list_ascii_of_string_of_list_ascii in E. subst r. discriminate C2.
    + intros Hin. assert (existsb (Ascii.eqb "/") r = true) as X
        by (apply existsb_exists; exists "/"%char; split; [exact Hin|apply Ascii.eqb_refl]).
      congruence.
    + apply dkeys_in in Hp.
      replace (path_join d (string_of_list_ascii r)) with path; [exact Hp|].
      apply T_inj. rewrite (path_join_T _ _ Hd), Es. unfold T.
      rewrite list_ascii_of_string_of_list_ascii. reflexivity.
  - intros [H1 [H2 H3]]. exists (path_join d f). split; [apply dkeys_in; exact H3|].
    rewrite (path_join_T d f Hd).
    assert (Es : strip_prefix (T (path_join d "")) (T (path_join d "") ++ T f) = Some (T f))
      by (apply strip_prefix_spec; reflexivity).
    rewrite Es.
    replace (existsb (Ascii.eqb "/") (T f)) with false.
    2: { symmetry. apply not_true_iff_false. intros X. apply existsb_exists in X as [c [Hc Ec]].
         apply Ascii.eqb_eq in Ec. subst c. contradiction. }
    replace (Nat.eqb (length (T f)) 0) with false.
    2: { symmetry. apply Nat.eqb_neq. intros L. apply length_zero_iff_nil in L.
         apply H1. apply T_inj. exact L. }
    cbn. left. apply string_of_list_ascii_of_string.
Qed.


Lemma match_bracket_body (body rest : text) :
  forall d i, BraceSpec.bal "[" "]" d body = true ->
  match_bracket (body ++ "]"%char :: rest) (Z.of_nat d + 1) i = Some (i + length body + 1).
Proof.
  induction body as [|c body IH]; intros d i Hb.
  - cbn [BraceSpec.bal] in Hb. apply Nat.eqb_eq in Hb. subst d.
    cbn [app match_bracket length]. rewrite Ascii.eqb_refl.
    change (Ascii.eqb "]" "[") with false. cbv iota.
    change (Z.eqb (Z.of_nat 0 + 1 - 1) 0) with true. cbv iota. f_equal. lia.
  - cbn [BraceSpec.bal] in Hb. cbn [app match_bracket].
    destruct (Ascii.eqb_spec c "[") as [->|Ho].
    + replace (Z.of_nat d + 1 + 1)%Z with (Z.of_nat (S d) + 1)%Z by lia.
      rewrite (IH (S d) (S i) Hb). cbn [length]. f_equal. lia.
    + destruct (Ascii.eqb_spec c "]") as [->|Hc].
      * destruct d as [|d]; [discriminate|].
        replace (Z.of_nat (S d) + 1 - 1)%Z with (Z.of_nat d + 1)%Z by lia.
        replace (Z.eqb (Z.of_nat d + 1) 0) with false by (symmetry; apply Z.eqb_neq; lia).
        rewrite (IH d (S i) Hb). cbn [length]. f_equal. lia.
      * rewrite (IH d (S i) Hb). cbn [length]. f_equal. lia.
Qed.

Lemma match_bracket_array (body rest : text) (i : nat) :
  BraceSpec.balanced_list body = true ->
  match_bracket ("["%char :: body ++ "]"%char :: rest) 0 i = Some (i + length body + 2).
Proof.
  intros Hb. cbn [match_bracket]. rewrite Ascii.eqb_refl.
  change (0 + 1)%Z with (Z.of_nat 0 + 1)%Z.
  rewrite (match_bracket_body body rest 0 (S i) Hb). f_equal. lia.
Qed.

Lemma find_bracket (pre r : text) :
  ~ In "["%char pre -> Claude.find (T "[") (pre ++ "["%char :: r) = length pre.
Proof.
  induction pre as [|c pre IH]; intros H; [reflexivity|].
  cbn [app Claude.find length].
  assert (Hc : prefixb (T "[") (c :: pre ++ "["%char :: r) = false).
  { change (T "[") with ["["%char]. cbn [prefixb]. rewrite andb_true_r.
    destruct (Ascii.eqb_spec "[" c) as [E|E]; [|reflexivity].
    exfalso. apply H. left. symmetry. exact E. }
  rewrite Hc, IH; [reflexivity|]. intros Hin. apply H. right. exact Hin.
Qed.

Lemma py_strip_array (body : text) :
  Claude.py_strip ("["%char :: body ++ ["]"%char]) = "["%char :: body ++ ["]"%char].
Proof.
  unfold Claude.py_strip. cbn [Claude.lstrip].
  change (Claude.is_space "["%char) with false. cbv iota.
  rewrite app_comm_cons, rev_app_distr. cbn [rev app Claude.lstrip].
  assert (Hs : Claude.is_space "]"%char = false) by reflexivity. rewrite Hs.
  replace ("]"%char :: rev body ++ ["["%char]) with (rev ("["%char :: body ++ ["]"%char]))
    by (cbn [rev]; rewrite rev_app_distr; reflexivity).
  apply rev_involutive.
Qed.

Lemma json_text_of_list_brackets (pre body post : text) :
  contains Claude.fence (pre ++ "["%char :: body ++ "]"%char :: post) = false ->
  ~ In "["%char pre ->
  BraceSpec.balanced_list body = true ->
  json_text_of_list (pre ++ "["%char :: body ++ "]"%char :: post)
  = Ok ("["%char :: body ++ ["]"%char]).
Proof.
  set (X := pre ++ "["%char :: body ++ "]"%char :: post).
  intros Hf Hpre Hb. unfold json_text_of_list.
  assert (Hj : contains Claude.fence_json X = false).
  { pose proof (PayloadPathProofs.contains_app_l Claude.fence (T "json") X) as Hc.
    rewrite Hf in Hc.
    destruct (contains Claude.fence_json X) eqn:E; [|reflexivity].
    symmetry. apply Hc. exact E. }
  rewrite Hj, Hf.
  assert (Ho : contains (T "[") X = true).
  { apply FenceProofs.contains_app_prefix. reflexivity. }
  rewrite Ho.
  subst X. rewrite (find_bracket pre _ Hpre).
  rewrite skipn_app, skipn_all, Nat.sub_diag. cbn [skipn app].
  rewrite (match_bracket_array body post (length pre) Hb).
  replace (Nat.ltb (length pre) (length pre + length body + 2)) with true
    by (symmetry; apply Nat.ltb_lt; lia).
  replace (length pre + length body + 2 - length pre) with (S (length body + 1)) by lia.
  cbn [firstn]. rewrite firstn_app, firstn_all2 by lia.
  replace (length body + 1 - length body) with 1 by lia. cbn [firstn].
  rewrite py_strip_array. reflexivity.
Qed.
End InferProofs.

(** Extra X8: whatever the language model answers, every file
    [infer_entity_relationships] writes holds an entity whose [name] is a
    non-empty string, at [{directory}/{entity_filename(name)}.json]; the
    files change by these writes only. *)
Theorem infer_entity_relationships_writes key mc d st r st' :
  Infer.infer_entity_relationships key mc d st = (r, st') ->
  exists ws, Main.writes st' = Main.writes st ++ ws /\
             Main.files st' = InferSpec.apply_writes ws (Main.files st) /\
             Forall (InferSpec.named_path d) ws.
Proof.
  unfold Infer.infer_entity_relationships, Main.bind at 1.
  rewrite InferProofs.load_all_entities_run.
  destruct (filter _ _) as [|e es].
  - intros H. inversion H; subst. exists []. rewrite app_nil_r. auto.
  - unfold Main.bind, Main.lift.
    destruct (py_iter _) as [items|x].
    2: { intros H. inversion H; subst. exists []. rewrite app_nil_r. auto. }
    destruct (Infer.save_each d items st) as [[u|x] st1] eqn:Hs;
      destruct (InferProofs.save_each_writes d items st _ st1 Hs) as [ws [Hw [Hf Hn]]].
    + destruct (py_len _); intros H; inversion H; subst; exists ws; auto.
    + intros H; inversion H; subst; exists ws; auto.
Qed.

(** Extra X9: [infer_entity_relationships] returns [False] exactly when
    [load_all_entities] finds no entity, and it then leaves the store as
    it was. *)
Theorem infer_entity_relationships_false_iff key mc d st r st' :
  Infer.infer_entity_relationships key mc d st = (r, st') ->
  (r = Ok false <-> fst (Infer.load_all_entities d st) = Ok [] /\ st' = st).
Proof.
  unfold Infer.infer_entity_relationships, Main.bind at 1.
  rewrite InferProofs.load_all_entities_run. cbn [fst].
  destruct (filter _ _) as [|e es].
  - intros H. inversion H; subst. tauto.
  - unfold Main.bind, Main.lift. intros H. split; [|intros [C _]; discriminate C].
    intros ->. revert H. destruct (py_iter _) as [items|x]; [|intros H; inversion H].
    destruct (Infer.save_each d items st) as [[u|x] st1].
    + destruct (py_len _); intros H; inversion H.
    + intros H; inversion H.
Qed.

(** Extra X10: [load_all_entities] never fails and changes nothing; it
    returns the truthy records stored directly in the directory under a
    name that ends in [.json]. *)
Theorem load_all_entities_spec d st :
  d <> "" ->
  exists es, Infer.load_all_entities d st = (Ok es, st) /\
    forall e, In e es <->
      truthy e = true /\
      exists f, f <> "" /\ ~ In "/"%char (T f) /\ Infer.ends_with (T ".json") (T f) = true /\
                dget (Infer.path_join d f) (Main.files st) = Some e.
Proof.
  intros Hd. rewrite InferProofs.load_all_entities_run. eexists. split; [reflexivity|].
  intros e. rewrite filter_In, in_map_iff. unfold InferSpec.json_files, InferSpec.stored.
  split.
  - intros [[f [Hv Hf]] Ht]. split; [exact Ht|].
    apply filter_In in Hf as [Hl Hj]. apply (InferProofs.listdir_in d st f Hd) in Hl as [H1 [H2 H3]].
    exists f. split; [exact H1|]. split; [exact H2|]. split; [exact Hj|].
    destruct (dget _ _); [congruence|contradiction].
  - intros [Ht [f [H1 [H2 [Hj Hg]]]]]. split; [|exact Ht].
    exists f. rewrite Hg. split; [reflexivity|].
    apply filter_In. split; [|exact Hj].
    apply (InferProofs.listdir_in d st f Hd). rewrite Hg. split; [exact H1|]. split; [exact H2|].
    discriminate.
Qed.


(** Extra X12: when the response has no [```], [infer_relationships]
    parses the text from the first [[] to the bracket that balances it,
    and gives back its input when that parse fails. *)
Theorem infer_relationships_first_array key mc entities pre body post :
  truthy key = true ->
  mc (Infer.relationships_prompt entities) = Ok (pre ++ "["%char :: body ++ "]"%char :: post) ->
  contains Claude.fence (pre ++ "["%char :: body ++ "]"%char :: post) = false ->
  ~ In "["%char pre ->
  BraceSpec.balanced_list body = true ->
  Infer.infer_relationships key mc entities
  = match Json.json_loads ("["%char :: body ++ ["]"%char]) with
    | Ok updated_entities => updated_entities
    | Exc _ => entities
    end.
Proof.
  intros Hk Hm Hf Hpre Hb. unfold Infer.infer_relationships.
  rewrite Hk, Hm. cbn [negb].
  rewrite (InferProofs.json_text_of_list_brackets pre body post Hf Hpre Hb). reflexivity.
Qed.

Lemma infer_entity_relationships_writes_witness :
  let st := Main.mkStore [("data/entities/acme.json", JObj [("name", JStr "Acme Corp")]);
                          ("data/entities/noname.json", JObj [("type", JStr "Payer")])] [] in
  let mc := fun _ : json => Ok (qtext "[{'name': 'B/C x'}, {'type': 1}]") in
  let run := Infer.infer_entity_relationships (JStr "k") mc "data/entities" st in
  run = (fst run, snd run) /\
  exists ws, Main.writes (snd run) = Main.writes st ++ ws /\
             Main.files (snd run) = InferSpec.apply_writes ws (Main.files st) /\
             Forall (InferSpec.named_path "data/entities") ws.
Proof.
  intros st mc run.
  assert (H : run = (fst run, snd run)) by (vm_compute; reflexivity).
  split; [exact H|].
  exact (infer_entity_relationships_writes (JStr "k") mc "data/entities" st (fst run) (snd run) H).
Defined.

Lemma infer_entity_relationships_false_iff_witness :
  let st := Main.mkStore [("data/entities/acme.json", JObj [("name", JStr "Acme Corp")])] [] in
  let run := Infer.infer_entity_relationships JNull (fun _ => Ok []) "data/other" st in
  run = (Ok false, st) /\
  (Ok false = Ok false <-> fst (Infer.load_all_entities "data/other" st) = Ok [] /\ st = st).
Proof.
  intros st run.
  assert (H : run = (Ok false, st)) by (vm_compute; reflexivity).
  split; [exact H|].
  exact (infer_entity_relationships_false_iff JNull (fun _ => Ok []) "data/other" st _ _ H).
Defined.

Lemma load_all_entities_spec_witness :
  let st := Main.mkStore [("data/entities/acme.json", JObj [("name", JStr "Acme Corp")]);
                          ("data/entities/notes.txt", JObj [("name", JStr "X")]);
                          ("data/entities/sub/x.json", JObj [("name", JStr "Y")]);
                          ("data/entities/empty.json", JObj [])] [] in
  "data/entities" <> "" /\
  Infer.load_all_entities "data/entities" st = (Ok [JObj [("name", JStr "Acme Corp")]], st) /\
  exists es, Infer.load_all_entities "data/entities" st = (Ok es, st) /\
    forall e, In e es <->
      truthy e = true /\
      exists f, f <> "" /\ ~ In "/"%char (T f) /\ Infer.ends_with (T ".json") (T f) = true /\
                dget (Infer.path_join "data/entities" f) (Main.files st) = Some e.
Proof.
  intros st.
  assert (Hd : "data/entities" <> "") by discriminate.
  split; [exact Hd|]. split; [vm_compute; reflexivity|].
  exact (load_all_entities_spec "data/entities" st Hd).
Defined.


Lemma infer_relationships_first_array_witness :
  let pre := T "Updated entities: " in
  let body := qtext "{'name': 'A'}, {'name': 'B'}" in
  let post := T " [end]" in
  let mc := fun _ : json => Ok (pre ++ "["%char :: body ++ "]"%char :: post) in
  let entities := JArr [JObj [("name", JStr "A")]] in
  (truthy (JStr "k") = true /\
   mc (Infer.relationships_prompt entities) = Ok (pre ++ "["%char :: body ++ "]"%char :: post) /\
   contains Claude.fence (pre ++ "["%char :: body ++ "]"%char :: post) = false /\
   ~ In "["%char pre /\ BraceSpec.balanced_list body = true) /\
  Infer.infer_relationships (JStr "k") mc entities
  = match Json.json_loads ("["%char :: body ++ ["]"%char]) with
    | Ok updated_entities => updated_entities
    | Exc _ => entities
    end /\
  Json.json_loads ("["%char :: body ++ ["]"%char])
  = Ok (JArr [JObj [("name", JStr "A")]; JObj [("name", JStr "B")]]).
Proof.
  intros pre body post mc entities.
  assert (H1 : truthy (JStr "k") = true) by reflexivity.
  assert (H2 : mc (Infer.relationships_prompt entities)
               = Ok (pre ++ "["%char :: body ++ "]"%char :: post)) by reflexivity.
  assert (H3 : contains Claude.fence (pre ++ "["%char :: body ++ "]"%char :: post) = false)
    by (vm_compute; reflexivity).
  assert (H4 : ~ In "["%char pre) by (vm_compute; intuition discriminate).
  assert (H5 : BraceSpec.balanced_list body = true) by (vm_compute; reflexivity).
  split; [split; [exact H1|split; [exact H2|split; [exact H3|split; [exact H4|exact H5]]]]|].
  split.
  - exact (infer_relationships_first_array (JStr "k") mc entities pre body post H1 H2 H3 H4 H5).
  - vm_compute. reflexivity.
Defined.

(** ** [tools/batch_update.py]: [main] *)

Module BatchMainProofs.
Import Batch BatchMain.

Lemma batch_counts pe es update_existing completion :
  es <> [] -> Permutation completion (seq 0 (length es)) ->
  let '(sc, fc, fs) := Batch.batch_process pe es update_existing completion in
  sc + fc = length es /\ fc = length fs /\
  Permutation fs (flat_map failed (map (fun e => process_entity_wrapper pe e update_existing) es)).
Proof.
  intros Hne Hcompletion. unfold Batch.batch_process.
  destruct es as [|x xs] eqn:Hl; [contradiction|]. rewrite <- Hl in *.
  set (results := map (fun e => process_entity_wrapper pe e update_existing) es).
  assert (Hp : Permutation (map (fun i => nth i results ("", true, JNull)) completion) results).
  { apply BatchProofs.completion_perm. subst results. rewrite length_map. exact Hcompletion. }
  pose proof (BatchProofs.collect_spec
                (map (fun i => nth i results ("", true, JNull)) completion) 0 0 []) as Hc.
  destruct (collect _ 0 0 []) as [[sc fc] fs].
  destruct Hc as (H1 & H2 & H3). cbn [app length] in H1, H2, H3. subst fs.
  pose proof (Permutation_length Hp) as Hlen.
  assert (Hlr : length results = length es) by (subst results; apply length_map).
  split; [lia|]. split; [exact H2|exact (Permutation_flat_map failed Hp)].
Qed.

Lemma wrapper_name pe u e : fst (fst (process_entity_wrapper pe e u)) = e.
Proof.
  unfold process_entity_wrapper.
  destruct (pe e u) as [r|x]; [|reflexivity].
  destruct (py_contains r (JStr "error")) as [[|]|x]; [|reflexivity|reflexivity].
  destruct (py_getitem r (JStr "error")); reflexivity.
Qed.

Lemma failed_wrapper pe u e :
  failed (process_entity_wrapper pe e u)
  = if succeeded pe u e then [] else [(e, snd (process_entity_wrapper pe e u))].
Proof.
  pose proof (wrapper_name pe u e) as Hn. unfold succeeded.
  destruct (process_entity_wrapper pe e u) as [[n s] x]. cbn in *. subst n.
  destruct s; reflexivity.
Qed.

Lemma flat_map_failed_names pe u es :
  map fst (flat_map failed (map (fun e => process_entity_wrapper pe e u) es))
  = filter (fun e => negb (succeeded pe u e)) es.
Proof.
  induction es as [|e es IH]; [reflexivity|].
  cbn [map flat_map filter]. rewrite map_app, IH, failed_wrapper.
  destruct (succeeded pe u e); reflexivity.
Qed.

Lemma flat_map_failed_nil pe u es :
  flat_map failed (map (fun e => process_entity_wrapper pe e u) es) = [] <->
  Forall (fun e => succeeded pe u e = true) es.
Proof.
  induction es as [|e es IH]; cbn [map flat_map]; [split; auto|].
  rewrite failed_wrapper. destruct (succeeded pe u e) eqn:E; cbn [app].
  - rewrite IH. split; [intros H; constructor; auto|intros H; inversion H; auto].
  - split; [discriminate|intros H; inversion H; congruence].
Qed.

Lemma filter_not_failed pe u es (failures : list (string * json)) :
  Permutation failures (flat_map failed (map (fun e => process_entity_wrapper pe e u) es)) ->
  filter (fun e => negb (existsb (String.eqb e) (map fst failures))) es
  = filter (succeeded pe u) es.
Proof.
  intros Hp. apply filter_ext_in. intros e He.
  assert (Hin : In e (map fst failures) <-> succeeded pe u e = false).
  { pose proof (Permutation_map fst Hp) as Hm.
    split; intros H.
    - apply (Permutation_in _ Hm) in H. rewrite flat_map_failed_names, filter_In in H.
      apply negb_true_iff. tauto.
    - apply (Permutation_in _ (Permutation_sym Hm)). rewrite flat_map_failed_names, filter_In.
      split; [exact He|]. apply negb_true_iff. exact H. }
  destruct (existsb (String.eqb e) (map fst failures)) eqn:Ex.
  - apply existsb_exists in Ex as [x [Hx Ex]]. apply String.eqb_eq in Ex. subst x.
    rewrite (proj1 Hin Hx). reflexivity.
  - destruct (succeeded pe u e) eqn:Ok; [reflexivity|].
    pose proof (proj2 Hin eq_refl) as Hx. apply not_true_iff_false in Ex. exfalso. apply Ex.
    apply existsb_exists. exists e. split; [exact Hx|apply String.eqb_refl].
Qed.

Lemma length_filter_split {A} (f : A -> bool) l :
  length (filter f l) + length (filter (fun x => negb (f x)) l) = length l.
Proof.
  induction l as [|x l IH]; [reflexivity|]. cbn [filter length].
  destruct (f x); cbn [negb length]; lia.
Qed.

Lemma from_list pe rc input_file es u c :
  given_str input_file = false ->
  batch_process_from pe rc input_file (Some es) u c = Batch.batch_process pe es u c.
Proof.
  intros H. unfold batch_process_from, given_str in *.
  destruct input_file as [f|]; [rewrite H|]; destruct es; reflexivity.
Qed.

End BatchMainProofs.

(** Extra X13: for [--entities] without [--file], [main] exits with 0
    exactly when every listed entity's run succeeded, whatever the order
    in which the runs complete. *)
Theorem batch_main_exit_code pe rc wr a completion es :
  BatchMain.given_str (BatchMain.file a) = false ->
  BatchMain.entities a = Some es -> es <> [] ->
  Permutation completion (seq 0 (length es)) ->
  (fst (BatchMain.main pe rc wr a completion) = 0 <->
   Forall (fun e => BatchMain.succeeded pe (negb (BatchMain.no_update a)) e = true) es).
Proof.
  intros Hf He Hne Hp. unfold BatchMain.main.
  rewrite Hf, He. destruct es as [|x xs]; [contradiction|]. cbn [negb andb BatchMain.given_list].
  rewrite (BatchMainProofs.from_list pe rc _ _ _ _ Hf).
  pose proof (BatchMainProofs.batch_counts pe (x :: xs) (negb (BatchMain.no_update a)) completion
                Hne Hp) as Hc.
  destruct (Batch.batch_process _ _ _ _) as [[sc fc] fs]. destruct Hc as (_ & Hfc & Hperm).
  cbn [fst]. rewrite <- BatchMainProofs.flat_map_failed_nil.
  split.
  - intros H. destruct (Nat.eqb_spec fc 0) as [E|E]; [|discriminate].
    rewrite E in Hfc. symmetry in Hfc. apply length_zero_iff_nil in Hfc. subst fs.
    apply Permutation_nil in Hperm. exact Hperm.
  - intros H. rewrite H in Hperm. apply Permutation_sym, Permutation_nil in Hperm. subst fs.
    rewrite Hfc. reflexivity.
Qed.

(** Extra X14: for [--entities] without [--file], the report written to
    [--output] is the header, a [Success] row for each listed entity whose
    run succeeded (in the order given), then a [Failure] row for each
    failed run (in completion order): one row per listed entity. *)
Theorem batch_main_report_entities pe rc wr a completion es o :
  BatchMain.given_str (BatchMain.file a) = false ->
  BatchMain.entities a = Some es -> es <> [] ->
  Permutation completion (seq 0 (length es)) ->
  BatchMain.output a = Some o -> o <> "" -> wr o = true ->
  let u := negb (BatchMain.no_update a) in
  exists failures,
    Permutation failures
      (flat_map Batch.failed (map (fun e => Batch.process_entity_wrapper pe e u) es)) /\
    snd (BatchMain.main pe rc wr a completion)
    = Some (o, BatchMain.header_row ::
                 map BatchMain.success_row (filter (BatchMain.succeeded pe u) es) ++
                 map BatchMain.failure_row failures) /\
    length (map BatchMain.success_row (filter (BatchMain.succeeded pe u) es) ++
            map BatchMain.failure_row failures) = length es.
Proof.
  intros Hf He Hne Hp Ho Hon Hw u. unfold BatchMain.main.
  rewrite Hf, He. destruct es as [|x xs] eqn:Hes; [contradiction|]. rewrite <- Hes in *.
  cbn [negb andb BatchMain.given_list].
  rewrite (BatchMainProofs.from_list pe rc _ _ _ _ Hf).
  pose proof (BatchMainProofs.batch_counts pe es u completion Hne Hp) as Hc. fold u.
  destruct (Batch.batch_process _ _ _ _) as [[sc fc] fs]. destruct Hc as (Hsum & Hfc & Hperm).
  exists fs. split; [exact Hperm|]. cbn [snd]. rewrite Ho.
  replace (String.eqb o "") with false by (symmetry; apply String.eqb_neq; exact Hon).
  replace (Nat.ltb 0 sc || Nat.ltb 0 fc) with true.
  2: { symmetry. apply orb_true_iff. destruct es as [|y ys]; [contradiction|].
       cbn [length] in Hsum. destruct sc; [right; apply Nat.ltb_lt; lia|left; apply Nat.ltb_lt; lia]. }
  rewrite Hw. cbn [negb andb]. unfold BatchMain.report_rows.
  rewrite (BatchMainProofs.filter_not_failed pe u es fs Hperm).
  split; [rewrite Hes; reflexivity|].
  rewrite length_app, !length_map, (Permutation_length Hperm).
  rewrite <- (length_map fst), BatchMainProofs.flat_map_failed_names.
  apply BatchMainProofs.length_filter_split.
Qed.

(** Extra X15: with [--file], the entities processed are those read from
    the file, yet the [Success] rows of the report come from [--entities]:
    none without it, and otherwise every name given there that no failure
    names, processed or not. *)
Theorem batch_main_report_file pe rc wr a completion f es o :
  BatchMain.file a = Some f -> f <> "" -> rc f = Ok es -> es <> [] ->
  Permutation completion (seq 0 (length es)) ->
  BatchMain.output a = Some o -> o <> "" -> wr o = true ->
  let u := negb (BatchMain.no_update a) in
  exists failures,
    Permutation failures
      (flat_map Batch.failed (map (fun e => Batch.process_entity_wrapper pe e u) es)) /\
    (BatchMain.entities a = None ->
     snd (BatchMain.main pe rc wr a completion)
     = Some (o, BatchMain.header_row :: map BatchMain.failure_row failures)) /\
    (forall l, BatchMain.entities a = Some l ->
     snd (BatchMain.main pe rc wr a completion)
     = Some (o, BatchMain.header_row ::
                  map BatchMain.success_row
                    (filter (fun e => negb (existsb (String.eqb e) (map fst failures))) l) ++
                  map BatchMain.failure_row failures)).
Proof.
  intros Hf Hfn Hr Hne Hp Ho Hon Hw u.
  assert (Hg : BatchMain.given_str (BatchMain.file a) = true).
  { rewrite Hf. unfold BatchMain.given_str. apply negb_true_iff, String.eqb_neq. exact Hfn. }
  pose proof (BatchMainProofs.batch_counts pe es u completion Hne Hp) as Hc.
  assert (Hb : BatchMain.batch_process_from pe rc (BatchMain.file a) (BatchMain.entities a) u completion
               = Batch.batch_process pe es u completion).
  { unfold BatchMain.batch_process_from. rewrite Hf.
    replace (String.eqb f "") with false by (symmetry; apply String.eqb_neq; exact Hfn).
    cbn [negb]. rewrite Hr. reflexivity. }
  destruct (Batch.batch_process pe es u completion) as [[sc fc] fs] eqn:Hbp.
  destruct Hc as (Hsum & Hfc & Hperm).
  exists fs. split; [exact Hperm|].
  assert (Hm : snd (BatchMain.main pe rc wr a completion)
               = Some (o, BatchMain.report_rows (BatchMain.entities a) fs)).
  { unfold BatchMain.main. rewrite Hg. cbn [negb andb]. fold u. rewrite Hb. cbn [snd].
    rewrite Ho.
    replace (String.eqb o "") with false by (symmetry; apply String.eqb_neq; exact Hon).
    replace (Nat.ltb 0 sc || Nat.ltb 0 fc) with true.
    2: { symmetry. apply orb_true_iff. destruct es as [|y ys]; [contradiction|].
         cbn [length] in Hsum. destruct sc; [right; apply Nat.ltb_lt; lia|left; apply Nat.ltb_lt; lia]. }
    rewrite Hw. reflexivity. }
  rewrite Hm. unfold BatchMain.report_rows.
  split; [intros ->; reflexivity|intros l ->; reflexivity].
Qed.

Lemma batch_main_exit_code_witness :
  let run := fun (name : string) (_ : bool) =>
    if String.eqb name "C" then Ok (Main.not_found "C") else Ok (JObj [("name", JStr name)]) in
  let rc := fun _ : string => (Ok [] : res (list string)) in
  let a := BatchMain.mkArgs None (Some ["A"; "C"; "B"]) false 4 (Some "out.csv") in
  fst (BatchMain.main run rc (fun _ => true) a [2; 0; 1]) = 1 /\
  (fst (BatchMain.main run rc (fun _ => true) a [2; 0; 1]) = 0 <->
   Forall (fun e => BatchMain.succeeded run (negb (BatchMain.no_update a)) e = true)
          ["A"; "C"; "B"]).
Proof.
  intros run rc a. split; [vm_compute; reflexivity|].
  apply (batch_main_exit_code run rc (fun _ => true) a [2; 0; 1] ["A"; "C"; "B"]).
  - reflexivity.
  - reflexivity.
  - discriminate.
  - exact (Permutation_app_comm [2] [0; 1]).
Defined.

Lemma batch_main_report_entities_witness :
  let run := fun (name : string) (_ : bool) =>
    if String.eqb name "C" then Ok (Main.not_found "C") else Ok (JObj [("name", JStr name)]) in
  let rc := fun _ : string => (Ok [] : res (list string)) in
  let a := BatchMain.mkArgs None (Some ["A"; "C"; "B"]) false 4 (Some "out.csv") in
  snd (BatchMain.main run rc (fun _ => true) a [2; 0; 1])
  = Some ("out.csv", [[JStr "Entity"; JStr "Status"; JStr "Error"];
                      [JStr "A"; JStr "Success"; JStr ""];
                      [JStr "B"; JStr "Success"; JStr ""];
                      [JStr "C"; JStr "Failure"; JStr "Could not find Wikipedia data for C"]]) /\
  let u := negb (BatchMain.no_update a) in
  exists failures,
    Permutation failures
      (flat_map Batch.failed (map (fun e => Batch.process_entity_wrapper run e u) ["A"; "C"; "B"])) /\
    snd (BatchMain.main run rc (fun _ => true) a [2; 0; 1])
    = Some ("out.csv", BatchMain.header_row ::
                 map BatchMain.success_row (filter (BatchMain.succeeded run u) ["A"; "C"; "B"]) ++
                 map BatchMain.failure_row failures) /\
    length (map BatchMain.success_row (filter (BatchMain.succeeded run u) ["A"; "C"; "B"]) ++
            map BatchMain.failure_row failures) = length ["A"; "C"; "B"].
Proof.
  intros run rc a. split; [vm_compute; reflexivity|].
  apply (batch_main_report_entities run rc (fun _ => true) a [2; 0; 1] ["A"; "C"; "B"] "out.csv").
  - reflexivity.
  - reflexivity.
  - discriminate.
  - exact (Permutation_app_comm [2] [0; 1]).
  - reflexivity.
  - discriminate.
  - reflexivity.
Defined.

Lemma batch_main_report_file_witness :
  let run := fun (name : string) (_ : bool) =>
    if String.eqb name "C" then Ok (Main.not_found "C") else Ok (JObj [("name", JStr name)]) in
  let rc := fun _ : string => (Ok ["A"; "C"] : res (list string)) in
  let a := BatchMain.mkArgs (Some "in.csv") (Some ["X"]) false 4 (Some "out.csv") in
  snd (BatchMain.main run rc (fun _ => true) a [1; 0])
  = Some ("out.csv", [[JStr "Entity"; JStr "Status"; JStr "Error"];
                      [JStr "X"; JStr "Success"; JStr ""];
                      [JStr "C"; JStr "Failure"; JStr "Could not find Wikipedia data for C"]]) /\
  let u := negb (BatchMain.no_update a) in
  exists failures,
    Permutation failures
      (flat_map Batch.failed (map (fun e => Batch.process_entity_wrapper run e u) ["A"; "C"])) /\
    (BatchMain.entities a = None ->
     snd (BatchMain.main run rc (fun _ => true) a [1; 0])
     = Some ("out.csv", BatchMain.header_row :: map BatchMain.failure_row failures)) /\
    (forall l, BatchMain.entities a = Some l ->
     snd (BatchMain.main run rc (fun _ => true) a [1; 0])
     = Some ("out.csv", BatchMain.header_row ::
                  map BatchMain.success_row
                    (filter (fun e => negb (existsb (String.eqb e) (map fst failures))) l) ++
                  map BatchMain.failure_row failures)).
Proof.
  intros run rc a. split; [vm_compute; reflexivity|].
  apply (batch_main_report_file run rc (fun _ => true) a [1; 0] "in.csv" ["A"; "C"] "out.csv").
  - reflexivity.
  - discriminate.
  - reflexivity.
  - discriminate.
  - exact (perm_swap 0 1 []).
  - reflexivity.
  - discriminate.
  - reflexivity.
Defined.
